(** * Baseline Modernizer: metrics tracker, dashboard derivations, catalog lookup

    A shallow embedding of [src/metricsTracker.ts] (class [MetricsTracker]),
    of [generateRecommendations] / [generateTimelineData] in
    [src/webviewProvider.ts], and of [BaselineService.getModernAlternatives].

    Conventions of the embedding.
    - JavaScript numbers that the program uses as counters are integers and
      are modelled by [Z]: they are binary64 numbers that hold these
      integers exactly, below [2 ^ 53].  The quotients and products from
      which the program takes a percentage or an average for the dashboard
      are binary64 numbers as well: a number is the rational that it
      denotes, and each division and multiplication gives the exact result
      rounded to 53 significant bits, ties to even ([JS.double]); between
      counters no result leaves the normal range.  [Math.round] is
      [floor (x + 1/2)] of that rational.  Only [getSessionStats] keeps its
      two quotients exact, and its average as the decimal tenth that the
      rounded number of tenths stands for.
    - [new Date()] is an argument [now] of the operation that reads the
      clock; a [Date] is its epoch time in milliseconds, an immutable
      value.
    - Objects and arrays that the program shares by reference (the
      [featureUsage] object, the two history arrays) live in a heap and are
      named by locations; the [metrics] object itself is only reachable from
      the tracker and is kept by value.
    - The [featureUsage] object holds numeric counts under own properties.
      For a feature identifier that is a property name of [Object.prototype]
      (such as [constructor] or [__proto__]) the program reads the inherited
      value and stores text, or nothing; the embedding does not follow it
      there, and the properties of [recordFeatureUsage] and
      [getMostUsedFeatures] are stated for the other identifiers
      ([Spec.own_name]).
    - [Math.random()] is an argument [random], the sequence of its results;
      text is ASCII, on which [toLowerCase] maps [A]-[Z] to [a]-[z].
    - The other operations of the classes ([loadSampleData], the catalog of
      features of [BaselineService], the statistics and the feature details
      of the dashboard) and the commands [analyzeFile] and [analyzeProject]
      of [extension.ts] are embedded for the further properties at the end;
      the window, the panel and the documents of the editor appear only as
      far as the tracker depends on them. *)

From Stdlib Require Import ZArith QArith Qround String Ascii List Lia DecimalString.
From Stdlib Require Import Sorted Permutation.
From stdpp Require Import base list strings sorting.
From Stdlib Require Import Lqa Qpower.
From Stdlib Require SpecFloat.

Open Scope Z_scope.

(** ** JavaScript primitives used by the program *)

Module JS.

(** [Math.round]: the nearest integer, ties towards +infinity. *)
Definition Math_round (x : Q) : Z := Qfloor (x + (1 # 2))%Q.

Definition Math_min (a b : Z) : Z := Z.min a b.

(** The exact quotient of two integers. *)
Definition div (a b : Z) : Q := (inject_Z a / inject_Z b)%Q.

(** *** Binary64 arithmetic

    The integer nearest to [x], the even one of the two when [x] lies
    halfway between them. *)
Definition round_half_even (x : Q) : Z :=
  let f := Qfloor x in
  match (x - inject_Z f ?= 1 # 2)%Q with
  | Lt => f
  | Gt => f + 1
  | Eq => if Z.even f then f else f + 1
  end.

(** For [x > 0], the exponent [e] with [2 ^ e <= x < 2 ^ (e + 1)]. *)
Definition exponent (x : Q) : Z :=
  let e := Z.log2 (Qnum x) - Z.log2 (Zpos (Qden x)) in
  if Qle_bool (2 ^ e) x then e else e - 1.

(** For [x > 0], the nearest number with 53 significant bits. *)
Definition round_to (x : Q) : Q :=
  let e := exponent x - 52 in
  (inject_Z (round_half_even (x / 2 ^ e)) * 2 ^ e)%Q.

(** The binary64 number nearest to [x], ties to even, for [x] in the
    normal range. *)
Definition double (x : Q) : Q :=
  match (x ?= 0)%Q with
  | Eq => 0%Q
  | Gt => round_to x
  | Lt => (- round_to (- x))%Q
  end.

(** [a / b] on numbers holding integers, and [x * y]. *)
Definition quotient (a b : Z) : Q := double (div a b).

Definition product (x y : Q) : Q := double (x * y).

(** Template-literal rendering [`${n}`] of an integer. *)
Definition toString (n : Z) : string := NilZero.string_of_int (Z.to_int n).

(** The double-quote character, for text that contains it. *)
Definition dq : string := String "034"%char EmptyString.

(** [s.split(sep)] for a one-character separator. *)
Fixpoint split (sep : ascii) (s : string) : list string :=
  match s with
  | EmptyString => [EmptyString]
  | String c s' =>
      if Ascii.eqb c sep then EmptyString :: split sep s'
      else match split sep s' with
           | seg :: rest => String c seg :: rest
           | [] => [String c EmptyString]
           end
  end.

(** [arr.pop()] as a value: the last element, [undefined] when empty. *)
Definition pop {A} (l : list A) : option A := last l.

(** [x || d] for a possibly undefined string: the empty string is falsy. *)
Definition or_string (x : option string) (d : string) : string :=
  match x with
  | Some EmptyString | None => d
  | Some s => s
  end.

(** [hay.includes(needle)]. *)
Fixpoint includes (hay needle : string) : bool :=
  String.prefix needle hay
  || match hay with
     | EmptyString => false
     | String _ hay' => includes hay' needle
     end.

(** *** Own-property order of ordinary objects

    [Object.entries] lists array-index keys first, ascending, and then
    the remaining string keys in the order in which they were created. *)

Definition digit_of (c : ascii) : option N :=
  let n := N_of_ascii c in
  if ((48 <=? n) && (n <=? 57))%N then Some (n - 48)%N else None.

Fixpoint parse_digits (acc : N) (s : string) : option N :=
  match s with
  | EmptyString => Some acc
  | String c s' =>
      match digit_of c with
      | Some d => parse_digits (10 * acc + d)%N s'
      | None => None
      end
  end.

(** A key is an array index when it is the canonical decimal rendering of
    an integer below [2^32 - 1]. *)
Definition array_index (s : string) : option N :=
  match s with
  | EmptyString => None
  | String c rest =>
      if Ascii.eqb c "0"%char && negb (String.eqb rest EmptyString) then None
      else match parse_digits 0%N s with
           | Some n => if (n <? 2 ^ 32 - 1)%N then Some n else None
           | None => None
           end
  end.

Definition is_array_index (s : string) : bool :=
  match array_index s with Some _ => true | None => false end.

Definition index_of (s : string) : N :=
  match array_index s with Some n => n | None => 0%N end.

Fixpoint insert_by_index {V} (e : string * V) (l : list (string * V))
  : list (string * V) :=
  match l with
  | [] => [e]
  | e' :: l' =>
      if (index_of e'.1 <? index_of e.1)%N then e' :: insert_by_index e l'
      else e :: l
  end.

(** [props] are the own properties in creation order. *)
Definition Object_entries {V} (props : list (string * V)) : list (string * V) :=
  foldr insert_by_index [] (filter (fun e => is_array_index e.1 = true) props)
  ++ filter (fun e => is_array_index e.1 = false) props.

(** [obj[k]] on own properties. *)
Fixpoint get {V} (props : list (string * V)) (k : string) : option V :=
  match props with
  | [] => None
  | (k', v) :: props' => if String.eqb k' k then Some v else get props' k
  end.

(** The property names of [Object.prototype].  An object literal inherits
    them: [obj[k]] for one of these names finds the inherited function or
    object when [obj] has no own property [k], and an assignment to
    [__proto__] creates no own property. *)
Definition Object_prototype_names : list string :=
  ["constructor"; "__defineGetter__"; "__defineSetter__"; "hasOwnProperty";
   "__lookupGetter__"; "__lookupSetter__"; "isPrototypeOf";
   "propertyIsEnumerable"; "toString"; "valueOf"; "__proto__";
   "toLocaleString"].

(** [obj[k] = v]: overwrite in place, or create the property last. *)
Fixpoint set {V} (props : list (string * V)) (k : string) (v : V)
  : list (string * V) :=
  match props with
  | [] => [(k, v)]
  | (k', v') :: props' =>
      if String.eqb k' k then (k', v) :: props'
      else (k', v') :: set props' k v
  end.

(** [!x] for a possibly undefined number. *)
Definition falsy (x : option Z) : bool :=
  match x with
  | None => true
  | Some n => n =? 0
  end.

(** *** [Array.prototype.sort] with a comparator

    The sort is stable: [x] is placed after the elements [y] that the
    comparator orders before it ([cmp x y > 0]) and before the others. *)
Fixpoint sort_insert {A} (cmp : A -> A -> Z) (x : A) (l : list A) : list A :=
  match l with
  | [] => [x]
  | y :: l' => if cmp x y >? 0 then y :: sort_insert cmp x l' else x :: l
  end.

Definition sort {A} (cmp : A -> A -> Z) (l : list A) : list A :=
  foldr (sort_insert cmp) [] l.

(** [arr.slice(0, n)]. *)
Definition slice0 {A} (n : nat) (l : list A) : list A := firstn n l.

(** [Math.floor], [Math.max]. *)
Definition Math_floor (x : Q) : Z := Qfloor x.

Definition Math_max (a b : Z) : Z := Z.max a b.

(** [s.toLowerCase()] on ASCII text: the letters [A]-[Z] are mapped to
    [a]-[z], every other character is kept. *)
Definition lower (c : ascii) : ascii :=
  let n := N_of_ascii c in
  if ((65 <=? n) && (n <=? 90))%N then ascii_of_N (n + 32) else c.

Fixpoint toLowerCase (s : string) : string :=
  match s with
  | EmptyString => EmptyString
  | String c s' => String (lower c) (toLowerCase s')
  end.

(** [s.endsWith(suffix)]. *)
Fixpoint endsWith (s suffix : string) : bool :=
  String.eqb s suffix
  || match s with
     | EmptyString => false
     | String _ s' => endsWith s' suffix
     end.

(** [arr.find(f)]: the first element that satisfies [f]. *)
Definition find {A} (f : A -> bool) (l : list A) : option A := List.find f l.

(** [x > y] on numbers. *)
Definition gt (x y : Q) : bool := negb (Qle_bool x y).

(** [arr[i]] for an integer [i]: [undefined] outside the array. *)
Definition at_index {A} (l : list A) (i : Z) : option A :=
  if i <? 0 then None else nth_error l (Z.to_nat i).

End JS.

(** ** [src/metricsTracker.ts] *)

Module MetricsTracker.

Definition Date := Z.
Abbreviation loc := nat.

Record AnalysisEntry := {
  a_timestamp : Date;
  a_fileName : string;
  a_issuesCount : Z;
  a_language : string
}.

Record FixEntry := {
  f_timestamp : Date;
  f_featureId : string;
  f_fileName : string
}.

(** Heap objects: a [Record<string, number>] with its properties in
    creation order, and the two kinds of history array. *)
Inductive Obj :=
| ObjRecord (props : list (string * Z))
| ArrAnalysis (items : list AnalysisEntry)
| ArrFix (items : list FixEntry).

Abbreviation Heap := (list Obj).

(** [interface AdoptionMetrics]; the three containers are references. *)
Record AdoptionMetrics := {
  filesAnalyzed : Z;
  issuesFound : Z;
  fixesApplied : Z;
  featureUsage : loc;
  modernizationProgress : Z;
  lastAnalysis : Date;
  sessionStartTime : Date;
  analysisHistory : loc;
  fixHistory : loc
}.

(** The heap together with the tracker's private field [this.metrics]. *)
Record World := {
  heap : Heap;
  metrics : AdoptionMetrics
}.

Definition alloc (h : Heap) (o : Obj) : Heap * loc := (h ++ [o], length h).

Definition props_at (h : Heap) (l : loc) : list (string * Z) :=
  match h !! l with Some (ObjRecord ps) => ps | _ => [] end.

Definition analysis_at (h : Heap) (l : loc) : list AnalysisEntry :=
  match h !! l with Some (ArrAnalysis xs) => xs | _ => [] end.

Definition fixes_at (h : Heap) (l : loc) : list FixEntry :=
  match h !! l with Some (ArrFix xs) => xs | _ => [] end.

(** [obj[k] = v] through a reference. *)
Definition store_prop (h : Heap) (l : loc) (k : string) (v : Z) : Heap :=
  match h !! l with
  | Some (ObjRecord ps) => <[l := ObjRecord (JS.set ps k v)]> h
  | _ => h
  end.

(** [arr.push(e)] through a reference. *)
Definition push_analysis (h : Heap) (l : loc) (e : AnalysisEntry) : Heap :=
  match h !! l with
  | Some (ArrAnalysis xs) => <[l := ArrAnalysis (xs ++ [e])]> h
  | _ => h
  end.

Definition push_fix (h : Heap) (l : loc) (e : FixEntry) : Heap :=
  match h !! l with
  | Some (ArrFix xs) => <[l := ArrFix (xs ++ [e])]> h
  | _ => h
  end.

(** The object literal shared by [constructor] and [reset]. *)
Definition fresh_metrics (h : Heap) (now : Date) : World :=
  let '(h1, fu) := alloc h (ObjRecord []) in
  let '(h2, ah) := alloc h1 (ArrAnalysis []) in
  let '(h3, fh) := alloc h2 (ArrFix []) in
  {| heap := h3;
     metrics := {| filesAnalyzed := 0;
                   issuesFound := 0;
                   fixesApplied := 0;
                   featureUsage := fu;
                   modernizationProgress := 0;
                   lastAnalysis := now;
                   sessionStartTime := now;
                   analysisHistory := ah;
                   fixHistory := fh |} |}.

Definition constructor (h : Heap) (now : Date) : World := fresh_metrics h now.

Definition set_progress (m : AdoptionMetrics) (p : Z) : AdoptionMetrics :=
  {| filesAnalyzed := filesAnalyzed m;
     issuesFound := issuesFound m;
     fixesApplied := fixesApplied m;
     featureUsage := featureUsage m;
     modernizationProgress := p;
     lastAnalysis := lastAnalysis m;
     sessionStartTime := sessionStartTime m;
     analysisHistory := analysisHistory m;
     fixHistory := fixHistory m |}.

Definition updateModernizationProgress (m : AdoptionMetrics) : AdoptionMetrics :=
  let m1 :=
    if issuesFound m =? 0
    then set_progress m (if filesAnalyzed m >? 0 then 100 else 0)
    else set_progress m
           (JS.Math_round (JS.product (JS.quotient (fixesApplied m) (issuesFound m)) 100)) in
  (* Cap at 100% *)
  set_progress m1 (JS.Math_min (modernizationProgress m1) 100).

Definition recordAnalysis (now : Date) (filePath : string) (issuesCount : Z)
    (language : option string) (w : World) : World :=
  let language := default "unknown" language in
  let m := metrics w in
  let m1 := {| filesAnalyzed := filesAnalyzed m + 1;
               issuesFound := issuesFound m + issuesCount;
               fixesApplied := fixesApplied m;
               featureUsage := featureUsage m;
               modernizationProgress := modernizationProgress m;
               lastAnalysis := now;
               sessionStartTime := sessionStartTime m;
               analysisHistory := analysisHistory m;
               fixHistory := fixHistory m |} in
  (* Add to history *)
  let h1 := push_analysis (heap w) (analysisHistory m1)
              {| a_timestamp := now;
                 a_fileName := JS.or_string (JS.pop (JS.split "/" filePath)) filePath;
                 a_issuesCount := issuesCount;
                 a_language := language |} in
  {| heap := h1; metrics := updateModernizationProgress m1 |}.

Definition recordFix (now : Date) (featureId : string)
    (fileName : option string) (w : World) : World :=
  let fileName := default "" fileName in
  let m := metrics w in
  let m1 := {| filesAnalyzed := filesAnalyzed m;
               issuesFound := issuesFound m;
               fixesApplied := fixesApplied m + 1;
               featureUsage := featureUsage m;
               modernizationProgress := modernizationProgress m;
               lastAnalysis := lastAnalysis m;
               sessionStartTime := sessionStartTime m;
               analysisHistory := analysisHistory m;
               fixHistory := fixHistory m |} in
  (* Add to fix history *)
  let h1 := push_fix (heap w) (fixHistory m1)
              {| f_timestamp := now;
                 f_featureId := featureId;
                 f_fileName := JS.or_string (JS.pop (JS.split "/" fileName)) fileName |} in
  {| heap := h1; metrics := updateModernizationProgress m1 |}.

(** [featureUsage[featureId]] is read among the own properties: this is
    the program for every [featureId] that is no property name of
    [Object.prototype] ([JS.Object_prototype_names]).  For one of those
    names the program reads the inherited value, which is truthy, and adds
    [count] to it as text. *)
Definition recordFeatureUsage (featureId : string) (count : option Z)
    (w : World) : World :=
  let count := default 1 count in
  let fu := featureUsage (metrics w) in
  let h1 :=
    if JS.falsy (JS.get (props_at (heap w) fu) featureId)
    then store_prop (heap w) fu featureId 0
    else heap w in
  let cur := default 0 (JS.get (props_at h1 fu) featureId) in
  {| heap := store_prop h1 fu featureId (cur + count); metrics := metrics w |}.

(** [{ ...this.metrics }]: a new object with the same field values, so
    the three containers are the tracker's own. *)
Definition getMetrics (w : World) : AdoptionMetrics := metrics w.

Record FeatureCount := { feature : string; count : Z }.

Definition getMostUsedFeatures (w : World) : list FeatureCount :=
  JS.slice0 10
    (JS.sort (fun a b => count b - count a)
       (map (fun e => {| feature := e.1; count := e.2 |})
          (JS.Object_entries (props_at (heap w) (featureUsage (metrics w)))))).

Definition getAnalysisHistory (w : World) : list AnalysisEntry :=
  rev (analysis_at (heap w) (analysisHistory (metrics w))). (* Most recent first *)

Definition getFixHistory (w : World) : list FixEntry :=
  rev (fixes_at (heap w) (fixHistory (metrics w))). (* Most recent first *)

Record SessionStats := {
  duration : Z; (* in minutes *)
  filesAnalyzedThisSession : Z;
  issuesFoundThisSession : Z;
  fixesAppliedThisSession : Z;
  averageIssuesPerFile : Q
}.

Definition getSessionStats (now : Date) (w : World) : SessionStats :=
  let m := metrics w in
  let duration := JS.Math_round (JS.div (now - sessionStartTime m) (1000 * 60)) in
  {| duration := duration;
     filesAnalyzedThisSession := filesAnalyzed m;
     issuesFoundThisSession := issuesFound m;
     fixesAppliedThisSession := fixesApplied m;
     averageIssuesPerFile :=
       if filesAnalyzed m >? 0
       then (inject_Z (JS.Math_round (JS.div (issuesFound m) (filesAnalyzed m) * 10)%Q) / 10)%Q
       else 0%Q |}.

Definition reset (now : Date) (w : World) : World := fresh_metrics (heap w) now.

(** *** Sessions: sequences of calls on one tracker *)

Inductive Call :=
| RecordAnalysis (now : Date) (filePath : string) (issuesCount : Z)
    (language : option string)
| RecordFix (now : Date) (featureId : string) (fileName : option string)
| RecordFeatureUsage (featureId : string) (count : option Z)
| Reset (now : Date).

Definition call (w : World) (c : Call) : World :=
  match c with
  | RecordAnalysis now filePath issuesCount language =>
      recordAnalysis now filePath issuesCount language w
  | RecordFix now featureId fileName => recordFix now featureId fileName w
  | RecordFeatureUsage featureId count => recordFeatureUsage featureId count w
  | Reset now => reset now w
  end.

Definition run (cs : list Call) (w : World) : World := fold_left call cs w.

Definition is_recording (c : Call) : bool :=
  match c with Reset _ => false | _ => true end.

(** The tracker's containers, read through its references. *)
Definition usage (w : World) : list (string * Z) :=
  props_at (heap w) (featureUsage (metrics w)).

Definition usage_count (w : World) (featureId : string) : Z :=
  default 0 (JS.get (usage w) featureId).

Definition analyses (w : World) : list AnalysisEntry :=
  analysis_at (heap w) (analysisHistory (metrics w)).

Definition fixes (w : World) : list FixEntry :=
  fixes_at (heap w) (fixHistory (metrics w)).

(** *** Callers holding a snapshot

    What a caller can do to the containers of a value returned by
    [getMetrics]. *)
Inductive Mutation :=
| AssignUsage (k : string) (v : Z)        (* snap.featureUsage[k] = v *)
| PushAnalysis (e : AnalysisEntry)        (* snap.analysisHistory.push(e) *)
| PushFix (e : FixEntry).                 (* snap.fixHistory.push(e) *)

Definition mutate (snap : AdoptionMetrics) (mu : Mutation) (w : World) : World :=
  {| heap := match mu with
             | AssignUsage k v => store_prop (heap w) (featureUsage snap) k v
             | PushAnalysis e => push_analysis (heap w) (analysisHistory snap) e
             | PushFix e => push_fix (heap w) (fixHistory snap) e
             end;
     metrics := metrics w |}.

(** *** Sample data

    [now k] is the clock as read by the [k]-th recording call of
    [loadSampleData] and [random k] the result of the [k]-th
    [Math.random()]. *)
Definition sampleFiles : list string :=
  ["app.js"; "components/Header.js"; "styles/main.css"; "utils/api.js"; "index.html"].

Definition sampleFeatures : list string :=
  ["var"; "XMLHttpRequest"; "float"; "function"; "<div>"; "<b><i><u>"; "for-in"].

Definition sample_language (file : string) : string :=
  if JS.endsWith file ".js" then "javascript"
  else if JS.endsWith file ".css" then "css"
  else if JS.endsWith file ".html" then "html"
  else "typescript".

Definition loadSampleData (now : nat -> Date) (random : nat -> Q) (w : World) : World :=
  (* Simulate some analysis history *)
  let w :=
    fold_left
      (fun w indexed =>
         let '(index, file) := indexed in
         recordAnalysis (now index) ("src/" +:+ file)
           (JS.Math_floor (random index * 5)%Q + 1)
           (Some (sample_language file)) w)
      (combine (seq 0 (length sampleFiles)) sampleFiles) w in
  (* Record feature usage *)
  let w :=
    fold_left
      (fun w indexed =>
         let '(index, feature) := indexed in
         let count := JS.Math_floor (random index * 8)%Q + 1 in
         recordFeatureUsage feature (Some count) w)
      (combine (seq (length sampleFiles) (length sampleFeatures)) sampleFeatures) w in
  (* Record some fixes *)
  let w := recordFix (now 5%nat) "let-const" (Some "app.js") w in
  let w := recordFix (now 6%nat) "fetch" (Some "api.js") w in
  let w := recordFix (now 7%nat) "flexbox" (Some "main.css") w in
  w.

End MetricsTracker.

(** ** [src/webviewProvider.ts]: derived views of the metrics *)

Module BaselineWebviewProvider.
Import MetricsTracker.

Record Recommendation := {
  r_id : string;
  r_type : string;
  r_title : string;
  r_description : string;
  r_action : string;
  r_actionable : bool;
  r_impact : string
}.

Definition low_fix_rate (issuesFound fixRate : Z) : Recommendation :=
  {| r_id := "low_fix_rate";
     r_type := "priority";
     r_title := "Apply Available Quick Fixes";
     r_description :=
       "You have " +:+ JS.toString issuesFound +:+ " issues but only "
       +:+ JS.toString fixRate
       +:+ "% fixed. Use VS Code's quick fix actions (Ctrl+.) to modernize your code faster.";
     r_action := "Apply Quick Fixes";
     r_actionable := true;
     r_impact := "High" |}.

Definition high_density (avgIssuesPerFile : Z) : Recommendation :=
  {| r_id := "high_density";
     r_type := "warning";
     r_title := "Focus on High-Impact Files";
     r_description :=
       "Average " +:+ JS.toString avgIssuesPerFile
       +:+ " legacy patterns per file. Prioritize files with the most issues for maximum impact.";
     r_action := "View File Analysis";
     r_actionable := true;
     r_impact := "Medium" |}.

Definition common_pattern (topFeature : FeatureCount) : Recommendation :=
  {| r_id := "common_pattern";
     r_type := "info";
     r_title := "Modernize " +:+ JS.dq +:+ feature topFeature +:+ JS.dq +:+ " Usage";
     r_description :=
       JS.dq +:+ feature topFeature +:+ JS.dq +:+ " appears "
       +:+ JS.toString (count topFeature)
       +:+ " times. This is your biggest modernization opportunity.";
     r_action := "View Alternatives";
     r_actionable := true;
     r_impact := "High" |}.

Definition baseline_adoption : Recommendation :=
  {| r_id := "baseline_adoption";
     r_type := "suggestion";
     r_title := "Adopt More Baseline Features";
     r_description :=
       "850+ web features are widely available (Baseline High). Consider using modern APIs and CSS properties that are safe across all browsers.";
     r_action := "Explore Baseline Features";
     r_actionable := true;
     r_impact := "Medium" |}.

Definition browser_compatibility : Recommendation :=
  {| r_id := "browser_compatibility";
     r_type := "info";
     r_title := "Excellent Browser Support Available";
     r_description :=
       "Chrome (82%), Firefox (77%), Safari (71%), Edge (78%) - Most modern features have strong cross-browser support.";
     r_action := "View Browser Matrix";
     r_actionable := false;
     r_impact := "Low" |}.

(** [recommendations.push(x)] *)
Definition push {A} (l : list A) (x : A) : list A := l ++ [x].

Definition generateRecommendations (w : World) : list Recommendation :=
  let metrics := getMetrics w in
  let recommendations := [] in
  let recommendations :=
    if issuesFound metrics >? 0 then
      let fixRate :=
        JS.Math_round
          (JS.product (JS.quotient (fixesApplied metrics) (issuesFound metrics)) 100) in
      if fixRate <? 50
      then push recommendations (low_fix_rate (issuesFound metrics) fixRate)
      else recommendations
    else recommendations in
  let recommendations :=
    if filesAnalyzed metrics >? 0 then
      let avgIssuesPerFile :=
        JS.Math_round (JS.quotient (issuesFound metrics) (filesAnalyzed metrics)) in
      if avgIssuesPerFile >? 2
      then push recommendations (high_density avgIssuesPerFile)
      else recommendations
    else recommendations in
  let mostUsedFeatures := getMostUsedFeatures w in
  let recommendations :=
    match mostUsedFeatures with
    | topFeature :: _ => push recommendations (common_pattern topFeature)
    | [] => recommendations
    end in
  (* Add baseline-specific recommendations *)
  let recommendations := push recommendations baseline_adoption in
  (* Add browser-specific recommendation *)
  let recommendations := push recommendations browser_compatibility in
  recommendations.

Record TimelinePhase := {
  p_phase : string;
  p_status : string;
  p_progress : Z;
  p_description : string;
  p_duration : string;
  p_priority : string;
  p_tasks : list string
}.

Definition generateTimelineData (w : World) : list TimelinePhase :=
  let metrics := getMetrics w in
  let timeline := [] in
  let completionRate :=
    if issuesFound metrics >? 0
    then JS.Math_round
           (JS.product (JS.quotient (fixesApplied metrics) (issuesFound metrics)) 100)
    else 0 in
  let timeline := push timeline
    {| p_phase := "Assessment";
       p_status := if filesAnalyzed metrics >? 0 then "completed" else "pending";
       p_progress := if filesAnalyzed metrics >? 0 then 100 else 0;
       p_description :=
         "Analyzed " +:+ JS.toString (filesAnalyzed metrics)
         +:+ " files and identified " +:+ JS.toString (issuesFound metrics)
         +:+ " modernization opportunities";
       p_duration := "1-2 days";
       p_priority := "high";
       p_tasks := [ "Scan codebase for legacy patterns";
                    "Identify browser compatibility gaps";
                    "Catalog modernization opportunities";
                    "Generate baseline compatibility report" ] |} in
  let timeline := push timeline
    {| p_phase := "Planning";
       p_status := if issuesFound metrics >? 0 then "completed" else "pending";
       p_progress := if issuesFound metrics >? 0 then 100 else 0;
       p_description :=
         "Prioritized " +:+ JS.toString (issuesFound metrics)
         +:+ " issues by impact and Baseline availability";
       p_duration := "2-3 days";
       p_priority := "high";
       p_tasks := [ "Prioritize issues by impact";
                    "Research modern alternatives";
                    "Plan migration strategy";
                    "Set up testing framework" ] |} in
  let timeline := push timeline
    {| p_phase := "Implementation";
       p_status := if completionRate >? 0
                   then (if completionRate >=? 100 then "completed" else "in-progress")
                   else "pending";
       p_progress := completionRate;
       p_description :=
         "Applied " +:+ JS.toString (fixesApplied metrics) +:+ " of "
         +:+ JS.toString (issuesFound metrics) +:+ " modernizations ("
         +:+ JS.toString completionRate +:+ "% complete)";
       p_duration := "1-2 weeks";
       p_priority := "medium";
       p_tasks := [ "Replace var with let/const";
                    "Migrate XMLHttpRequest to Fetch";
                    "Convert float layouts to Flexbox";
                    "Update semantic HTML structure" ] |} in
  let timeline := push timeline
    {| p_phase := "Testing";
       p_status := if completionRate >=? 80 then "in-progress" else "pending";
       p_progress := if completionRate >=? 80 then 60 else 0;
       p_description := "Cross-browser testing and performance validation";
       p_duration := "3-5 days";
       p_priority := "high";
       p_tasks := [ "Test across target browsers";
                    "Validate performance improvements";
                    "Check accessibility compliance";
                    "Verify responsive behavior" ] |} in
  let timeline := push timeline
    {| p_phase := "Deployment";
       p_status := if completionRate >=? 100 then "ready" else "pending";
       p_progress := if completionRate >=? 100 then 100 else 0;
       p_description := "Production deployment and monitoring";
       p_duration := "1-2 days";
       p_priority := "low";
       p_tasks := [ "Deploy to staging environment";
                    "Run automated tests";
                    "Monitor performance metrics";
                    "Deploy to production" ] |} in
  timeline.

(** The calls that [loadSampleData] of the dashboard makes on the tracker;
    the [updateDashboard] that follows only reads it.  [now k] is the
    clock as read by the [k]-th call that reads it. *)
Definition loadSampleData (now : nat -> Date) (w : World) : World :=
  (* Add sample analysis data for demonstration *)
  let w := recordAnalysis (now 0%nat) "src/app.js" 3 None w in
  let w := recordFeatureUsage "var" None w in
  let w := recordFeatureUsage "XMLHttpRequest" None w in
  let w := recordFeatureUsage "float" None w in
  let w := recordFeatureUsage "var" None w in
  let w := recordFeatureUsage "function" None w in
  let w := recordFeatureUsage "float" None w in
  let w := recordAnalysis (now 1%nat) "src/styles.css" 2 None w in
  let w := recordFeatureUsage "<div>" None w in
  let w := recordFeatureUsage "<b><i><u>" None w in
  (* Record some fixes *)
  let w := recordFix (now 2%nat) "let-const" None w in
  let w := recordFix (now 3%nat) "fetch" None w in
  w.

(** [show]: an existing panel is only revealed; otherwise the panel is
    created and the sample data is loaded.  The result tells that the panel
    exists. *)
Definition show (now : nat -> Date) (panel : bool) (w : World) : bool * World :=
  if panel then (panel, w)
  else
    let panel := true in
    (* Initial data load with sample data *)
    (panel, loadSampleData now w).

End BaselineWebviewProvider.

(** ** [BaselineService]: the catalog of modern alternatives *)

Module BaselineService.

Inductive BaselineStatus := high | low | unavailable.

Record ModernAlternative := {
  feature : string;
  replacement : string;
  description : string;
  example : string;
  baselineStatus : BaselineStatus;
  browserSupport : list (string * string);
  migrationGuide : option string;
  benefits : option (list string);
  caveats : option (list string)
}.

(** A [Map<string, V>]: entries in insertion order, keys distinct. *)
Definition Map (V : Type) := list (string * V).

Definition Map_get {V} (m : Map V) (k : string) : option V := JS.get m k.

Definition Map_set {V} (m : Map V) (k : string) (v : V) : Map V := JS.set m k v.

Definition support (chrome firefox safari edge : string) : list (string * string) :=
  [("chrome", chrome); ("firefox", firefox); ("safari", safari); ("edge", edge)].

Definition initializeModernAlternatives (modernAlternatives : Map (list ModernAlternative))
  : Map (list ModernAlternative) :=
  let m := modernAlternatives in
  let m := Map_set m "var" [
    {| feature := "let-const";
       replacement := "let/const";
       description := "Use let for variables that change, const for constants. Better scoping than var.";
       example := "const API_URL = " +:+ JS.dq +:+ "https://api.example.com" +:+ JS.dq
                  +:+ "; let userCount = 0;";
       baselineStatus := high;
       browserSupport := support "49" "36" "10" "12";
       migrationGuide := Some "Replace var with const for values that don't change, let for variables";
       benefits := Some ["Block scoping"; "Temporal dead zone"; "No hoisting confusion";
                         "Prevent accidental reassignment"];
       caveats := Some ["const requires initialization"; "Different hoisting behavior"] |} ] in
  let m := Map_set m "XMLHttpRequest" [
    {| feature := "fetch";
       replacement := "Fetch API";
       description := "Modern promise-based HTTP client with better error handling and cleaner syntax";
       example := "fetch(" +:+ JS.dq +:+ "/api/users" +:+ JS.dq
                  +:+ ").then(response => response.json()).then(users => console.log(users))";
       baselineStatus := high;
       browserSupport := support "42" "39" "10.1" "14";
       migrationGuide := Some "Replace XMLHttpRequest with fetch(), handle promises instead of callbacks";
       benefits := Some ["Promise-based"; "Cleaner syntax"; "Better error handling";
                         "Streaming support"];
       caveats := Some ["Different error handling"; "No automatic request/response timeout";
                        "CORS restrictions"] |} ] in
  let m := Map_set m "float" [
    {| feature := "flexbox";
       replacement := "CSS Flexbox";
       description := "Modern layout method for one-dimensional layouts with flexible items";
       example := ".container { display: flex; justify-content: space-between; align-items: center; }";
       baselineStatus := high;
       browserSupport := support "29" "28" "9" "12";
       migrationGuide := Some "Replace float-based layouts with flex containers";
       benefits := Some ["No clearfix needed"; "Better alignment"; "Responsive by default";
                         "Flexible spacing"];
       caveats := Some ["One-dimensional layout"; "Different mental model"; "IE10 has bugs"] |};
    {| feature := "grid";
       replacement := "CSS Grid";
       description := "Two-dimensional layout system for complex grid-based designs";
       example := ".grid { display: grid; grid-template-columns: repeat(auto-fit, minmax(250px, 1fr)); gap: 20px; }";
       baselineStatus := high;
       browserSupport := support "57" "52" "10.1" "16";
       migrationGuide := Some "Use Grid for two-dimensional layouts, combine with flexbox";
       benefits := Some ["Two-dimensional control"; "Responsive grids"; "Powerful alignment";
                         "No framework needed"];
       caveats := Some ["Overkill for simple layouts"; "IE11 has old implementation"] |} ] in
  let m := Map_set m "function" [
    {| feature := "arrow-functions";
       replacement := "Arrow Functions";
       description := "Concise function syntax with lexical this binding, perfect for callbacks";
       example := "const users = data.map(item => ({ id: item.id, name: item.name }));";
       baselineStatus := high;
       browserSupport := support "45" "22" "10" "12";
       migrationGuide := Some "Replace function expressions with arrow functions, keep function declarations";
       benefits := Some ["Shorter syntax"; "Lexical this binding"; "No arguments object";
                         "Cannot be used as constructors"];
       caveats := Some ["No this binding"; "Cannot be hoisted"; "No arguments object"] |} ] in
  let m := Map_set m "<div>" [
    {| feature := "semantic-elements";
       replacement := "Semantic HTML5 Elements";
       description := "Use meaningful HTML elements that describe content structure and purpose";
       example := "<header>, <nav>, <main>, <section>, <article>, <aside>, <footer>";
       baselineStatus := high;
       browserSupport := support "5" "4" "4.1" "12";
       migrationGuide := Some "Replace generic divs with appropriate semantic elements based on content";
       benefits := Some ["Better SEO"; "Improved accessibility"; "Clearer document structure";
                         "Screen reader support"];
       caveats := Some ["CSS selectors may need updates"; "Different default styling"] |} ] in
  let m := Map_set m "<b><i><u>" [
    {| feature := "semantic-formatting";
       replacement := "Semantic Text Elements";
       description := "Use elements that convey meaning, not just appearance";
       example := "<strong> for importance, <em> for emphasis, <mark> for highlighting";
       baselineStatus := high;
       browserSupport := support "1" "1" "1" "12";
       migrationGuide := Some "Replace presentational elements with semantic alternatives";
       benefits := Some ["Better semantics"; "Accessibility improvements"; "Future-proof markup"];
       caveats := Some ["Default styling may differ"; "CSS updates needed"] |} ] in
  m.

(** The field [this.modernAlternatives] after the constructor has run. *)
Definition modernAlternatives : Map (list ModernAlternative) :=
  initializeModernAlternatives [].

Definition getModernAlternatives (this_modernAlternatives : Map (list ModernAlternative))
    (legacyPattern : string) : list ModernAlternative :=
  match Map_get this_modernAlternatives legacyPattern with
  | Some exactMatch => exactMatch
  | None =>
      (* Check for partial matches *)
      fold_left
        (fun partialMatches entry =>
           let '(pattern, alternatives) := entry in
           if JS.includes legacyPattern pattern || JS.includes pattern legacyPattern
           then partialMatches ++ alternatives
           else partialMatches)
        this_modernAlternatives []
  end.

(** *** The feature catalog *)

Inductive SupportStatus := supported | partial | unsupported.

Record BrowserSupport := {
  d_version : string;
  d_status : SupportStatus;
  d_since : option string
}.

Record BrowserSupportDetails := {
  chrome : BrowserSupport;
  firefox : BrowserSupport;
  safari : BrowserSupport;
  edge : BrowserSupport
}.

(** [status.baseline] is ['high'], ['low'], [false] or [undefined]. *)
Record FeatureStatus := {
  st_baseline : option BaselineStatus;
  st_baseline_high_date : option string;
  st_baseline_low_date : option string;
  st_support : list (string * string)
}.

Record BaselineFeatureInfo := {
  fi_id : string;
  fi_name : string;
  fi_description : string;
  fi_group : string;
  fi_status : FeatureStatus;
  fi_spec : option string;
  fi_caniuse : option string;
  fi_compat_features : list string;
  fi_browserDetails : option BrowserSupportDetails;
  fi_category : string
}.

(** The value assigned to [this.sampleFeatures] by [initializeFeatures]. *)
Definition sampleFeatures : list BaselineFeatureInfo := [
  {| fi_id := "flexbox";
     fi_name := "CSS Flexbox";
     fi_description := "A layout method for arranging items in rows or columns with flexible sizing";
     fi_group := "css-layout";
     fi_status :=
       {| st_baseline := Some high;
          st_baseline_high_date := Some "2017-03-01";
          st_baseline_low_date := None;
          st_support := support "29" "28" "9" "12" |};
     fi_spec := None;
     fi_caniuse := None;
     fi_compat_features := ["css.properties.display.flex"; "css.properties.flex-direction"];
     fi_browserDetails :=
       Some {| chrome := {| d_version := "29"; d_status := supported; d_since := Some "2013-08" |};
               firefox := {| d_version := "28"; d_status := supported; d_since := Some "2014-03" |};
               safari := {| d_version := "9"; d_status := supported; d_since := Some "2015-09" |};
               edge := {| d_version := "12"; d_status := supported; d_since := Some "2015-07" |} |};
     fi_category := "CSS" |};
  {| fi_id := "fetch";
     fi_name := "Fetch API";
     fi_description := "Modern promise-based API for making HTTP requests";
     fi_group := "web-api";
     fi_status :=
       {| st_baseline := Some high;
          st_baseline_high_date := Some "2017-04-01";
          st_baseline_low_date := None;
          st_support := support "42" "39" "10.1" "14" |};
     fi_spec := None;
     fi_caniuse := None;
     fi_compat_features := ["api.fetch"; "api.Request"; "api.Response"];
     fi_browserDetails :=
       Some {| chrome := {| d_version := "42"; d_status := supported; d_since := Some "2015-04" |};
               firefox := {| d_version := "39"; d_status := supported; d_since := Some "2015-06" |};
               safari := {| d_version := "10.1"; d_status := supported; d_since := Some "2017-03" |};
               edge := {| d_version := "14"; d_status := supported; d_since := Some "2016-08" |} |};
     fi_category := "JavaScript" |};
  {| fi_id := "let-const";
     fi_name := "let and const declarations";
     fi_description := "Block-scoped variable declarations with let and const keywords";
     fi_group := "javascript-syntax";
     fi_status :=
       {| st_baseline := Some high;
          st_baseline_high_date := Some "2016-07-01";
          st_baseline_low_date := None;
          st_support := support "49" "36" "10" "12" |};
     fi_spec := None;
     fi_caniuse := None;
     fi_compat_features := ["javascript.statements.let"; "javascript.statements.const"];
     fi_browserDetails :=
       Some {| chrome := {| d_version := "49"; d_status := supported; d_since := Some "2016-03" |};
               firefox := {| d_version := "36"; d_status := supported; d_since := Some "2015-02" |};
               safari := {| d_version := "10"; d_status := supported; d_since := Some "2016-09" |};
               edge := {| d_version := "12"; d_status := supported; d_since := Some "2015-07" |} |};
     fi_category := "JavaScript" |};
  {| fi_id := "grid";
     fi_name := "CSS Grid Layout";
     fi_description := "Two-dimensional layout system for complex grid-based designs";
     fi_group := "css-layout";
     fi_status :=
       {| st_baseline := Some high;
          st_baseline_high_date := Some "2020-01-01";
          st_baseline_low_date := None;
          st_support := support "57" "52" "10.1" "16" |};
     fi_spec := None;
     fi_caniuse := None;
     fi_compat_features := ["css.properties.display.grid"; "css.properties.grid-template-columns"];
     fi_browserDetails :=
       Some {| chrome := {| d_version := "57"; d_status := supported; d_since := Some "2017-03" |};
               firefox := {| d_version := "52"; d_status := supported; d_since := Some "2017-03" |};
               safari := {| d_version := "10.1"; d_status := supported; d_since := Some "2017-03" |};
               edge := {| d_version := "16"; d_status := supported; d_since := Some "2017-10" |} |};
     fi_category := "CSS" |};
  {| fi_id := "arrow-functions";
     fi_name := "Arrow Functions";
     fi_description := "Concise function syntax with lexical this binding";
     fi_group := "javascript-syntax";
     fi_status :=
       {| st_baseline := Some high;
          st_baseline_high_date := Some "2016-07-01";
          st_baseline_low_date := None;
          st_support := support "45" "22" "10" "12" |};
     fi_spec := None;
     fi_caniuse := None;
     fi_compat_features := ["javascript.functions.arrow_functions"];
     fi_browserDetails :=
       Some {| chrome := {| d_version := "45"; d_status := supported; d_since := Some "2015-09" |};
               firefox := {| d_version := "22"; d_status := supported; d_since := Some "2013-06" |};
               safari := {| d_version := "10"; d_status := supported; d_since := Some "2016-09" |};
               edge := {| d_version := "12"; d_status := supported; d_since := Some "2015-07" |} |};
     fi_category := "JavaScript" |};
  {| fi_id := "semantic-elements";
     fi_name := "HTML5 Semantic Elements";
     fi_description := "Meaningful HTML elements like header, nav, main, section, article, aside, footer";
     fi_group := "html-elements";
     fi_status :=
       {| st_baseline := Some high;
          st_baseline_high_date := Some "2014-01-01";
          st_baseline_low_date := None;
          st_support := support "5" "4" "4.1" "12" |};
     fi_spec := None;
     fi_caniuse := None;
     fi_compat_features := ["html.elements.header"; "html.elements.nav"; "html.elements.main"];
     fi_browserDetails :=
       Some {| chrome := {| d_version := "5"; d_status := supported; d_since := Some "2010-05" |};
               firefox := {| d_version := "4"; d_status := supported; d_since := Some "2011-03" |};
               safari := {| d_version := "4.1"; d_status := supported; d_since := Some "2010-06" |};
               edge := {| d_version := "12"; d_status := supported; d_since := Some "2015-07" |} |};
     fi_category := "HTML" |};
  {| fi_id := "custom-properties";
     fi_name := "CSS Custom Properties (Variables)";
     fi_description := "CSS variables for creating reusable values throughout stylesheets";
     fi_group := "css-syntax";
     fi_status :=
       {| st_baseline := Some high;
          st_baseline_high_date := Some "2018-04-01";
          st_baseline_low_date := None;
          st_support := support "49" "31" "9.1" "16" |};
     fi_spec := None;
     fi_caniuse := None;
     fi_compat_features := ["css.properties.custom-property"];
     fi_browserDetails :=
       Some {| chrome := {| d_version := "49"; d_status := supported; d_since := Some "2016-03" |};
               firefox := {| d_version := "31"; d_status := supported; d_since := Some "2014-07" |};
               safari := {| d_version := "9.1"; d_status := supported; d_since := Some "2016-03" |};
               edge := {| d_version := "16"; d_status := supported; d_since := Some "2017-10" |} |};
     fi_category := "CSS" |};
  {| fi_id := "template-literals";
     fi_name := "Template Literals";
     fi_description := "Enhanced string literals with embedded expressions using backticks";
     fi_group := "javascript-syntax";
     fi_status :=
       {| st_baseline := Some high;
          st_baseline_high_date := Some "2016-07-01";
          st_baseline_low_date := None;
          st_support := support "41" "34" "9" "12" |};
     fi_spec := None;
     fi_caniuse := None;
     fi_compat_features := ["javascript.grammar.template_literals"];
     fi_browserDetails :=
       Some {| chrome := {| d_version := "41"; d_status := supported; d_since := Some "2015-03" |};
               firefox := {| d_version := "34"; d_status := supported; d_since := Some "2014-12" |};
               safari := {| d_version := "9"; d_status := supported; d_since := Some "2015-09" |};
               edge := {| d_version := "12"; d_status := supported; d_since := Some "2015-07" |} |};
     fi_category := "JavaScript" |};
  {| fi_id := "object-spread";
     fi_name := "Object Spread Syntax";
     fi_description := "Spread properties in object literals for easy object composition";
     fi_group := "javascript-syntax";
     fi_status :=
       {| st_baseline := Some low;
          st_baseline_high_date := None;
          st_baseline_low_date := Some "2024-03-01";
          st_support := support "60" "55" "11.1" "79" |};
     fi_spec := None;
     fi_caniuse := None;
     fi_compat_features := ["javascript.operators.spread.spread_in_object_literals"];
     fi_browserDetails :=
       Some {| chrome := {| d_version := "60"; d_status := supported; d_since := Some "2017-07" |};
               firefox := {| d_version := "55"; d_status := supported; d_since := Some "2017-08" |};
               safari := {| d_version := "11.1"; d_status := supported; d_since := Some "2018-03" |};
               edge := {| d_version := "79"; d_status := supported; d_since := Some "2020-01" |} |};
     fi_category := "JavaScript" |};
  {| fi_id := "container-queries";
     fi_name := "CSS Container Queries";
     fi_description := "Style elements based on the size of their containing element";
     fi_group := "css-layout";
     fi_status :=
       {| st_baseline := Some low;
          st_baseline_high_date := None;
          st_baseline_low_date := Some "2024-02-01";
          st_support := support "105" "110" "16" "105" |};
     fi_spec := None;
     fi_caniuse := None;
     fi_compat_features := ["css.at-rules.container"; "css.properties.container-type"];
     fi_browserDetails :=
       Some {| chrome := {| d_version := "105"; d_status := supported; d_since := Some "2022-08" |};
               firefox := {| d_version := "110"; d_status := supported; d_since := Some "2023-02" |};
               safari := {| d_version := "16"; d_status := supported; d_since := Some "2022-09" |};
               edge := {| d_version := "105"; d_status := supported; d_since := Some "2022-08" |} |};
     fi_category := "CSS" |}
].

(** Populate features map *)
Definition populate (featuresMap : Map BaselineFeatureInfo)
    (features : list BaselineFeatureInfo) : Map BaselineFeatureInfo :=
  fold_left (fun m feature => Map_set m (fi_id feature) feature) features featuresMap.

(** The field [this.featuresMap] after the constructor has run. *)
Definition featuresMap : Map BaselineFeatureInfo := populate [] sampleFeatures.

Definition getAllFeatures (this_sampleFeatures : list BaselineFeatureInfo)
  : list BaselineFeatureInfo := this_sampleFeatures.

Definition BaselineStatus_eqb (a b : BaselineStatus) : bool :=
  match a, b with
  | high, high | low, low | unavailable, unavailable => true
  | _, _ => false
  end.

(** [feature.status.baseline === status] for a status that is defined. *)
Definition has_status (status : BaselineStatus) (feature : BaselineFeatureInfo) : bool :=
  match st_baseline (fi_status feature) with
  | Some b => BaselineStatus_eqb b status
  | None => false
  end.

Definition getBaselineFeatures (this_sampleFeatures : list BaselineFeatureInfo)
    (status : BaselineStatus) : list BaselineFeatureInfo :=
  List.filter (has_status status) this_sampleFeatures.

Definition getFeatureInfo (this_featuresMap : Map BaselineFeatureInfo)
    (this_sampleFeatures : list BaselineFeatureInfo) (featureId : string)
  : option BaselineFeatureInfo :=
  match Map_get this_featuresMap featureId with
  | Some f => Some f
  | None =>
      JS.find
        (fun f => JS.includes (JS.toLowerCase (fi_name f)) (JS.toLowerCase featureId))
        this_sampleFeatures
  end.

Definition getBrowserSupport (this_featuresMap : Map BaselineFeatureInfo)
    (this_sampleFeatures : list BaselineFeatureInfo) (featureId : string)
  : list (string * string) :=
  let feature := getFeatureInfo this_featuresMap this_sampleFeatures featureId in
  match feature with
  | Some f => st_support (fi_status f)
  | None => []
  end.

Definition searchFeatures (this_sampleFeatures : list BaselineFeatureInfo)
    (query : string) : list BaselineFeatureInfo :=
  let lowerQuery := JS.toLowerCase query in
  List.filter
    (fun feature =>
       JS.includes (JS.toLowerCase (fi_name feature)) lowerQuery
       || JS.includes (JS.toLowerCase (fi_description feature)) lowerQuery
       || JS.includes (JS.toLowerCase (fi_id feature)) lowerQuery
       || JS.includes (JS.toLowerCase (fi_category feature)) lowerQuery)
    this_sampleFeatures.

(** [interface AnalysisResult]. *)
Record Location := {
  loc_line : Z;
  loc_column : Z;
  loc_suggestion : string
}.

Record PatternCount := {
  pc_pattern : string;
  pc_count : Z;
  pc_locations : list Location
}.

Record AnalysisResult := {
  ar_fileName : string;
  ar_language : string;
  ar_issuesFound : Z;
  ar_patterns : list PatternCount;
  ar_recommendations : list ModernAlternative;
  ar_baselineScore : Z
}.

Definition calculateBaselineScore (analysisResult : AnalysisResult) : Z :=
  let totalPatterns :=
    fold_left (fun sum pattern => sum + pc_count pattern) (ar_patterns analysisResult) 0 in
  if totalPatterns =? 0 then 100
  else
    let modernPatterns :=
      List.filter (fun rec => BaselineStatus_eqb (baselineStatus rec) high)
        (ar_recommendations analysisResult) in
    let modernCount := Z.of_nat (length modernPatterns) in
    JS.Math_round (inject_Z (JS.Math_max 0 (100 - (totalPatterns - modernCount) * 10))).

End BaselineService.

(** ** [extension.ts]: activation *)

Module Extension.
Import MetricsTracker.

(** The tracker that [activate] creates and fills. *)
Definition activate (h : Heap) (start : Date) (now : nat -> Date) (random : nat -> Q)
  : World :=
  (* Initialize services *)
  let metricsTracker := constructor h start in
  (* Load sample data immediately for demonstration *)
  loadSampleData now random metricsTracker.

(** The command [analyzeFile]: [activeEditor] gives the file name and the
    language identifier of the open document, if there is one.  [random k]
    is the result of the [k]-th call of [Math.random()]. *)
Definition analyzeFile (now : Date) (random : nat -> Q)
    (activeEditor : option (string * string)) (w : World) : World :=
  match activeEditor with
  | None => w
  | Some (fileName, languageId) =>
      (* Simulate analysis with sample data *)
      let issuesCount := JS.Math_floor (random 0%nat * 8)%Q + 1 in
      let w := recordAnalysis now fileName issuesCount (Some languageId) w in
      (* Record some feature usage *)
      let sampleFeatures := ["var"; "XMLHttpRequest"; "float"; "function"] in
      let randomFeature :=
        JS.at_index sampleFeatures
          (JS.Math_floor (random 1%nat * inject_Z (Z.of_nat (length sampleFeatures)))%Q) in
      recordFeatureUsage (default "undefined" randomFeature) None w
  end.

(** One turn of the loop of the command [analyzeProject]. *)
Definition analyzeProjectFile (now : Date) (random : nat -> Q) (file : string)
    (w : World) : World :=
  let issuesCount := JS.Math_floor (random 0%nat * 5)%Q + 1 in
  let w := recordAnalysis now file issuesCount (Some (sample_language file)) w in
  (* Add some random feature usage *)
  let features := ["var"; "XMLHttpRequest"; "float"; "function"; "<div>"; "<b><i><u>"] in
  fold_left
    (fun w indexed =>
       let '(index, feature) := indexed in
       if JS.gt (random (S index)) (1 # 2) then recordFeatureUsage feature None w else w)
    (combine (seq 0 (length features)) features) w.

(** The command [analyzeProject], when no other command runs between the
    turns of its loop.  [now i] and [random i] are the clock and the
    random numbers of the [i]-th turn. *)
Definition analyzeProject (workspaceFolders : bool) (now : nat -> Date)
    (random : nat -> nat -> Q) (w : World) : World :=
  if negb workspaceFolders then w
  else
    (* Simulate project analysis *)
    let files := ["app.js"; "components/Header.js"; "styles/main.css"; "utils/api.js";
                  "index.html"] in
    fold_left
      (fun w indexed =>
         let '(i, file) := indexed in analyzeProjectFile (now i) (random i) file w)
      (combine (seq 0 (length files)) files) w.

End Extension.

(** ** [src/webviewProvider.ts]: statistics of the catalog *)

Module Dashboard.
Import BaselineService.

Record BaselineFeatureStats := {
  total : Z;
  widely_available : Z;
  newly_available : Z;
  limited_availability : Z;
  adoption_percentage : Z
}.

Definition getBaselineFeatureStats (this_sampleFeatures : list BaselineFeatureInfo)
  : BaselineFeatureStats :=
  let allFeatures := getAllFeatures this_sampleFeatures in
  let highFeatures := getBaselineFeatures this_sampleFeatures high in
  let lowFeatures := getBaselineFeatures this_sampleFeatures low in
  let limitedFeatures := getBaselineFeatures this_sampleFeatures unavailable in
  {| total := JS.Math_max (Z.of_nat (length allFeatures)) 1200;
     widely_available := JS.Math_max (Z.of_nat (length highFeatures)) 850;
     newly_available := JS.Math_max (Z.of_nat (length lowFeatures)) 250;
     limited_availability := JS.Math_max (Z.of_nat (length limitedFeatures)) 100;
     adoption_percentage := JS.Math_round (JS.product (JS.quotient 850 1200) 100) |}.

(** The message that [sendFeatureDetails] posts to the panel, if any. *)
Record FeatureDetails := {
  fd_feature : BaselineFeatureInfo;
  fd_browserSupport : list (string * string);
  fd_alternatives : list ModernAlternative
}.

Definition sendFeatureDetails (panel : bool)
    (this_featuresMap : Map BaselineFeatureInfo)
    (this_sampleFeatures : list BaselineFeatureInfo)
    (this_modernAlternatives : Map (list ModernAlternative))
    (featureId : string) : option FeatureDetails :=
  if negb panel then None
  else
    let feature := getFeatureInfo this_featuresMap this_sampleFeatures featureId in
    match feature with
    | Some feature =>
        Some {| fd_feature := feature;
                fd_browserSupport :=
                  getBrowserSupport this_featuresMap this_sampleFeatures featureId;
                fd_alternatives :=
                  getModernAlternatives this_modernAlternatives featureId |}
    | None => None
    end.

End Dashboard.

(** ** Notions used to state the properties *)

Module Spec.
Import MetricsTracker.

(** [needle] occurs in [hay]. *)
Definition occurs_in (needle hay : string) : Prop :=
  exists pre post, hay = pre +:+ needle +:+ post.

(** [a] occurs at an earlier position than [b]. *)
Definition before {A} (l : list A) (a b : A) : Prop :=
  exists l1 l2 l3, l = l1 ++ a :: l2 ++ b :: l3.

(** Typing of the heap: what kind of object a reference names. *)
Inductive Kind := KRecord | KAnalysis | KFix.

Definition kind (o : Obj) : Kind :=
  match o with
  | ObjRecord _ => KRecord
  | ArrAnalysis _ => KAnalysis
  | ArrFix _ => KFix
  end.

(** The tracker's three references name objects of the declared types. *)
Definition well_formed (w : World) : Prop :=
  kind <$> heap w !! featureUsage (metrics w) = Some KRecord
  /\ kind <$> heap w !! analysisHistory (metrics w) = Some KAnalysis
  /\ kind <$> heap w !! fixHistory (metrics w) = Some KFix.

Definition sum_issues (l : list AnalysisEntry) : Z :=
  foldr (fun e acc => a_issuesCount e + acc) 0 l.

(** Counters agree with the histories. *)
Definition coherent (w : World) : Prop :=
  filesAnalyzed (metrics w) = Z.of_nat (length (analyses w))
  /\ fixesApplied (metrics w) = Z.of_nat (length (fixes w))
  /\ issuesFound (metrics w) = sum_issues (analyses w).

(** The state of the tracker by value: the metrics with the three
    containers read through their references. *)
Record State := {
  s_filesAnalyzed : Z;
  s_issuesFound : Z;
  s_fixesApplied : Z;
  s_featureUsage : list (string * Z);
  s_modernizationProgress : Z;
  s_lastAnalysis : Date;
  s_sessionStartTime : Date;
  s_analysisHistory : list AnalysisEntry;
  s_fixHistory : list FixEntry
}.

Definition state (w : World) : State :=
  {| s_filesAnalyzed := filesAnalyzed (metrics w);
     s_issuesFound := issuesFound (metrics w);
     s_fixesApplied := fixesApplied (metrics w);
     s_featureUsage := usage w;
     s_modernizationProgress := modernizationProgress (metrics w);
     s_lastAnalysis := lastAnalysis (metrics w);
     s_sessionStartTime := sessionStartTime (metrics w);
     s_analysisHistory := analyses w;
     s_fixHistory := fixes w |}.

(** The zero state of a tracker built at time [now]. *)
Definition zero_state (now : Date) : State :=
  {| s_filesAnalyzed := 0;
     s_issuesFound := 0;
     s_fixesApplied := 0;
     s_featureUsage := [];
     s_modernizationProgress := 0;
     s_lastAnalysis := now;
     s_sessionStartTime := now;
     s_analysisHistory := [];
     s_fixHistory := [] |}.

Definition clamp (lo hi x : Z) : Z := Z.max lo (Z.min x hi).

(** The rounded fix percentage, as the program computes it:
    [Math.round((fixes / issues) * 100)] on binary64 numbers. *)
Definition percent (fixes issues : Z) : Z :=
  JS.Math_round (JS.product (JS.quotient fixes issues) 100).

(** The same percentage without the rounding of the quotient and of the
    product, to compare with. *)
Definition exact_percent (fixes issues : Z) : Z :=
  JS.Math_round (JS.div fixes issues * 100)%Q.

(** The same quotient and product on the binary64 numbers of the Standard
    Library ([SpecFloat], precision 53, maximal exponent 1024), and the
    rational that the result denotes. *)
Definition binary64_of_Z (n : Z) : SpecFloat.spec_float :=
  SpecFloat.binary_normalize 53 1024 n 0 false.

Definition binary64_value (x : SpecFloat.spec_float) : option Q :=
  match x with
  | SpecFloat.S754_zero _ => Some 0%Q
  | SpecFloat.S754_finite s m e =>
      Some ((if s then -1 else 1) * inject_Z (Zpos m) * 2 ^ e)%Q
  | _ => None
  end.

Definition binary64_percent (fixes issues : Z) : option Q :=
  binary64_value
    (SpecFloat.SFmul 53 1024
       (SpecFloat.SFdiv 53 1024 (binary64_of_Z fixes) (binary64_of_Z issues))
       (binary64_of_Z 100)).

Definition same_percent (fixes issues : Z) : bool :=
  match binary64_percent fixes issues with
  | Some q => Qeq_bool q (JS.product (JS.quotient fixes issues) 100)
  | None => false
  end.

(** The integers from [0] up to [n - 1]. *)
Definition counters (n : nat) : list Z := map Z.of_nat (seq 0 n).

(** The closed form of the progress: [100] when files were analysed and no
    issue was found, else [0] when no file was analysed, else the rounded
    fix percentage clamped to [0, 100]. *)
Definition progress_formula (m : AdoptionMetrics) : Z :=
  if (filesAnalyzed m >? 0) && (issuesFound m =? 0) then 100
  else if filesAnalyzed m =? 0 then 0
  else clamp 0 100 (percent (fixesApplied m) (issuesFound m)).

(** The progress that [updateModernizationProgress] computes. *)
Definition recomputed (m : AdoptionMetrics) : Z :=
  modernizationProgress (updateModernizationProgress m).

(** The stored progress is always the one computed from the counters. *)
Definition up_to_date (w : World) : Prop :=
  modernizationProgress (metrics w) = recomputed (metrics w).

(** With valid calls the counters are counts, and issues need files. *)
Definition counts (w : World) : Prop :=
  0 <= filesAnalyzed (metrics w)
  /\ 0 <= issuesFound (metrics w)
  /\ 0 <= fixesApplied (metrics w)
  /\ (filesAnalyzed (metrics w) = 0 -> issuesFound (metrics w) = 0).

(** [completionRate] of the timeline. *)
Definition completionRate (m : AdoptionMetrics) : Z :=
  if issuesFound m >? 0 then percent (fixesApplied m) (issuesFound m) else 0.

(** The rounded average number of issues per file. *)
Definition average (m : AdoptionMetrics) : Z :=
  JS.Math_round (JS.quotient (issuesFound m) (filesAnalyzed m)).

(** The description of a phase shows the current value of at least one of
    the four counters. *)
Definition embeds_a_counter (m : AdoptionMetrics) (description : string) : Prop :=
  occurs_in (JS.toString (filesAnalyzed m)) description
  \/ occurs_in (JS.toString (issuesFound m)) description
  \/ occurs_in (JS.toString (fixesApplied m)) description
  \/ occurs_in (JS.toString (completionRate m)) description.

(** A catalog key matches a pattern partially when one occurs in the
    other. *)
Definition partial_match (legacyPattern pattern : string) : Prop :=
  occurs_in pattern legacyPattern \/ occurs_in legacyPattern pattern.

Definition partial_matchb (legacyPattern pattern : string) : bool :=
  JS.includes legacyPattern pattern || JS.includes pattern legacyPattern.

(** The alternatives of the partially matching keys, in catalog order. *)
Definition partial_alternatives {V} (catalog : list (string * list V))
    (legacyPattern : string) : list V :=
  concat (map snd (List.filter (fun e => partial_matchb legacyPattern e.1) catalog)).

(** Calls whose issue count is a count. *)
Definition valid_call (c : Call) : Prop :=
  match c with
  | RecordAnalysis _ _ issuesCount _ => 0 <= issuesCount
  | _ => True
  end.

(** The progress rule read as an equivalence: [100] exactly when files were
    analysed and no issue was found, and otherwise [0] without files and
    the clamped percentage with files. *)
Definition progress_100_exactly_without_issues (m : AdoptionMetrics) : Prop :=
  (modernizationProgress m = 100 <-> filesAnalyzed m > 0 /\ issuesFound m = 0)
  /\ (~ (filesAnalyzed m > 0 /\ issuesFound m = 0) ->
      if filesAnalyzed m =? 0 then modernizationProgress m = 0
      else modernizationProgress m
           = clamp 0 100 (percent (fixesApplied m) (issuesFound m))).

(** The number a call adds to a feature's usage. *)
Definition added_count (c : Call) : Z :=
  match c with
  | RecordFeatureUsage _ count => default 1 count
  | _ => 0
  end.

(** Monotonicity of the usage counts for every recording call, whatever
    count it passes. *)
Definition usage_never_decreases : Prop :=
  forall h now cs c featureId,
    is_recording c = true ->
    usage_count (run cs (constructor h now)) featureId
    <= usage_count (call (run cs (constructor h now)) c) featureId.

(** Feature identifiers of the current session in the order in which
    they were first recorded. *)
Definition note_key (keys : list string) (c : Call) : list string :=
  match c with
  | RecordFeatureUsage featureId _ =>
      if existsb (String.eqb featureId) keys then keys else keys ++ [featureId]
  | Reset _ => []
  | _ => keys
  end.

Definition first_recorded (cs : list Call) : list string :=
  fold_left note_key cs [].

(** A feature identifier under which [featureUsage] keeps a numeric
    count: it is no property name of [Object.prototype]. *)
Definition own_name (featureId : string) : Prop :=
  existsb (String.eqb featureId) JS.Object_prototype_names = false.

Definition entry (e : string * Z) : FeatureCount :=
  {| feature := e.1; count := e.2 |}.

Definition pair_of (a : FeatureCount) : string * Z := (feature a, count a).

(** The tie rule read literally: of two returned pairs with equal counts,
    the earlier one was first recorded earlier. *)
Definition ties_in_first_recorded_order : Prop :=
  forall h now cs a b,
    before (getMostUsedFeatures (run cs (constructor h now))) a b ->
    count a = count b ->
    before (first_recorded cs) (feature a) (feature b).

(** The order in which [Object.entries] lists properties created in the
    order [keys]: array indices in ascending order, then the other keys in
    creation order. *)
Definition property_order (keys : list string) : list string :=
  map fst (JS.Object_entries (map (fun k => (k, tt)) keys)).

(** *** Notions for the histories and the sessions *)

(** The file name kept in a history entry. *)
Definition history_file_name (path : string) : string :=
  JS.or_string (JS.pop (JS.split "/" path)) path.

(** The entries that [recordAnalysis] and [recordFix] push. *)
Definition analysis_entry (now : Date) (filePath : string) (issuesCount : Z)
    (language : option string) : AnalysisEntry :=
  {| a_timestamp := now;
     a_fileName := history_file_name filePath;
     a_issuesCount := issuesCount;
     a_language := default "unknown" language |}.

Definition fix_entry (now : Date) (featureId : string) (fileName : option string)
  : FixEntry :=
  {| f_timestamp := now;
     f_featureId := featureId;
     f_fileName := history_file_name (default "" fileName) |}.

(** [s] contains no slash. *)
Definition no_slash (s : string) : Prop := ~ occurs_in "/" s.

(** The sum of the counts recorded for a feature since the last reset. *)
Definition note_count (featureId : string) (total : Z) (c : Call) : Z :=
  match c with
  | RecordFeatureUsage k count =>
      if String.eqb k featureId then total + default 1 count else total
  | Reset _ => 0
  | _ => total
  end.

Definition recorded_total (cs : list Call) (featureId : string) : Z :=
  fold_left (note_count featureId) cs 0.

(** The features recorded since the last reset, each with the sum of the
    counts recorded for it. *)
Definition recorded_pairs (cs : list Call) : list FeatureCount :=
  map (fun k => {| feature := k; count := recorded_total cs k |}) (first_recorded cs).

(** [l] lists the recorded features by descending count, and those with
    equal counts in the order of [Object.entries]. *)
Definition ranking (cs : list Call) (l : list FeatureCount) : Prop :=
  Permutation l (recorded_pairs cs)
  /\ StronglySorted (fun a b => count a >= count b) l
  /\ (forall a b,
        before l a b -> count a = count b ->
        before (property_order (first_recorded cs)) (feature a) (feature b)).

(** The time of the last reset, and of the last analysis or reset. *)
Definition note_start (start : Date) (c : Call) : Date :=
  match c with Reset now => now | _ => start end.

Definition note_analysis (last : Date) (c : Call) : Date :=
  match c with
  | RecordAnalysis now _ _ _ | Reset now => now
  | _ => last
  end.

(** The tracker's references all lie at or above [n]. *)
Definition refs_from (n : nat) (w : World) : Prop :=
  (n <= featureUsage (metrics w))%nat
  /\ (n <= analysisHistory (metrics w))%nat
  /\ (n <= fixHistory (metrics w))%nat.

(** The tracker's references are allocated. *)
Definition refs_allocated (w : World) : Prop :=
  (featureUsage (metrics w) < length (heap w))%nat
  /\ (analysisHistory (metrics w) < length (heap w))%nat
  /\ (fixHistory (metrics w) < length (heap w))%nat.

(** The heap below [n] is the same in both worlds. *)
Definition same_below (n : nat) (h h' : Heap) : Prop :=
  forall l : nat, (l < n)%nat -> h' !! l = h !! l.

(** The random numbers are results of [Math.random()]. *)
Definition unit_interval (random : nat -> Q) : Prop :=
  forall k, (0 <= random k)%Q /\ (random k < 1)%Q.

(** *** Sessions without reset *)

(** The history entries and the [featureUsage] properties that a sequence
    of calls produces. *)
Definition analysis_entries (cs : list Call) : list AnalysisEntry :=
  flat_map
    (fun c =>
       match c with
       | RecordAnalysis now filePath issuesCount language =>
           [analysis_entry now filePath issuesCount language]
       | _ => []
       end) cs.

Definition fix_entries (cs : list Call) : list FixEntry :=
  flat_map
    (fun c =>
       match c with
       | RecordFix now featureId fileName => [fix_entry now featureId fileName]
       | _ => []
       end) cs.

Definition note_usage (props : list (string * Z)) (c : Call) : list (string * Z) :=
  match c with
  | RecordFeatureUsage featureId count =>
      JS.set props featureId (default 0 (JS.get props featureId) + default 1 count)
  | Reset _ => []
  | _ => props
  end.

(** The calls made by [MetricsTracker.loadSampleData]. *)
Definition sample_issues (random : nat -> Q) (index : nat) : Z :=
  JS.Math_floor (random index * 5)%Q + 1.

Definition sample_count (random : nat -> Q) (index : nat) : Z :=
  JS.Math_floor (random index * 8)%Q + 1.

Definition sample_calls (now : nat -> Date) (random : nat -> Q) : list Call :=
  [ RecordAnalysis (now 0%nat) "src/app.js" (sample_issues random 0) (Some "javascript");
    RecordAnalysis (now 1%nat) "src/components/Header.js" (sample_issues random 1)
      (Some "javascript");
    RecordAnalysis (now 2%nat) "src/styles/main.css" (sample_issues random 2) (Some "css");
    RecordAnalysis (now 3%nat) "src/utils/api.js" (sample_issues random 3)
      (Some "javascript");
    RecordAnalysis (now 4%nat) "src/index.html" (sample_issues random 4) (Some "html");
    RecordFeatureUsage "var" (Some (sample_count random 5));
    RecordFeatureUsage "XMLHttpRequest" (Some (sample_count random 6));
    RecordFeatureUsage "float" (Some (sample_count random 7));
    RecordFeatureUsage "function" (Some (sample_count random 8));
    RecordFeatureUsage "<div>" (Some (sample_count random 9));
    RecordFeatureUsage "<b><i><u>" (Some (sample_count random 10));
    RecordFeatureUsage "for-in" (Some (sample_count random 11));
    RecordFix (now 5%nat) "let-const" (Some "app.js");
    RecordFix (now 6%nat) "fetch" (Some "api.js");
    RecordFix (now 7%nat) "flexbox" (Some "main.css") ].

(** The calls made by [loadSampleData] of the dashboard. *)
Definition dashboard_sample_calls (now : nat -> Date) : list Call :=
  [ RecordAnalysis (now 0%nat) "src/app.js" 3 None;
    RecordFeatureUsage "var" None;
    RecordFeatureUsage "XMLHttpRequest" None;
    RecordFeatureUsage "float" None;
    RecordFeatureUsage "var" None;
    RecordFeatureUsage "function" None;
    RecordFeatureUsage "float" None;
    RecordAnalysis (now 1%nat) "src/styles.css" 2 None;
    RecordFeatureUsage "<div>" None;
    RecordFeatureUsage "<b><i><u>" None;
    RecordFix (now 2%nat) "let-const" None;
    RecordFix (now 3%nat) "fetch" None ].

(** The dashboard loading its sample data once per clock in [clocks]. *)
Definition load_dashboard_samples (clocks : list (nat -> Date)) (w : World) : World :=
  fold_left (fun w now => BaselineWebviewProvider.loadSampleData now w) clocks w.

(** [featureUsage] and the most used features after the dashboard has
    loaded its sample data [n] times into a new tracker. *)
Definition dashboard_usage (n : Z) : list (string * Z) :=
  [ ("var", 2 * n); ("XMLHttpRequest", n); ("float", 2 * n); ("function", n);
    ("<div>", n); ("<b><i><u>", n) ].

Definition dashboard_most_used (n : Z) : list FeatureCount :=
  [ {| feature := "var"; count := 2 * n |};
    {| feature := "float"; count := 2 * n |};
    {| feature := "XMLHttpRequest"; count := n |};
    {| feature := "function"; count := n |};
    {| feature := "<div>"; count := n |};
    {| feature := "<b><i><u>"; count := n |} ].

(** The phase of the timeline with a given name. *)
Definition phase (w : World) (name : string)
  : option BaselineWebviewProvider.TimelinePhase :=
  JS.find (fun p => String.eqb (BaselineWebviewProvider.p_phase p) name)
    (BaselineWebviewProvider.generateTimelineData w).

(** A recommendation of type [priority] is shown. *)
Definition shows_priority (w : World) : Prop :=
  exists r, In r (BaselineWebviewProvider.generateRecommendations w)
            /\ BaselineWebviewProvider.r_type r = "priority".

(** *** Notions for the catalog *)

(** The query occurs in the name of the feature, letter case apart. *)
Definition name_matches (query : string) (f : BaselineService.BaselineFeatureInfo)
  : Prop :=
  occurs_in (JS.toLowerCase query) (JS.toLowerCase (BaselineService.fi_name f)).

(** The query occurs in the name, the description, the identifier or the
    category of the feature, letter case apart. *)
Definition matches (query : string) (f : BaselineService.BaselineFeatureInfo) : Prop :=
  occurs_in (JS.toLowerCase query) (JS.toLowerCase (BaselineService.fi_name f))
  \/ occurs_in (JS.toLowerCase query) (JS.toLowerCase (BaselineService.fi_description f))
  \/ occurs_in (JS.toLowerCase query) (JS.toLowerCase (BaselineService.fi_id f))
  \/ occurs_in (JS.toLowerCase query) (JS.toLowerCase (BaselineService.fi_category f)).

(** Some feature, or no feature, of the catalog has the identifier. *)
Definition has_id (features : list BaselineService.BaselineFeatureInfo)
    (featureId : string) : Prop :=
  exists f, In f features /\ BaselineService.fi_id f = featureId.

Definition no_id (features : list BaselineService.BaselineFeatureInfo)
    (featureId : string) : Prop :=
  forall f, In f features -> BaselineService.fi_id f <> featureId.

(** The features whose [status.baseline] is [undefined]. *)
Definition without_status (features : list BaselineService.BaselineFeatureInfo)
  : list BaselineService.BaselineFeatureInfo :=
  List.filter
    (fun f => match BaselineService.st_baseline (BaselineService.fi_status f) with
              | None => true
              | Some _ => false
              end) features.

(** The number of pattern occurrences of an analysis, and the number of its
    recommendations whose replacement is widely available. *)
Definition total_patterns (analysisResult : BaselineService.AnalysisResult) : Z :=
  foldr (fun pattern sum => BaselineService.pc_count pattern + sum) 0
    (BaselineService.ar_patterns analysisResult).

Definition modern_count (analysisResult : BaselineService.AnalysisResult) : Z :=
  Z.of_nat
    (length
       (List.filter
          (fun rec => BaselineService.BaselineStatus_eqb
                        (BaselineService.baselineStatus rec) BaselineService.high)
          (BaselineService.ar_recommendations analysisResult))).

(** *** The commands of the extension *)

Definition usage_if (b : bool) (feature : string) : list Call :=
  if b then [RecordFeatureUsage feature None] else [].

(** The calls made by one turn of the loop of [analyzeProject]. *)
Definition project_file_calls (now : Date) (random : nat -> Q) (file : string)
  : list Call :=
  RecordAnalysis now file (sample_issues random 0) (Some (sample_language file))
  :: usage_if (JS.gt (random 1%nat) (1 # 2)) "var"
  ++ usage_if (JS.gt (random 2%nat) (1 # 2)) "XMLHttpRequest"
  ++ usage_if (JS.gt (random 3%nat) (1 # 2)) "float"
  ++ usage_if (JS.gt (random 4%nat) (1 # 2)) "function"
  ++ usage_if (JS.gt (random 5%nat) (1 # 2)) "<div>"
  ++ usage_if (JS.gt (random 6%nat) (1 # 2)) "<b><i><u>".

(** The random numbers of every turn are results of [Math.random()]. *)
Definition unit_intervals (random : nat -> nat -> Q) : Prop :=
  forall i, unit_interval (random i).

(** The features that the commands record. *)
Definition file_features : list string := ["var"; "XMLHttpRequest"; "float"; "function"].

Definition project_features : list string :=
  ["var"; "XMLHttpRequest"; "float"; "function"; "<div>"; "<b><i><u>"].

End Spec.

(** ** Binary64 rounding *)

Module NumberFacts.

Lemma pow2_pos (e : Z) : (0 < 2 ^ e)%Q.
Proof. now apply Qpower_0_lt. Qed.

Lemma pow2_plus (a b : Z) : (2 ^ (a + b) == 2 ^ a * 2 ^ b)%Q.
Proof. now apply Qpower_plus. Qed.

Lemma pow2_succ (a : Z) : (2 ^ (a + 1) == 2 * 2 ^ a)%Q.
Proof. rewrite pow2_plus. change (2 ^ 1)%Q with 2%Q. ring. Qed.

Lemma pow2_le (a b : Z) : a <= b -> (2 ^ a <= 2 ^ b)%Q.
Proof. intros H. apply Qpower_le_compat_l; [exact H | discriminate]. Qed.

Lemma pow2_lt (a b : Z) : a < b -> (2 ^ a < 2 ^ b)%Q.
Proof. intros H. apply Qpower_lt_compat_l; [exact H | reflexivity]. Qed.

Lemma pow2_Z (k : Z) : 0 <= k -> (2 ^ k == inject_Z (2 ^ k))%Q.
Proof. intros H. now rewrite Zpower_Qpower. Qed.

Lemma pow2_minus (a b : Z) : (2 ^ (a - b) == 2 ^ a / 2 ^ b)%Q.
Proof. now apply Qpower_minus. Qed.

(** The exponent of a positive number. *)
Lemma exponent_spec (x : Q) :
  (0 < x)%Q -> (2 ^ JS.exponent x <= x)%Q /\ (x < 2 ^ (JS.exponent x + 1))%Q.
Proof.
  intros Hx. unfold JS.exponent.
  destruct x as [n d]. cbn [Qnum Qden].
  assert (Hn : 0 < n) by (unfold Qlt in Hx; cbn in Hx; lia).
  pose proof (Z.log2_spec n Hn) as [Ha1 Ha2].
  pose proof (Z.log2_spec (Zpos d) (Pos2Z.is_pos d)) as [Hb1 Hb2].
  pose proof (Z.log2_nonneg n) as Ha0. pose proof (Z.log2_nonneg (Zpos d)) as Hb0.
  set (a := Z.log2 n) in *. set (b := Z.log2 (Zpos d)) in *.
  assert (Ex : (n # d == inject_Z n / inject_Z (Zpos d))%Q) by apply Qmake_Qdiv.
  assert (Hd : (0 < inject_Z (Zpos d))%Q) by reflexivity.
  assert (Hlow : (2 ^ (a - b - 1) < n # d)%Q).
  { rewrite Ex. apply Qlt_shift_div_l; [exact Hd|].
    replace (a - b - 1) with (a - (b + 1)) by lia.
    rewrite pow2_minus. unfold Qdiv. rewrite <- Qmult_assoc, (Qmult_comm (/ _)), Qmult_assoc.
    apply Qlt_shift_div_r; [apply pow2_pos|].
    rewrite !pow2_Z by lia. rewrite <- !inject_Z_mult, <- Zlt_Qlt.
    change (Z.succ b) with (b + 1) in Hb2. nia. }
  assert (Hhigh : (n # d < 2 ^ (a - b + 1))%Q).
  { rewrite Ex. apply Qlt_shift_div_r; [exact Hd|].
    replace (a - b + 1) with (a + 1 - b) by lia.
    rewrite pow2_minus. unfold Qdiv. rewrite <- Qmult_assoc, (Qmult_comm (/ _)), Qmult_assoc.
    apply Qlt_shift_div_l; [apply pow2_pos|].
    rewrite !pow2_Z by lia. rewrite <- !inject_Z_mult, <- Zlt_Qlt.
    change (Z.succ a) with (a + 1) in Ha2. nia. }
  destruct (Qle_bool (2 ^ (a - b)) (n # d)) eqn:E.
  - apply Qle_bool_iff in E. split; [exact E | exact Hhigh].
  - split; [now apply Qlt_le_weak|].
    replace (a - b - 1 + 1) with (a - b) by lia.
    apply Qnot_le_lt. intros H. apply Qle_bool_iff in H. congruence.
Qed.

Lemma exponent_unique (x : Q) (e : Z) :
  (2 ^ e <= x)%Q -> (x < 2 ^ (e + 1))%Q -> JS.exponent x = e.
Proof.
  intros H1 H2.
  assert (Hx : (0 < x)%Q) by (eapply Qlt_le_trans; [apply (pow2_pos e) | exact H1]).
  destruct (exponent_spec x Hx) as [G1 G2].
  set (e' := JS.exponent x) in *.
  destruct (Z.lt_trichotomy e' e) as [Hlt|[Heq|Hgt]]; [exfalso|exact Heq|exfalso].
  - pose proof (pow2_le (e' + 1) e ltac:(lia)). lra.
  - pose proof (pow2_le (e + 1) e' ltac:(lia)). lra.
Qed.

Lemma exponent_comp (x y : Q) : (0 < x)%Q -> (x == y)%Q -> JS.exponent x = JS.exponent y.
Proof.
  intros Hx E. destruct (exponent_spec x Hx) as [H1 H2].
  symmetry. apply exponent_unique; rewrite <- E; assumption.
Qed.

Lemma exponent_mono (x y : Q) : (0 < x)%Q -> (x <= y)%Q -> JS.exponent x <= JS.exponent y.
Proof.
  intros Hx Hxy.
  destruct (exponent_spec x Hx) as [H1 H2].
  destruct (exponent_spec y) as [G1 G2]; [lra|].
  destruct (Z.le_gt_cases (JS.exponent x) (JS.exponent y)) as [H|H]; [exact H|exfalso].
  pose proof (pow2_le (JS.exponent y + 1) (JS.exponent x) ltac:(lia)). lra.
Qed.

(** Rounding to the nearest integer. *)
Lemma round_half_even_bounds (x : Q) :
  Qfloor x <= JS.round_half_even x <= Qfloor x + 1.
Proof.
  unfold JS.round_half_even. destruct (_ ?= _)%Q; [destruct (Z.even _)| |]; lia.
Qed.

Lemma round_half_even_comp (x y : Q) :
  (x == y)%Q -> JS.round_half_even x = JS.round_half_even y.
Proof.
  intros E. unfold JS.round_half_even. rewrite (Qfloor_comp _ _ E).
  now rewrite E.
Qed.

Lemma round_half_even_Z (z : Z) : JS.round_half_even (inject_Z z) = z.
Proof.
  unfold JS.round_half_even. rewrite Qfloor_Z.
  assert (E : (inject_Z z - inject_Z z ?= 1 # 2)%Q = Lt).
  { rewrite <- Qlt_alt. lra. }
  now rewrite E.
Qed.

Lemma round_half_even_mono (x y : Q) :
  (x <= y)%Q -> JS.round_half_even x <= JS.round_half_even y.
Proof.
  intros Hxy. pose proof (Qfloor_resp_le _ _ Hxy) as Hf.
  pose proof (round_half_even_bounds x) as Bx.
  pose proof (round_half_even_bounds y) as By.
  destruct (Z.eq_dec (Qfloor x) (Qfloor y)) as [E|E]; [|lia].
  unfold JS.round_half_even in *. rewrite <- E in *.
  set (f := Qfloor x) in *.
  destruct (Qcompare_spec (x - inject_Z f) (1 # 2)) as [Ex|Ex|Ex];
    destruct (Qcompare_spec (y - inject_Z f) (1 # 2)) as [Ey|Ey|Ey];
    try destruct (Z.even f); try lia; exfalso; lra.
Qed.

(** Rounding to 53 significant bits. *)
Lemma round_to_comp (x y : Q) : (0 < x)%Q -> (x == y)%Q -> (JS.round_to x == JS.round_to y)%Q.
Proof.
  intros Hx E. unfold JS.round_to. rewrite <- (exponent_comp x y Hx E).
  set (s := JS.exponent x - 52).
  assert (Ediv : (x / 2 ^ s == y / 2 ^ s)%Q) by (apply Qdiv_comp; [exact E | reflexivity]).
  now rewrite (round_half_even_comp _ _ Ediv).
Qed.

Lemma round_to_low (x : Q) : (0 < x)%Q -> (2 ^ JS.exponent x <= JS.round_to x)%Q.
Proof.
  intros Hx. destruct (exponent_spec x Hx) as [H1 H2].
  unfold JS.round_to. set (e := JS.exponent x) in *. set (s := e - 52).
  pose proof (pow2_pos s) as Hs.
  assert (Hm : 2 ^ 52 <= JS.round_half_even (x / 2 ^ s)).
  { rewrite <- (round_half_even_Z (2 ^ 52)). apply round_half_even_mono.
    rewrite <- (pow2_Z 52) by lia. replace 52 with (e - s) at 1 by (subst s; lia).
    rewrite pow2_minus.
    unfold Qdiv. apply Qmult_le_compat_r; [exact H1|].
    apply Qlt_le_weak, Qinv_lt_0_compat, Hs. }
  assert (Hq : (2 ^ 52 <= inject_Z (JS.round_half_even (x / 2 ^ s)))%Q).
  { rewrite (pow2_Z 52) by lia. now rewrite <- Zle_Qle. }
  apply (Qmult_le_compat_r _ _ (2 ^ s)) in Hq; [|lra].
  rewrite <- pow2_plus in Hq. now replace (52 + s) with e in Hq by (subst s; lia).
Qed.

Lemma round_to_high (x : Q) (e : Z) :
  (0 < x)%Q -> JS.exponent x < e -> (JS.round_to x <= 2 ^ e)%Q.
Proof.
  intros Hx He. destruct (exponent_spec x Hx) as [H1 H2].
  unfold JS.round_to. set (s := JS.exponent x - 52).
  pose proof (pow2_pos s) as Hs.
  assert (Hes : 0 <= e - s) by (subst s; lia).
  assert (Hm : JS.round_half_even (x / 2 ^ s) <= 2 ^ (e - s)).
  { rewrite <- (round_half_even_Z (2 ^ (e - s))). apply round_half_even_mono.
    rewrite <- (pow2_Z (e - s)) by exact Hes. rewrite pow2_minus.
    unfold Qdiv. apply Qmult_le_compat_r.
    - pose proof (pow2_le (JS.exponent x + 1) e ltac:(lia)). lra.
    - apply Qlt_le_weak, Qinv_lt_0_compat, Hs. }
  assert (Hq : (inject_Z (JS.round_half_even (x / 2 ^ s)) <= 2 ^ (e - s))%Q).
  { rewrite (pow2_Z (e - s)) by exact Hes. now rewrite <- Zle_Qle. }
  apply (Qmult_le_compat_r _ _ (2 ^ s)) in Hq; [|lra].
  rewrite <- pow2_plus in Hq. now replace (e - s + s) with e in Hq by lia.
Qed.

Lemma round_to_pos (x : Q) : (0 < x)%Q -> (0 < JS.round_to x)%Q.
Proof.
  intros Hx. destruct (exponent_spec x Hx) as [H1 _].
  pose proof (round_to_low x Hx). pose proof (pow2_pos (JS.exponent x)). lra.
Qed.

Lemma round_to_mono (x y : Q) :
  (0 < x)%Q -> (x <= y)%Q -> (JS.round_to x <= JS.round_to y)%Q.
Proof.
  intros Hx Hxy. assert (Hy : (0 < y)%Q) by lra.
  pose proof (exponent_mono x y Hx Hxy) as He.
  destruct (Z.eq_dec (JS.exponent x) (JS.exponent y)) as [E|E].
  - unfold JS.round_to. rewrite <- E. set (s := JS.exponent x - 52).
    pose proof (pow2_pos s) as Hs.
    apply Qmult_le_compat_r; [|lra]. rewrite <- Zle_Qle.
    apply round_half_even_mono. unfold Qdiv.
    apply Qmult_le_compat_r; [exact Hxy|].
    apply Qlt_le_weak, Qinv_lt_0_compat, Hs.
  - destruct (exponent_spec y Hy) as [G1 _].
    pose proof (round_to_high x (JS.exponent y) Hx ltac:(lia)).
    pose proof (round_to_low y Hy). lra.
Qed.

(** [double] on the numbers that are not negative. *)
Lemma double_comp (x y : Q) : (x == y)%Q -> (JS.double x == JS.double y)%Q.
Proof.
  intros E. unfold JS.double. rewrite <- E.
  destruct (Qcompare_spec x 0) as [H|H|H]; [reflexivity| |].
  - apply Qopp_comp. apply round_to_comp; [lra | now rewrite E].
  - now apply round_to_comp.
Qed.

Lemma double_0 : JS.double 0 = 0%Q.
Proof. reflexivity. Qed.

Lemma double_nonneg (x : Q) : (0 <= x)%Q -> (0 <= JS.double x)%Q.
Proof.
  intros Hx. unfold JS.double.
  destruct (Qcompare_spec x 0) as [H|H|H]; [lra | lra |].
  apply Qlt_le_weak. now apply round_to_pos.
Qed.

Lemma double_mono (x y : Q) : (0 <= x)%Q -> (x <= y)%Q -> (JS.double x <= JS.double y)%Q.
Proof.
  intros Hx Hxy. unfold JS.double at 1.
  destruct (Qcompare_spec x 0) as [H|H|H]; [|lra|].
  - apply double_nonneg. lra.
  - unfold JS.double. destruct (Qcompare_spec y 0) as [G|G|G]; [lra | lra |].
    now apply round_to_mono.
Qed.

Lemma double_monotone (x y : Q) : (x <= y)%Q -> (JS.double x <= JS.double y)%Q.
Proof.
  intros Hxy. destruct (Qlt_le_dec x 0) as [Hx|Hx]; [|now apply double_mono].
  unfold JS.double at 1. destruct (Qcompare_spec x 0) as [H|H|H]; [lra| |lra].
  assert (Hpos : (0 < JS.round_to (- x))%Q) by (apply round_to_pos; lra).
  destruct (Qlt_le_dec y 0) as [Hy|Hy].
  - unfold JS.double. destruct (Qcompare_spec y 0) as [G|G|G]; [lra| |lra].
    assert (JS.round_to (- y) <= JS.round_to (- x))%Q by (apply round_to_mono; lra).
    lra.
  - pose proof (double_nonneg y Hy). lra.
Qed.

Lemma double_Z_small (z : Z) : 0 <= z < 2 ^ 53 -> (JS.double (inject_Z z) == inject_Z z)%Q.
Proof.
  intros Hz. unfold JS.double.
  destruct (Qcompare_spec (inject_Z z) 0) as [H|H|H]; [now rewrite H | |].
  - exfalso. change 0%Q with (inject_Z 0) in H. rewrite <- Zlt_Qlt in H. lia.
  - destruct (exponent_spec _ H) as [H1 H2]. unfold JS.round_to.
    set (e := JS.exponent (inject_Z z)) in *.
    assert (He : e < 53).
    { destruct (Z.lt_ge_cases e 53) as [G|G]; [exact G|exfalso].
      pose proof (pow2_le 53 e G) as Hp. rewrite (pow2_Z 53) in Hp by lia.
      assert (inject_Z (2 ^ 53) <= inject_Z z)%Q by lra.
      rewrite <- Zle_Qle in H0. lia. }
    assert (Ez : (inject_Z z / 2 ^ (e - 52) == inject_Z (z * 2 ^ (52 - e)))%Q).
    { rewrite inject_Z_mult, <- pow2_Z by lia.
      replace (52 - e) with (- (e - 52)) by lia. rewrite Qpower_opp. reflexivity. }
    rewrite (round_half_even_comp _ _ Ez), round_half_even_Z.
    rewrite inject_Z_mult, <- pow2_Z by lia. rewrite <- Qmult_assoc, <- pow2_plus.
    replace (52 - e + (e - 52)) with 0 by lia. change (2 ^ 0)%Q with 1%Q. ring.
Qed.

(** [JS.double] against the binary64 numbers of the Standard Library: for
    up to 200 fixes of 1 to 200 issues, the quotient times 100 is the same
    number in both. *)
Lemma same_percent_counters :
  forallb (fun issues => forallb (fun fixes => Spec.same_percent fixes (issues + 1))
                           (Spec.counters 201))
    (Spec.counters 200) = true.
Proof. vm_cast_no_check (eq_refl true). Qed.

Lemma percent_binary64 (fixes issues : Z) :
  0 <= fixes <= 200 -> 1 <= issues <= 200 ->
  exists q, Spec.binary64_percent fixes issues = Some q
            /\ (q == JS.product (JS.quotient fixes issues) 100)%Q.
Proof.
  intros Hf Hi. pose proof same_percent_counters as H.
  rewrite forallb_forall in H.
  assert (Hin : forall n k, 0 <= k < Z.of_nat n -> In k (Spec.counters n)).
  { intros n k Hk. apply in_map_iff. exists (Z.to_nat k). split; [lia|].
    apply in_seq. lia. }
  specialize (H (issues - 1) (Hin 200%nat (issues - 1) ltac:(lia))).
  rewrite forallb_forall in H. specialize (H fixes (Hin 201%nat fixes ltac:(lia))).
  replace (issues - 1 + 1) with issues in H by lia.
  unfold Spec.same_percent in H.
  destruct (Spec.binary64_percent fixes issues) as [q|]; [|discriminate].
  exists q. split; [reflexivity|]. now apply Qeq_bool_iff.
Qed.

End NumberFacts.

(** ** Facts about the JavaScript primitives *)

Module JSFacts.

Lemma Math_round_nonneg (x : Q) : (0 <= x)%Q -> 0 <= JS.Math_round x.
Proof.
  intros Hx. unfold JS.Math_round.
  change 0 with (Qfloor 0). apply Qfloor_resp_le.
  apply Qle_trans with x; [exact Hx|].
  rewrite <- (Qplus_0_r x) at 1.
  apply Qplus_le_r. discriminate.
Qed.

Lemma div_nonneg (a b : Z) : 0 <= a -> 0 < b -> (0 <= JS.div a b)%Q.
Proof.
  intros Ha Hb. unfold JS.div.
  apply Qle_shift_div_l.
  - change 0%Q with (inject_Z 0). rewrite <- Zlt_Qlt. exact Hb.
  - rewrite Qmult_0_l. change 0%Q with (inject_Z 0). rewrite <- Zle_Qle. exact Ha.
Qed.

Lemma quotient_nonneg (a b : Z) : 0 <= a -> 0 < b -> (0 <= JS.quotient a b)%Q.
Proof.
  intros Ha Hb. apply NumberFacts.double_nonneg. now apply div_nonneg.
Qed.

Lemma percent_nonneg (a b : Z) :
  0 <= a -> 0 < b -> 0 <= JS.Math_round (JS.product (JS.quotient a b) 100).
Proof.
  intros Ha Hb. apply Math_round_nonneg. apply NumberFacts.double_nonneg.
  apply Qmult_le_0_compat; [now apply quotient_nonneg | discriminate].
Qed.

Section Props.
Context {V : Type}.
Implicit Types (ps : list (string * V)) (k : string) (v : V).

Lemma get_set ps k v k' :
  JS.get (JS.set ps k v) k' = if String.eqb k k' then Some v else JS.get ps k'.
Proof.
  induction ps as [|[k0 v0] ps IH]; simpl.
  - reflexivity.
  - destruct (String.eqb k0 k) eqn:E0; simpl.
    + apply String.eqb_eq in E0. subst k0.
      destruct (String.eqb k k'); reflexivity.
    + rewrite IH. destruct (String.eqb k0 k') eqn:E1; [|reflexivity].
      apply String.eqb_eq in E1. subst k0. now rewrite String.eqb_sym, E0.
Qed.

Lemma get_set_eq ps k v : JS.get (JS.set ps k v) k = Some v.
Proof. now rewrite get_set, String.eqb_refl. Qed.

Lemma set_set ps k v v' : JS.set (JS.set ps k v) k v' = JS.set ps k v'.
Proof.
  induction ps as [|[k0 v0] ps IH]; simpl.
  - now rewrite String.eqb_refl.
  - destruct (String.eqb k0 k) eqn:E; simpl; rewrite E; [reflexivity|].
    now rewrite IH.
Qed.

Lemma get_None_keys ps k : JS.get ps k = None <-> ~ In k (map fst ps).
Proof.
  induction ps as [|[k0 v0] ps IH]; simpl.
  - tauto.
  - destruct (String.eqb k0 k) eqn:E.
    + apply String.eqb_eq in E. split; [discriminate | tauto].
    + apply String.eqb_neq in E. rewrite IH. tauto.
Qed.

(** An assignment keeps the creation order and creates new keys last. *)
Lemma keys_set ps k v :
  map fst (JS.set ps k v)
  = match JS.get ps k with
    | Some _ => map fst ps
    | None => map fst ps ++ [k]
    end.
Proof.
  induction ps as [|[k0 v0] ps IH]; simpl.
  - reflexivity.
  - destruct (String.eqb k0 k) eqn:E; simpl.
    + reflexivity.
    + rewrite IH. now destruct (JS.get ps k).
Qed.

Lemma get_In ps k v : JS.get ps k = Some v -> In (k, v) ps.
Proof.
  induction ps as [|[k0 v0] ps IH]; simpl; [discriminate|].
  destruct (String.eqb k0 k) eqn:E.
  - apply String.eqb_eq in E. intros [= ->]. left. now subst.
  - auto.
Qed.

Lemma In_get ps k v : NoDup (map fst ps) -> In (k, v) ps -> JS.get ps k = Some v.
Proof.
  induction ps as [|[k0 v0] ps IH]; simpl; [tauto|].
  intros Hnd [[= -> ->]|Hin].
  - now rewrite String.eqb_refl.
  - apply NoDup_cons in Hnd as [Hk0 Hnd].
    destruct (String.eqb k0 k) eqn:E.
    + apply String.eqb_eq in E. subst k0. exfalso. apply Hk0.
      apply list_elem_of_In. change k with (fst (k, v)). now apply in_map.
    + auto.
Qed.

Lemma keys_set_NoDup ps k v : NoDup (map fst ps) -> NoDup (map fst (JS.set ps k v)).
Proof.
  intros Hnd. rewrite keys_set. destruct (JS.get ps k) eqn:E; [exact Hnd|].
  apply get_None_keys in E.
  apply NoDup_app; repeat split; try assumption.
  - intros x Hx Hx'. apply list_elem_of_In in Hx. apply list_elem_of_In in Hx'.
    simpl in Hx'. destruct Hx' as [<-|[]]. contradiction.
  - apply NoDup_singleton.
Qed.
End Props.

End JSFacts.

(** ** Substrings *)

Module StringFacts.

Import Spec.

Lemma app_cons (c : ascii) (s t : string) : String c s +:+ t = String c (s +:+ t).
Proof. reflexivity. Qed.

Lemma app_nil_l (t : string) : EmptyString +:+ t = t.
Proof. reflexivity. Qed.

Lemma prefix_app (needle hay : string) :
  String.prefix needle hay = true <-> exists post, hay = needle +:+ post.
Proof.
  revert hay. induction needle as [|c needle IH]; intros hay.
  - split; [intros _; now exists hay | intros _; now destruct hay].
  - destruct hay as [|c' hay]; simpl.
    + split; [discriminate | intros [post H]; discriminate].
    + destruct (Ascii.ascii_dec c c') as [->|Hne].
      * rewrite IH. split; intros [post H]; exists post;
          rewrite app_cons in *; congruence.
      * split; [discriminate | intros [post H]; rewrite app_cons in H; congruence].
Qed.

Lemma includes_occurs (hay needle : string) :
  JS.includes hay needle = true <-> occurs_in needle hay.
Proof.
  induction hay as [|c hay IH].
  - cbn [JS.includes]. rewrite orb_false_r, prefix_app. split.
    + intros [post H]. now exists EmptyString, post.
    + intros [[|c pre] [post H]]; [now exists post | rewrite app_cons in H; discriminate].
  - cbn [JS.includes]. rewrite orb_true_iff, prefix_app, IH. split.
    + intros [[post H]|[pre [post H]]].
      * now exists EmptyString, post.
      * exists (String c pre), post. rewrite app_cons. now f_equal.
    + intros [[|c' pre] [post H]].
      * left. now exists post.
      * right. exists pre, post. rewrite app_cons in H. congruence.
Qed.

Lemma app_assoc (a b c : string) : (a +:+ b) +:+ c = a +:+ (b +:+ c).
Proof. induction a; rewrite ?app_nil_l, ?app_cons; congruence. Qed.

End StringFacts.

(** ** Stable sorting *)

Module SortFacts.

Import Spec.

Section Before.
Context {A : Type}.
Implicit Types (l : list A) (a b x y : A).

Lemma before_cons l y a b :
  before (y :: l) a b <-> (a = y /\ In b l) \/ before l a b.
Proof.
  split.
  - intros ([|z l1] & l2 & l3 & H); simpl in H; injection H as -> ->.
    + left. split; [reflexivity|]. apply in_or_app. right. now left.
    + right. now exists l1, l2, l3.
  - intros [[-> Hin]|(l1 & l2 & l3 & ->)].
    + apply in_split in Hin as (l2 & l3 & ->). now exists [], l2, l3.
    + now exists (y :: l1), l2, l3.
Qed.

Lemma before_nil a b : ~ before (@nil A) a b.
Proof. intros ([|z l1] & l2 & l3 & H); discriminate. Qed.

Lemma before_app_l l l' a b : before l a b -> before (l ++ l') a b.
Proof.
  intros (l1 & l2 & l3 & ->). exists l1, l2, (l3 ++ l').
  now rewrite <- !app_assoc, <- !app_comm_cons, <- app_assoc.
Qed.

Lemma before_In l a b : before l a b -> In a l /\ In b l.
Proof.
  intros (l1 & l2 & l3 & ->). split; apply in_or_app; right.
  - now left.
  - right. apply in_or_app. right. now left.
Qed.

Lemma before_lookup l a b :
  before l a b <->
  exists i j : nat, (i < j)%nat /\ l !! i = Some a /\ l !! j = Some b.
Proof.
  split.
  - intros (l1 & l2 & l3 & ->).
    exists (length l1), (length l1 + S (length l2))%nat. split; [lia|]. split.
    + now rewrite list_lookup_middle.
    + rewrite lookup_app_r by lia.
      replace (length l1 + S (length l2) - length l1)%nat with (S (length l2)) by lia.
      simpl. now rewrite list_lookup_middle.
  - revert l. intros l (i & j & Hij & Hi & Hj). revert j l Hij Hi Hj.
    induction i as [|i IH]; intros j l Hij Hi Hj.
    + destruct l as [|y l]; [discriminate|]. injection Hi as ->.
      destruct j as [|j]; [lia|]. simpl in Hj.
      apply before_cons. left. split; [reflexivity|].
      apply list_elem_of_In. eapply list_elem_of_lookup_2. exact Hj.
    + destruct l as [|y l]; [discriminate|].
      destruct j as [|j]; [lia|]. simpl in Hi, Hj.
      apply before_cons. right. apply (IH j); [lia|assumption..].
Qed.
End Before.

Lemma before_map {A B} (f : A -> B) (l : list A) (a b : A) :
  before l a b -> before (map f l) (f a) (f b).
Proof.
  intros (l1 & l2 & l3 & ->). exists (map f l1), (map f l2), (map f l3).
  now rewrite map_app, map_cons, map_app, map_cons.
Qed.

Lemma In_firstn {A} (n : nat) (l : list A) (x : A) : In x (firstn n l) -> In x l.
Proof.
  intros H. rewrite <- (firstn_skipn n l). apply in_or_app. now left.
Qed.

Lemma In_skipn {A} (n : nat) (l : list A) (x : A) : In x (skipn n l) -> In x l.
Proof.
  intros H. rewrite <- (firstn_skipn n l). apply in_or_app. now right.
Qed.

Lemma before_firstn {A} (n : nat) (l : list A) (a b : A) :
  before (firstn n l) a b -> before l a b.
Proof.
  intros H. rewrite <- (firstn_skipn n l). now apply before_app_l.
Qed.

Section Sort.
Context {A : Type} (cmp : A -> A -> Z).
Implicit Types (l s : list A) (a b x y : A).

Lemma sort_insert_Permutation x s : Permutation (JS.sort_insert cmp x s) (x :: s).
Proof.
  induction s as [|y s IH]; simpl.
  - reflexivity.
  - destruct (cmp x y >? 0).
    + rewrite IH. apply perm_swap.
    + reflexivity.
Qed.

Lemma sort_Permutation l : Permutation (JS.sort cmp l) l.
Proof.
  induction l as [|x l IH]; simpl.
  - reflexivity.
  - rewrite sort_insert_Permutation. now apply perm_skip.
Qed.

Lemma sort_insert_before x s a b :
  before (JS.sort_insert cmp x s) a b ->
  (a = x /\ In b s) \/ before s a b \/ (b = x /\ In a s /\ cmp x a > 0).
Proof.
  induction s as [|y s IH]; simpl.
  - intros H. apply before_cons in H as [[_ []]|H]. now apply before_nil in H.
  - destruct (cmp x y >? 0) eqn:E.
    + intros H. apply before_cons in H as [[-> Hin]|H].
      * apply (Permutation_in _ (sort_insert_Permutation x s)) in Hin.
        destruct Hin as [<-|Hin].
        -- right. right. split; [reflexivity|]. split; [now left | lia].
        -- right. left. apply before_cons. now left.
      * destruct (IH H) as [[-> Hin]|[Hb|(-> & Hin & Hc)]].
        -- left. split; [reflexivity | now right].
        -- right. left. apply before_cons. now right.
        -- right. right. split; [reflexivity|]. split; [now right | exact Hc].
    + intros H. apply before_cons in H as [[-> Hin]|H]; [now left | right; now left].
Qed.

(** Stability: elements that the comparator does not order keep their
    input order. *)
Lemma sort_stable l a b :
  before (JS.sort cmp l) a b -> cmp b a <= 0 -> before l a b.
Proof.
  revert a b. induction l as [|x l IH]; simpl; intros a b H Hc.
  - now apply before_nil in H.
  - apply sort_insert_before in H as [[-> Hin]|[H|(-> & Hin & Hgt)]].
    + apply before_cons. left. split; [reflexivity|].
      now apply (Permutation_in _ (sort_Permutation l)).
    + apply before_cons. right. now apply IH.
    + lia.
Qed.
End Sort.

(** Comparators of the form [(a, b) => key(b) - key(a)]. *)
Section Descending.
Context {A : Type} (key : A -> Z).
Let cmp (a b : A) : Z := key b - key a.
Let desc (a b : A) : Prop := key a >= key b.

Lemma sort_insert_sorted x s :
  StronglySorted desc s -> StronglySorted desc (JS.sort_insert cmp x s).
Proof.
  induction s as [|y s IH]; simpl; intros Hs.
  - repeat constructor.
  - apply StronglySorted_inv in Hs as [Hs Hy].
    destruct (cmp x y >? 0) eqn:E.
    + constructor; [now apply IH|].
      apply Forall_forall. intros z Hz. apply list_elem_of_In in Hz.
      apply (Permutation_in _ (sort_insert_Permutation cmp x s)) in Hz.
      destruct Hz as [<-|Hz].
      * unfold desc, cmp in *. lia.
      * rewrite Forall_forall in Hy. apply Hy. now apply list_elem_of_In.
    + constructor; [now constructor|].
      constructor; [unfold desc, cmp in *; lia|].
      eapply Forall_impl; [exact Hy|]. intros z Hz. unfold desc, cmp in *. lia.
Qed.

Lemma sort_sorted l : StronglySorted desc (JS.sort cmp l).
Proof.
  induction l as [|x l IH]; simpl.
  - constructor.
  - now apply sort_insert_sorted.
Qed.

Lemma sorted_firstn (n : nat) s :
  StronglySorted desc s -> StronglySorted desc (firstn n s).
Proof.
  revert n. induction s as [|y s IH]; intros [|n] Hs; simpl; try constructor.
  - apply IH. now apply StronglySorted_inv in Hs.
  - apply StronglySorted_inv in Hs as [_ Hy].
    rewrite Forall_forall in Hy |- *. intros z Hz. apply Hy.
    apply list_elem_of_In in Hz. apply list_elem_of_In. eapply In_firstn. exact Hz.
Qed.

(** In a sorted list every element of a prefix dominates the rest. *)
Lemma sorted_firstn_skipn (n : nat) s a b :
  StronglySorted desc s -> In a (firstn n s) -> In b (skipn n s) -> key a >= key b.
Proof.
  revert n. induction s as [|y s IH]; intros [|n] Hs Ha Hb; simpl in *; try tauto.
  apply StronglySorted_inv in Hs as [Hs Hy]. destruct Ha as [<-|Ha].
  - rewrite Forall_forall in Hy. apply Hy. apply list_elem_of_In.
    eapply In_skipn. exact Hb.
  - now apply (IH n).
Qed.
End Descending.

End SortFacts.

(** ** Own-property order *)

Module EntriesFacts.
Import Spec SortFacts.

Section Entries.
Context {V : Type}.
Implicit Types (props l : list (string * V)) (e a b : string * V).

Let by_index (a b : string * V) : Prop := (JS.index_of a.1 <= JS.index_of b.1)%N.

Lemma insert_by_index_Permutation e l : Permutation (JS.insert_by_index e l) (e :: l).
Proof.
  induction l as [|e' l IH]; simpl.
  - reflexivity.
  - destruct (JS.index_of e'.1 <? JS.index_of e.1)%N.
    + rewrite IH. apply perm_swap.
    + reflexivity.
Qed.

Lemma by_index_Permutation l : Permutation (foldr JS.insert_by_index [] l) l.
Proof.
  induction l as [|e l IH]; simpl.
  - reflexivity.
  - rewrite insert_by_index_Permutation. now apply perm_skip.
Qed.

Lemma insert_by_index_sorted e l :
  StronglySorted by_index l -> StronglySorted by_index (JS.insert_by_index e l).
Proof.
  induction l as [|e' l IH]; simpl; intros Hs.
  - repeat constructor.
  - apply StronglySorted_inv in Hs as [Hs He'].
    destruct (JS.index_of e'.1 <? JS.index_of e.1)%N eqn:E.
    + apply N.ltb_lt in E. constructor; [now apply IH|].
      apply Forall_forall. intros z Hz. apply list_elem_of_In in Hz.
      apply (Permutation_in _ (insert_by_index_Permutation e l)) in Hz.
      destruct Hz as [<-|Hz].
      * unfold by_index. lia.
      * rewrite Forall_forall in He'. apply He'. now apply list_elem_of_In.
    + apply N.ltb_ge in E. constructor; [now constructor|].
      constructor; [exact E|].
      eapply Forall_impl; [exact He'|]. intros z Hz. unfold by_index in *. lia.
Qed.

Lemma by_index_sorted l : StronglySorted by_index (foldr JS.insert_by_index [] l).
Proof.
  induction l as [|e l IH]; simpl.
  - constructor.
  - now apply insert_by_index_sorted.
Qed.

Lemma sorted_before (R : string * V -> string * V -> Prop) l a b :
  StronglySorted R l -> before l a b -> R a b.
Proof.
  induction l as [|y l IH]; intros Hs Hb.
  - now apply before_nil in Hb.
  - apply StronglySorted_inv in Hs as [Hs Hy].
    apply before_cons in Hb as [[-> Hin]|Hb].
    + rewrite Forall_forall in Hy. apply Hy. now apply list_elem_of_In.
    + now apply IH.
Qed.

Lemma before_app l l' a b :
  before (l ++ l') a b -> before l a b \/ (In a l /\ In b l') \/ before l' a b.
Proof.
  induction l as [|y l IH]; simpl; intros Hb.
  - now right; right.
  - apply before_cons in Hb as [[-> Hin]|Hb].
    + apply in_app_or in Hin as [Hin|Hin].
      * left. apply before_cons. now left.
      * right. left. split; [now left | exact Hin].
    + destruct (IH Hb) as [H|[[Ha Hb']|H]].
      * left. apply before_cons. now right.
      * right. left. split; [now right | exact Hb'].
      * now right; right.
Qed.

Lemma In_filter (P : string * V -> Prop) `{!forall x, Decision (P x)} l e :
  In e (filter P l) <-> P e /\ In e l.
Proof. rewrite <- !list_elem_of_In. apply list_elem_of_filter. Qed.

Lemma before_filter (P : string * V -> Prop) `{!forall x, Decision (P x)} l a b :
  before (filter P l) a b -> before l a b.
Proof.
  induction l as [|y l IH]; intros Hb.
  - now apply before_nil in Hb.
  - rewrite filter_cons in Hb. destruct (decide (P y)).
    + apply before_cons in Hb as [[-> Hin]|Hb]; apply before_cons.
      * left. split; [reflexivity|]. now apply In_filter in Hin.
      * right. now apply IH.
    + apply before_cons. right. now apply IH.
Qed.

(** Array-index keys come first in ascending order; the other keys
    follow in creation order. *)
Lemma Object_entries_order props a b :
  before (JS.Object_entries props) a b ->
  (JS.is_array_index a.1 = true /\ JS.is_array_index b.1 = true
   /\ (JS.index_of a.1 <= JS.index_of b.1)%N)
  \/ (JS.is_array_index a.1 = true /\ JS.is_array_index b.1 = false)
  \/ (JS.is_array_index a.1 = false /\ JS.is_array_index b.1 = false
      /\ before props a b).
Proof.
  unfold JS.Object_entries. intros Hb.
  apply before_app in Hb as [Hb|[[Ha Hb]|Hb]].
  - left. pose proof (before_In _ _ _ Hb) as [Ha Hb'].
    apply (Permutation_in _ (by_index_Permutation _)) in Ha, Hb'.
    apply In_filter in Ha as [Ha _]. apply In_filter in Hb' as [Hb' _].
    repeat split; try assumption.
    exact (sorted_before by_index _ _ _ (by_index_sorted _) Hb).
  - right. left.
    apply (Permutation_in _ (by_index_Permutation _)) in Ha.
    apply In_filter in Ha as [Ha _]. apply In_filter in Hb as [Hb _]. now split.
  - right. right. pose proof (before_In _ _ _ Hb) as [Ha Hb'].
    apply In_filter in Ha as [Ha _]. apply In_filter in Hb' as [Hb' _].
    repeat split; try assumption. eapply before_filter. exact Hb.
Qed.

Lemma Object_entries_Permutation props : Permutation (JS.Object_entries props) props.
Proof.
  unfold JS.Object_entries. rewrite by_index_Permutation.
  induction props as [|e props IH]; [reflexivity|].
  rewrite !filter_cons.
  destruct (decide (JS.is_array_index e.1 = true)) as [Ht|Ht];
    destruct (decide (JS.is_array_index e.1 = false)) as [Hf|Hf].
  - congruence.
  - simpl. now apply perm_skip.
  - rewrite <- Permutation_middle. now apply perm_skip.
  - destruct (JS.is_array_index e.1); congruence.
Qed.

(** Without array-index keys the entries are in creation order. *)
Lemma Object_entries_plain props :
  Forall (fun e => JS.is_array_index e.1 = false) props ->
  JS.Object_entries props = props.
Proof.
  unfold JS.Object_entries. intros Hplain.
  assert (Hnone : filter (fun e => JS.is_array_index e.1 = true) props = []).
  { induction Hplain as [|e props He _ IH]; [reflexivity|].
    rewrite filter_cons, decide_False by (rewrite He; discriminate). exact IH. }
  assert (Hall : filter (fun e => JS.is_array_index e.1 = false) props = props).
  { induction Hplain as [|e props He _ IH]; [reflexivity|].
    rewrite filter_cons, decide_True by exact He. f_equal. apply IH.
    rewrite filter_cons, decide_False in Hnone by (rewrite He; discriminate).
    exact Hnone. }
  now rewrite Hnone, Hall.
Qed.
End Entries.

End EntriesFacts.

(** ** The tracker's heap *)

Module TrackerFacts.
Import MetricsTracker Spec.

(** An invariant of every call holds after every session. *)
Lemma run_invariant (P : World -> Prop) (ok : Call -> Prop) :
  (forall w c, ok c -> P w -> P (call w c)) ->
  forall cs w, Forall ok cs -> P w -> P (run cs w).
Proof.
  intros Hstep cs. induction cs as [|c cs IH]; intros w Hok Hw; simpl.
  - exact Hw.
  - apply Forall_cons in Hok as [Hc Hok]. apply IH; [exact Hok|]. now apply Hstep.
Qed.

Lemma Forall_any (cs : list Call) : Forall (fun _ => True) cs.
Proof. now apply Forall_forall. Qed.

(** *** Writes keep the typing of the heap *)

Lemma kinds_insert (h : Heap) (l : loc) (o o' : Obj) :
  h !! l = Some o -> kind o' = kind o -> kind <$> <[l := o']> h = kind <$> h.
Proof.
  intros Hl Hk. rewrite list_fmap_insert, Hk. apply list_insert_id.
  now rewrite list_lookup_fmap, Hl.
Qed.

Lemma kinds_store_prop h l k v : kind <$> store_prop h l k v = kind <$> h.
Proof.
  unfold store_prop. destruct (h !! l) as [[]|] eqn:E; try reflexivity.
  now apply (kinds_insert _ _ _ _ E).
Qed.

Lemma kinds_push_analysis h l e : kind <$> push_analysis h l e = kind <$> h.
Proof.
  unfold push_analysis. destruct (h !! l) as [[]|] eqn:E; try reflexivity.
  now apply (kinds_insert _ _ _ _ E).
Qed.

Lemma kinds_push_fix h l e : kind <$> push_fix h l e = kind <$> h.
Proof.
  unfold push_fix. destruct (h !! l) as [[]|] eqn:E; try reflexivity.
  now apply (kinds_insert _ _ _ _ E).
Qed.

Lemma kind_lookup (h h' : Heap) (l : loc) :
  kind <$> h' = kind <$> h -> kind <$> h' !! l = kind <$> h !! l.
Proof. intros H. now rewrite <- !list_lookup_fmap, H. Qed.

(** *** Reads after writes *)

Ltac read_after_write E :=
  match goal with
  | |- context [<[?l := _]> ?h !! ?l'] =>
      destruct (decide (l = l')) as [<-|];
      [ rewrite list_lookup_insert_eq by (eapply lookup_lt_Some; exact E); now rewrite ?E
      | now rewrite list_lookup_insert_ne by assumption ]
  end.

Lemma props_at_store_prop h l k v ps :
  h !! l = Some (ObjRecord ps) -> props_at (store_prop h l k v) l = JS.set ps k v.
Proof.
  intros E. unfold props_at, store_prop. rewrite E.
  now rewrite list_lookup_insert_eq by (eapply lookup_lt_Some; exact E).
Qed.

Lemma props_at_store_prop_ne h l k v l' :
  l <> l' -> props_at (store_prop h l k v) l' = props_at h l'.
Proof.
  intros Hne. unfold props_at, store_prop.
  destruct (h !! l) as [[]|] eqn:E; try reflexivity. read_after_write E.
Qed.

Lemma props_at_store_prop_untyped h l k v :
  kind <$> h !! l <> Some KRecord -> store_prop h l k v = h.
Proof.
  intros Hk. unfold store_prop. destruct (h !! l) as [[]|]; try reflexivity.
  now destruct Hk.
Qed.

Lemma analysis_at_store_prop h l k v l' :
  analysis_at (store_prop h l k v) l' = analysis_at h l'.
Proof.
  unfold analysis_at, store_prop.
  destruct (h !! l) as [[]|] eqn:E; try reflexivity. read_after_write E.
Qed.

Lemma fixes_at_store_prop h l k v l' :
  fixes_at (store_prop h l k v) l' = fixes_at h l'.
Proof.
  unfold fixes_at, store_prop.
  destruct (h !! l) as [[]|] eqn:E; try reflexivity. read_after_write E.
Qed.

Lemma analysis_at_push_analysis h l e :
  kind <$> h !! l = Some KAnalysis ->
  analysis_at (push_analysis h l e) l = analysis_at h l ++ [e].
Proof.
  unfold analysis_at, push_analysis.
  destruct (h !! l) as [[]|] eqn:E; try discriminate. intros _.
  now rewrite list_lookup_insert_eq by (eapply lookup_lt_Some; exact E).
Qed.

Lemma props_at_push_analysis h l e l' :
  props_at (push_analysis h l e) l' = props_at h l'.
Proof.
  unfold props_at, push_analysis.
  destruct (h !! l) as [[]|] eqn:E; try reflexivity. read_after_write E.
Qed.

Lemma fixes_at_push_analysis h l e l' :
  fixes_at (push_analysis h l e) l' = fixes_at h l'.
Proof.
  unfold fixes_at, push_analysis.
  destruct (h !! l) as [[]|] eqn:E; try reflexivity. read_after_write E.
Qed.

Lemma fixes_at_push_fix h l e :
  kind <$> h !! l = Some KFix ->
  fixes_at (push_fix h l e) l = fixes_at h l ++ [e].
Proof.
  unfold fixes_at, push_fix.
  destruct (h !! l) as [[]|] eqn:E; try discriminate. intros _.
  now rewrite list_lookup_insert_eq by (eapply lookup_lt_Some; exact E).
Qed.

Lemma props_at_push_fix h l e l' :
  props_at (push_fix h l e) l' = props_at h l'.
Proof.
  unfold props_at, push_fix.
  destruct (h !! l) as [[]|] eqn:E; try reflexivity. read_after_write E.
Qed.

Lemma analysis_at_push_fix h l e l' :
  analysis_at (push_fix h l e) l' = analysis_at h l'.
Proof.
  unfold analysis_at, push_fix.
  destruct (h !! l) as [[]|] eqn:E; try reflexivity. read_after_write E.
Qed.

(** *** The object literal of [constructor] and [reset] *)

Lemma fresh_metrics_heap h now :
  heap (fresh_metrics h now) = h ++ [ObjRecord []; ArrAnalysis []; ArrFix []].
Proof. unfold fresh_metrics, alloc. simpl. now rewrite <- !app_assoc. Qed.

Lemma fresh_metrics_refs h now :
  let m := metrics (fresh_metrics h now) in
  featureUsage m = length h
  /\ analysisHistory m = S (length h)
  /\ fixHistory m = S (S (length h)).
Proof.
  unfold fresh_metrics, alloc. simpl. rewrite !length_app. simpl.
  repeat split; lia.
Qed.

Lemma fresh_metrics_lookup h now :
  let w := fresh_metrics h now in
  heap w !! featureUsage (metrics w) = Some (ObjRecord [])
  /\ heap w !! analysisHistory (metrics w) = Some (ArrAnalysis [])
  /\ heap w !! fixHistory (metrics w) = Some (ArrFix []).
Proof.
  cbv zeta. pose proof (fresh_metrics_refs h now) as (E1 & E2 & E3).
  rewrite E1, E2, E3, fresh_metrics_heap.
  repeat split; rewrite lookup_app_r by lia.
  - now replace (length h - length h)%nat with 0%nat by lia.
  - now replace (S (length h) - length h)%nat with 1%nat by lia.
  - now replace (S (S (length h)) - length h)%nat with 2%nat by lia.
Qed.

Lemma fresh_metrics_well_formed h now : well_formed (fresh_metrics h now).
Proof.
  pose proof (fresh_metrics_lookup h now) as (H1 & H2 & H3).
  unfold well_formed. now rewrite H1, H2, H3.
Qed.

Lemma fresh_metrics_empty h now :
  usage (fresh_metrics h now) = []
  /\ analyses (fresh_metrics h now) = []
  /\ fixes (fresh_metrics h now) = [].
Proof.
  pose proof (fresh_metrics_lookup h now) as (H1 & H2 & H3).
  unfold usage, analyses, fixes, props_at, analysis_at, fixes_at.
  now rewrite H1, H2, H3.
Qed.

(** Recording calls keep the tracker's references and the heap typing. *)
Lemma call_refs w c :
  is_recording c = true ->
  featureUsage (metrics (call w c)) = featureUsage (metrics w)
  /\ analysisHistory (metrics (call w c)) = analysisHistory (metrics w)
  /\ fixHistory (metrics (call w c)) = fixHistory (metrics w).
Proof.
  destruct c; simpl; [| | |discriminate]; intros _;
    unfold recordAnalysis, recordFix, recordFeatureUsage, updateModernizationProgress;
    simpl; try (destruct (_ =? 0)); simpl; repeat split; reflexivity.
Qed.

Lemma call_kinds w c :
  is_recording c = true -> kind <$> heap (call w c) = kind <$> heap w.
Proof.
  destruct c; simpl; [| | |discriminate]; intros _.
  - apply kinds_push_analysis.
  - apply kinds_push_fix.
  - rewrite kinds_store_prop. destruct (JS.falsy _); [apply kinds_store_prop | reflexivity].
Qed.

Lemma call_well_formed w c : well_formed w -> well_formed (call w c).
Proof.
  intros (H1 & H2 & H3). destruct (is_recording c) eqn:Hc.
  - destruct (call_refs w c Hc) as (E1 & E2 & E3).
    unfold well_formed. rewrite E1, E2, E3.
    rewrite !(kind_lookup _ _ _ (call_kinds w c Hc)). now repeat split.
  - destruct c; try discriminate. apply fresh_metrics_well_formed.
Qed.

Lemma run_well_formed cs w : well_formed w -> well_formed (run cs w).
Proof.
  apply (run_invariant well_formed (fun _ => True)); [|apply Forall_any].
  intros w' c _. apply call_well_formed.
Qed.

Lemma typed_usage w :
  kind <$> heap w !! featureUsage (metrics w) = Some KRecord ->
  heap w !! featureUsage (metrics w) = Some (ObjRecord (usage w)).
Proof.
  intros H1. unfold usage, props_at.
  now destruct (heap w !! featureUsage (metrics w)) as [[]|].
Qed.

End TrackerFacts.

(** ** Effect of each call *)

Module CallFacts.
Import MetricsTracker Spec TrackerFacts.

Lemma updateModernizationProgress_fields m :
  let m' := updateModernizationProgress m in
  filesAnalyzed m' = filesAnalyzed m
  /\ issuesFound m' = issuesFound m
  /\ fixesApplied m' = fixesApplied m
  /\ modernizationProgress m' = recomputed m.
Proof.
  unfold recomputed, updateModernizationProgress.
  destruct (issuesFound m =? 0); simpl; repeat split; reflexivity.
Qed.

Lemma recomputed_unfold m :
  recomputed m
  = Z.min (if issuesFound m =? 0
           then (if filesAnalyzed m >? 0 then 100 else 0)
           else percent (fixesApplied m) (issuesFound m)) 100.
Proof.
  unfold recomputed, updateModernizationProgress, JS.Math_min, percent.
  destruct (issuesFound m =? 0); reflexivity.
Qed.

(** The progress depends on the three counters only. *)
Lemma recomputed_ext m m' :
  filesAnalyzed m' = filesAnalyzed m ->
  issuesFound m' = issuesFound m ->
  fixesApplied m' = fixesApplied m ->
  recomputed m' = recomputed m.
Proof. intros E1 E2 E3. now rewrite !recomputed_unfold, E1, E2, E3. Qed.

Section RecordAnalysis.
Variables (now : Date) (filePath : string) (issuesCount : Z)
          (language : option string) (w : World).
Let w' := recordAnalysis now filePath issuesCount language w.

Lemma recordAnalysis_counters :
  filesAnalyzed (metrics w') = filesAnalyzed (metrics w) + 1
  /\ issuesFound (metrics w') = issuesFound (metrics w) + issuesCount
  /\ fixesApplied (metrics w') = fixesApplied (metrics w)
  /\ modernizationProgress (metrics w') = recomputed (metrics w').
Proof.
  subst w'. unfold recordAnalysis. cbn [metrics].
  match goal with |- context [updateModernizationProgress ?m] =>
    pose proof (updateModernizationProgress_fields m) as (E1 & E2 & E3 & E4) end.
  rewrite E1, E2, E3, E4. repeat split.
  symmetry. now apply recomputed_ext.
Qed.

Lemma recordAnalysis_containers :
  well_formed w ->
  usage w' = usage w
  /\ fixes w' = fixes w
  /\ exists e, a_issuesCount e = issuesCount /\ analyses w' = analyses w ++ [e].
Proof.
  intros Hwf. pose proof Hwf as (_ & H2 & _).
  destruct (call_refs w (RecordAnalysis now filePath issuesCount language) eq_refl)
    as (E1 & E2 & E3).
  cbn [call] in E1, E2, E3. subst w'. unfold usage, fixes, analyses.
  rewrite E1, E2, E3. unfold recordAnalysis. cbn [heap metrics analysisHistory].
  rewrite props_at_push_analysis, fixes_at_push_analysis.
  repeat split. eexists. split; [|now apply analysis_at_push_analysis]. reflexivity.
Qed.
End RecordAnalysis.

Section RecordFix.
Variables (now : Date) (featureId : string) (fileName : option string) (w : World).
Let w' := recordFix now featureId fileName w.

Lemma recordFix_counters :
  filesAnalyzed (metrics w') = filesAnalyzed (metrics w)
  /\ issuesFound (metrics w') = issuesFound (metrics w)
  /\ fixesApplied (metrics w') = fixesApplied (metrics w) + 1
  /\ modernizationProgress (metrics w') = recomputed (metrics w').
Proof.
  subst w'. unfold recordFix. cbn [metrics].
  match goal with |- context [updateModernizationProgress ?m] =>
    pose proof (updateModernizationProgress_fields m) as (E1 & E2 & E3 & E4) end.
  rewrite E1, E2, E3, E4. repeat split.
  symmetry. now apply recomputed_ext.
Qed.

Lemma recordFix_containers :
  well_formed w ->
  usage w' = usage w
  /\ analyses w' = analyses w
  /\ exists e, fixes w' = fixes w ++ [e].
Proof.
  intros Hwf. pose proof Hwf as (_ & _ & H3).
  destruct (call_refs w (RecordFix now featureId fileName) eq_refl) as (E1 & E2 & E3).
  cbn [call] in E1, E2, E3. subst w'. unfold usage, fixes, analyses.
  rewrite E1, E2, E3. unfold recordFix. cbn [heap metrics fixHistory].
  rewrite props_at_push_fix, analysis_at_push_fix.
  repeat split. eexists. now apply fixes_at_push_fix.
Qed.
End RecordFix.

Section RecordFeatureUsage.
Variables (featureId : string) (count : option Z) (w : World).
Let w' := recordFeatureUsage featureId count w.

Lemma recordFeatureUsage_histories : analyses w' = analyses w /\ fixes w' = fixes w.
Proof.
  subst w'. unfold analyses, fixes, recordFeatureUsage. cbn [heap metrics].
  rewrite analysis_at_store_prop, fixes_at_store_prop.
  destruct (JS.falsy _); [|now split].
  now rewrite analysis_at_store_prop, fixes_at_store_prop.
Qed.

(** The property is created (last) if it is absent, and holds the old
    count, absent read as [0], plus [count]. *)
Lemma recordFeatureUsage_usage :
  kind <$> heap w !! featureUsage (metrics w) = Some KRecord ->
  usage w' = JS.set (usage w) featureId (usage_count w featureId + default 1 count).
Proof.
  intros Hk. pose proof (typed_usage w Hk) as Hu.
  subst w'. unfold usage at 1, recordFeatureUsage. cbn [heap metrics].
  fold (usage w). unfold usage_count.
  assert (Hinit : forall h0,
            h0 = store_prop (heap w) (featureUsage (metrics w)) featureId 0 ->
            JS.get (usage w) featureId = None \/ JS.get (usage w) featureId = Some 0 ->
            props_at
              (store_prop h0 (featureUsage (metrics w)) featureId
                 (default 0 (JS.get (props_at h0 (featureUsage (metrics w))) featureId)
                  + default 1 count))
              (featureUsage (metrics w))
            = JS.set (usage w) featureId
                (default 0 (JS.get (usage w) featureId) + default 1 count)).
  { intros h0 -> Hg.
    pose proof (props_at_store_prop _ _ featureId 0 _ Hu) as E0.
    assert (Hu0 : store_prop (heap w) (featureUsage (metrics w)) featureId 0
                  !! featureUsage (metrics w)
                  = Some (ObjRecord (JS.set (usage w) featureId 0))).
    { unfold store_prop. rewrite Hu.
      now rewrite list_lookup_insert_eq by (eapply lookup_lt_Some; exact Hu). }
    rewrite (props_at_store_prop _ _ _ _ _ Hu0), E0, JSFacts.get_set_eq.
    rewrite JSFacts.set_set. now destruct Hg as [-> | ->]. }
  destruct (JS.get (usage w) featureId) as [n|] eqn:Eg; simpl.
  - destruct (n =? 0) eqn:En.
    + apply Z.eqb_eq in En. subst n. rewrite (Hinit _ eq_refl); auto.
    + rewrite (props_at_store_prop _ _ _ _ _ Hu). fold (usage w). now rewrite Eg.
  - rewrite (Hinit _ eq_refl); auto.
Qed.

(** Without a well-typed [featureUsage] reference nothing is stored. *)
Lemma recordFeatureUsage_untyped :
  kind <$> heap w !! featureUsage (metrics w) <> Some KRecord -> usage w' = usage w.
Proof.
  intros Hk. subst w'. unfold usage, recordFeatureUsage. cbn [heap metrics].
  rewrite !(props_at_store_prop_untyped _ _ _ _ Hk).
  destruct (JS.falsy _); now rewrite ?(props_at_store_prop_untyped _ _ _ _ Hk).
Qed.
End RecordFeatureUsage.

(** Recording an analysis or a fix leaves [featureUsage] alone, in every
    world. *)
Lemma recordAnalysis_usage now filePath issuesCount language w :
  usage (recordAnalysis now filePath issuesCount language w) = usage w.
Proof.
  destruct (call_refs w (RecordAnalysis now filePath issuesCount language) eq_refl)
    as (E & _).
  cbn [call] in E. unfold usage. rewrite E. unfold recordAnalysis. cbn [heap].
  apply props_at_push_analysis.
Qed.

Lemma recordFix_usage now featureId fileName w :
  usage (recordFix now featureId fileName w) = usage w.
Proof.
  destruct (call_refs w (RecordFix now featureId fileName) eq_refl) as (E & _).
  cbn [call] in E. unfold usage. rewrite E. unfold recordFix. cbn [heap].
  apply props_at_push_fix.
Qed.

End CallFacts.

(** ** Invariants of sessions *)

Module SessionFacts.
Import MetricsTracker Spec TrackerFacts CallFacts.

Lemma sum_issues_snoc l e : sum_issues (l ++ [e]) = sum_issues l + a_issuesCount e.
Proof.
  unfold sum_issues. induction l as [|x l IH]; simpl; [lia|]. rewrite IH. lia.
Qed.

Lemma fresh_metrics_coherent h now : coherent (fresh_metrics h now).
Proof.
  pose proof (fresh_metrics_empty h now) as (_ & Ea & Ef).
  unfold coherent. now rewrite Ea, Ef.
Qed.

Lemma call_coherent w c : well_formed w -> coherent w -> coherent (call w c).
Proof.
  intros Hwf (Hfiles & Hfixes & Hissues).
  destruct c as [now fp n lang|now fid fn|fid cnt|now]; cbn [call].
  - destruct (recordAnalysis_counters now fp n lang w) as (E1 & E2 & E3 & _).
    destruct (recordAnalysis_containers now fp n lang w Hwf) as (_ & Ef & e & He & Ea).
    unfold coherent. rewrite E1, E2, E3, Ef, Ea, length_app, sum_issues_snoc, He.
    simpl. repeat split; lia.
  - destruct (recordFix_counters now fid fn w) as (E1 & E2 & E3 & _).
    destruct (recordFix_containers now fid fn w Hwf) as (_ & Ea & e & Ef).
    unfold coherent. rewrite E1, E2, E3, Ef, Ea, length_app.
    simpl. repeat split; lia.
  - destruct (recordFeatureUsage_histories fid cnt w) as (Ea & Ef).
    unfold coherent. rewrite Ea, Ef. now repeat split.
  - apply fresh_metrics_coherent.
Qed.

Lemma run_coherent cs w : well_formed w -> coherent w -> coherent (run cs w).
Proof.
  intros Hwf Hc.
  enough (well_formed (run cs w) /\ coherent (run cs w)) by tauto.
  apply (run_invariant (fun w => well_formed w /\ coherent w) (fun _ => True));
    [|apply Forall_any|now split].
  intros w' c _ [Hwf' Hc']. split; [now apply call_well_formed | now apply call_coherent].
Qed.

Lemma fresh_metrics_up_to_date h now : up_to_date (fresh_metrics h now).
Proof. reflexivity. Qed.

Lemma call_up_to_date w c : up_to_date w -> up_to_date (call w c).
Proof.
  intros Hw. destruct c as [now fp n lang|now fid fn|fid cnt|now]; cbn [call].
  - now destruct (recordAnalysis_counters now fp n lang w) as (_ & _ & _ & E).
  - now destruct (recordFix_counters now fid fn w) as (_ & _ & _ & E).
  - exact Hw.
  - apply fresh_metrics_up_to_date.
Qed.

Lemma call_counts w c : valid_call c -> counts w -> counts (call w c).
Proof.
  intros Hc (H1 & H2 & H3 & H4).
  destruct c as [now fp n lang|now fid fn|fid cnt|now]; cbn [call]; unfold counts.
  - destruct (recordAnalysis_counters now fp n lang w) as (E1 & E2 & E3 & _).
    rewrite E1, E2, E3. simpl in Hc. repeat split; lia.
  - destruct (recordFix_counters now fid fn w) as (E1 & E2 & E3 & _).
    rewrite E1, E2, E3. repeat split; lia.
  - now repeat split.
  - simpl. repeat split; lia.
Qed.

Lemma recomputed_formula m :
  0 <= filesAnalyzed m -> 0 <= issuesFound m -> 0 <= fixesApplied m ->
  (filesAnalyzed m = 0 -> issuesFound m = 0) ->
  recomputed m = progress_formula m.
Proof.
  intros H1 H2 H3 H4. rewrite recomputed_unfold. unfold progress_formula, clamp.
  destruct (issuesFound m =? 0) eqn:Ei.
  - apply Z.eqb_eq in Ei. rewrite andb_true_r.
    destruct (filesAnalyzed m >? 0) eqn:Ef; [reflexivity|].
    assert (filesAnalyzed m = 0) as -> by lia. reflexivity.
  - apply Z.eqb_neq in Ei. rewrite andb_false_r.
    assert (Hf : filesAnalyzed m <> 0) by (intros E; apply Ei; now apply H4).
    apply Z.eqb_neq in Hf. rewrite Hf.
    pose proof (JSFacts.percent_nonneg (fixesApplied m) (issuesFound m)) as Hp.
    fold (percent (fixesApplied m) (issuesFound m)) in Hp. lia.
Qed.

End SessionFacts.

(** ** The most used features *)

Module MostUsedFacts.
Import MetricsTracker Spec TrackerFacts CallFacts SortFacts.

Lemma get_None_existsb {V} (ps : list (string * V)) (k : string) :
  JS.get ps k = None <-> existsb (String.eqb k) (map fst ps) = false.
Proof.
  induction ps as [|[k0 v0] ps IH]; simpl.
  - tauto.
  - rewrite (String.eqb_sym k k0). destruct (String.eqb k0 k); simpl.
    + split; discriminate.
    + exact IH.
Qed.

(** The keys of [featureUsage] follow the calls. *)
Lemma call_keys w c :
  well_formed w -> map fst (usage (call w c)) = note_key (map fst (usage w)) c.
Proof.
  intros Hwf. destruct c as [now fp n lang|now fid fn|fid cnt|now]; cbn [call note_key].
  - now destruct (recordAnalysis_containers now fp n lang w Hwf) as (-> & _).
  - now destruct (recordFix_containers now fid fn w Hwf) as (-> & _).
  - rewrite (recordFeatureUsage_usage fid cnt w (proj1 Hwf)), JSFacts.keys_set.
    destruct (JS.get (usage w) fid) eqn:E.
    + destruct (existsb _ _) eqn:Ex; [reflexivity|].
      apply get_None_existsb in Ex. congruence.
    + apply get_None_existsb in E. now rewrite E.
  - unfold reset. now destruct (fresh_metrics_empty (heap w) now) as (-> & _).
Qed.

Lemma run_keys cs w :
  well_formed w -> map fst (usage (run cs w)) = fold_left note_key cs (map fst (usage w)).
Proof.
  revert w. induction cs as [|c cs IH]; intros w Hwf; simpl.
  - reflexivity.
  - rewrite IH by now apply call_well_formed. now rewrite call_keys.
Qed.

Lemma session_keys h now cs :
  map fst (usage (run cs (constructor h now))) = first_recorded cs.
Proof.
  rewrite run_keys by apply fresh_metrics_well_formed.
  unfold constructor. now destruct (fresh_metrics_empty h now) as (-> & _).
Qed.

Lemma note_key_NoDup keys c : NoDup keys -> NoDup (note_key keys c).
Proof.
  intros Hnd. destruct c as [| |fid cnt|]; cbn [note_key]; try assumption.
  - destruct (existsb _ _) eqn:E; [assumption|].
    apply NoDup_app. split; [assumption|]. split; [|apply NoDup_singleton].
    intros x Hx Hx'. apply list_elem_of_In in Hx. apply list_elem_of_In in Hx'.
    destruct Hx' as [<-|[]].
    assert (Ht : existsb (String.eqb fid) keys = true)
      by (apply existsb_exists; exists fid; split; [assumption | apply String.eqb_refl]).
    congruence.
  - constructor.
Qed.

Lemma first_recorded_NoDup cs : NoDup (first_recorded cs).
Proof.
  unfold first_recorded. generalize (NoDup_nil_2 (A := string)).
  generalize (@nil string). induction cs as [|c cs IH]; intros keys Hnd; simpl.
  - exact Hnd.
  - apply IH. now apply note_key_NoDup.
Qed.

Lemma pair_of_entry (l : list (string * Z)) : map pair_of (map entry l) = l.
Proof.
  induction l as [|[k v] l IH]; simpl; [reflexivity|]. now rewrite IH.
Qed.

Section Result.
Variable w : World.
Let entries := map entry (JS.Object_entries (usage w)).
Let sorted := JS.sort (fun a b => count b - count a) entries.

Lemma getMostUsedFeatures_unfold : getMostUsedFeatures w = firstn 10 sorted.
Proof. reflexivity. Qed.

Lemma sorted_Permutation : Permutation sorted (map entry (usage w)).
Proof.
  subst sorted entries. rewrite sort_Permutation.
  apply Permutation_map. apply EntriesFacts.Object_entries_Permutation.
Qed.

Lemma getMostUsedFeatures_length :
  length (getMostUsedFeatures w) = Nat.min 10 (length (usage w)).
Proof.
  rewrite getMostUsedFeatures_unfold, length_firstn.
  now rewrite (Permutation_length sorted_Permutation), length_map.
Qed.

Lemma getMostUsedFeatures_sorted :
  StronglySorted (fun a b => count a >= count b) (getMostUsedFeatures w).
Proof.
  rewrite getMostUsedFeatures_unfold.
  apply (sorted_firstn count). apply (sort_sorted count).
Qed.

Lemma getMostUsedFeatures_In a :
  In a (getMostUsedFeatures w) -> In (pair_of a) (usage w).
Proof.
  rewrite getMostUsedFeatures_unfold. intros Ha. apply In_firstn in Ha.
  apply (Permutation_in _ sorted_Permutation) in Ha.
  apply in_map_iff in Ha as ([k v] & <- & Hin). exact Hin.
Qed.

Lemma getMostUsedFeatures_top k v a :
  In (k, v) (usage w) ->
  ~ In {| feature := k; count := v |} (getMostUsedFeatures w) ->
  In a (getMostUsedFeatures w) -> count a >= v.
Proof.
  rewrite getMostUsedFeatures_unfold. intros Hin Hout Ha.
  assert (Hs : In (entry (k, v)) sorted).
  { apply (Permutation_in _ (Permutation_sym sorted_Permutation)). now apply in_map. }
  rewrite <- (firstn_skipn 10 sorted) in Hs. apply in_app_or in Hs as [Hs|Hs].
  - now destruct Hout.
  - exact (sorted_firstn_skipn count 10 sorted a _ (sort_sorted count entries) Ha Hs).
Qed.

(** Ties keep the order of [Object.entries]. *)
Lemma getMostUsedFeatures_ties a b :
  before (getMostUsedFeatures w) a b -> count a = count b ->
  before (JS.Object_entries (usage w)) (pair_of a) (pair_of b).
Proof.
  rewrite getMostUsedFeatures_unfold. intros Hb Hc.
  apply before_firstn in Hb. apply sort_stable in Hb; [|lia].
  apply (before_map pair_of) in Hb. subst entries.
  now rewrite pair_of_entry in Hb.
Qed.
End Result.

End MostUsedFacts.

(** ** Sessions, call by call *)

Module SessionStepFacts.
Import MetricsTracker Spec TrackerFacts CallFacts.

(** The count of a feature follows the calls. *)
Lemma call_usage_count w c featureId :
  well_formed w ->
  usage_count (call w c) featureId = note_count featureId (usage_count w featureId) c.
Proof.
  intros Hwf. destruct c as [now fp n lang|now fid fn|fid cnt|now];
    cbn [call note_count]; unfold usage_count.
  - now rewrite recordAnalysis_usage.
  - now rewrite recordFix_usage.
  - rewrite (recordFeatureUsage_usage fid cnt w (proj1 Hwf)), JSFacts.get_set.
    destruct (String.eqb fid featureId) eqn:E; [|reflexivity].
    apply String.eqb_eq in E. now subst fid.
  - unfold reset. now destruct (fresh_metrics_empty (heap w) now) as (-> & _).
Qed.

Lemma run_usage_count cs w featureId :
  well_formed w ->
  usage_count (run cs w) featureId
  = fold_left (note_count featureId) cs (usage_count w featureId).
Proof.
  revert w. induction cs as [|c cs IH]; intros w Hwf; simpl; [reflexivity|].
  rewrite IH by now apply call_well_formed. now rewrite call_usage_count.
Qed.

(** The two time stamps follow the calls. *)
Lemma call_times w c :
  sessionStartTime (metrics (call w c)) = note_start (sessionStartTime (metrics w)) c
  /\ lastAnalysis (metrics (call w c)) = note_analysis (lastAnalysis (metrics w)) c.
Proof.
  destruct c; cbn [call note_start note_analysis];
    unfold recordAnalysis, recordFix, recordFeatureUsage, updateModernizationProgress;
    cbn [metrics]; try (destruct (_ =? 0)); split; reflexivity.
Qed.

Lemma run_times cs w :
  sessionStartTime (metrics (run cs w)) = fold_left note_start cs (sessionStartTime (metrics w))
  /\ lastAnalysis (metrics (run cs w)) = fold_left note_analysis cs (lastAnalysis (metrics w)).
Proof.
  revert w. induction cs as [|c cs IH]; intros w; simpl; [now split|].
  destruct (IH (call w c)) as [-> ->]. now destruct (call_times w c) as [-> ->].
Qed.

(** Invariants of sessions of valid calls. *)
Lemma reachable_valid h now cs :
  Forall valid_call cs ->
  up_to_date (run cs (constructor h now)) /\ counts (run cs (constructor h now)).
Proof.
  intros Hvalid.
  apply (run_invariant (fun w => up_to_date w /\ counts w) valid_call).
  - intros w c Hc [Hu Hn]. split.
    + now apply SessionFacts.call_up_to_date.
    + now apply SessionFacts.call_counts.
  - exact Hvalid.
  - split; [reflexivity|]. unfold counts. simpl. repeat split; lia.
Qed.

End SessionStepFacts.

(** ** The ranking of the recorded features *)

Module RankingFacts.
Import MetricsTracker Spec TrackerFacts SortFacts.

Section Lists.
Context {A : Type}.
Implicit Types (l : list A) (a b : A).

Lemma StronglySorted_before (R : A -> A -> Prop) l a b :
  StronglySorted R l -> before l a b -> R a b.
Proof.
  induction l as [|y l IH]; intros Hs Hb.
  - now apply before_nil in Hb.
  - apply StronglySorted_inv in Hs as [Hs Hy].
    apply before_cons in Hb as [[-> Hin]|Hb].
    + rewrite Forall_forall in Hy. apply Hy. now apply list_elem_of_In.
    + now apply IH.
Qed.

Lemma before_StronglySorted (R : A -> A -> Prop) l :
  (forall a b, before l a b -> R a b) -> StronglySorted R l.
Proof.
  induction l as [|y l IH]; intros H; constructor.
  - apply IH. intros a b Hb. apply H. apply before_cons. now right.
  - apply Forall_forall. intros b Hb. apply H. apply before_cons. left.
    split; [reflexivity | now apply list_elem_of_In].
Qed.

Lemma before_NoDup l a b : NoDup l -> before l a b -> ~ before l b a.
Proof.
  intros Hnd Hab Hba.
  apply before_lookup in Hab as (i & j & Hij & Hi & Hj).
  apply before_lookup in Hba as (i' & j' & Hij' & Hi' & Hj').
  pose proof (NoDup_lookup _ _ _ _ Hnd Hi Hj') as E1.
  pose proof (NoDup_lookup _ _ _ _ Hnd Hj Hi') as E2. lia.
Qed.

Lemma before_map_inv {B} (f : A -> B) l (x y : B) :
  before (map f l) x y -> exists a b, f a = x /\ f b = y /\ before l a b.
Proof.
  intros (l1 & l2 & l3 & H).
  apply map_eq_app in H as (k1 & k23 & -> & <- & H).
  destruct k23 as [|a k23]; [discriminate|]. simpl in H. injection H as <- H.
  apply map_eq_app in H as (k2 & k3 & -> & <- & H).
  destruct k3 as [|b k3]; [discriminate|]. simpl in H. injection H as <- <-.
  exists a, b. split; [reflexivity|]. split; [reflexivity|]. now exists k1, k2, k3.
Qed.
End Lists.

Section Keys.
Context {V W : Type} (f : V -> W).
Implicit Types (props : list (string * V)).
Let g (e : string * V) : string * W := (e.1, f e.2).

Lemma insert_by_index_map (e : string * V) props :
  JS.insert_by_index (g e) (map g props) = map g (JS.insert_by_index e props).
Proof.
  induction props as [|e' props IH]; simpl; [reflexivity|].
  destruct (JS.index_of e'.1 <? JS.index_of e.1)%N; simpl; [now rewrite IH | reflexivity].
Qed.

Lemma filter_index_map (b : bool) props :
  filter (fun e : string * W => JS.is_array_index e.1 = b) (map g props)
  = map g (filter (fun e : string * V => JS.is_array_index e.1 = b) props).
Proof.
  induction props as [|e props IH]; [reflexivity|].
  cbn [map]. rewrite !filter_cons.
  destruct (decide (JS.is_array_index (g e).1 = b)) as [H|H];
    destruct (decide (JS.is_array_index e.1 = b)) as [H'|H']; simpl in H;
    try congruence; simpl; now rewrite IH.
Qed.

Lemma Object_entries_map props :
  JS.Object_entries (map g props) = map g (JS.Object_entries props).
Proof.
  unfold JS.Object_entries. rewrite !filter_index_map, map_app. f_equal.
  induction (filter (fun e : string * V => JS.is_array_index e.1 = true) props)
    as [|e l IH]; [reflexivity|].
  simpl. now rewrite IH, insert_by_index_map.
Qed.
End Keys.

(** The order of the keys does not depend on the values. *)
Lemma property_order_keys {V} (props : list (string * V)) :
  property_order (map fst props) = map fst (JS.Object_entries props).
Proof.
  unfold property_order. rewrite map_map.
  rewrite (Object_entries_map (fun _ : V => tt) props), map_map. reflexivity.
Qed.

Lemma property_order_Permutation (keys : list string) :
  Permutation (property_order keys) keys.
Proof.
  unfold property_order. rewrite EntriesFacts.Object_entries_Permutation, map_map.
  simpl. now rewrite map_id.
Qed.

Lemma property_order_before (keys : list string) (a b : string) :
  before (property_order keys) a b ->
  (JS.is_array_index a = true /\ JS.is_array_index b = true
   /\ (JS.index_of a <= JS.index_of b)%N)
  \/ (JS.is_array_index a = true /\ JS.is_array_index b = false)
  \/ (JS.is_array_index a = false /\ JS.is_array_index b = false /\ before keys a b).
Proof.
  unfold property_order. intros Hb.
  apply before_map_inv in Hb as ([ka []] & [kb []] & Ha & Hb' & Hb).
  simpl in Ha, Hb'. subst ka kb.
  apply EntriesFacts.Object_entries_order in Hb as [H|[H|(Ha & Hb' & H)]];
    [now left | now right; left | right; right].
  split; [exact Ha|]. split; [exact Hb'|].
  apply (before_map fst) in H. rewrite map_map in H. simpl in H.
  now rewrite map_id in H.
Qed.

Lemma property_order_plain (keys : list string) :
  Forall (fun k => JS.is_array_index k = false) keys -> property_order keys = keys.
Proof.
  intros Hplain. unfold property_order.
  rewrite EntriesFacts.Object_entries_plain.
  - rewrite map_map. simpl. apply map_id.
  - apply Forall_forall. intros e He. apply list_elem_of_In, in_map_iff in He as (k & <- & Hk).
    rewrite Forall_forall in Hplain. apply Hplain. now apply list_elem_of_In.
Qed.

(** Properties with distinct keys are their keys with the values read
    under them. *)
Lemma props_by_keys (ps : list (string * Z)) :
  NoDup (map fst ps) ->
  ps = map (fun k => (k, default 0 (JS.get ps k))) (map fst ps).
Proof.
  intros Hnd. rewrite map_map.
  rewrite <- (map_id ps) at 1. apply map_ext_in. intros [k v] Hin.
  simpl. now rewrite (JSFacts.In_get ps k v Hnd Hin).
Qed.

(** [featureUsage] in a session: the recorded features with their totals. *)
Lemma session_usage h now cs :
  map entry (usage (run cs (constructor h now))) = recorded_pairs cs.
Proof.
  pose proof (MostUsedFacts.session_keys h now cs) as Hkeys.
  assert (Hnd : NoDup (map fst (usage (run cs (constructor h now)))))
    by (rewrite Hkeys; apply MostUsedFacts.first_recorded_NoDup).
  rewrite (props_by_keys _ Hnd), Hkeys, map_map. unfold recorded_pairs.
  apply map_ext. intros k. unfold entry. simpl. f_equal.
  fold (usage_count (run cs (constructor h now)) k).
  rewrite SessionStepFacts.run_usage_count by apply fresh_metrics_well_formed.
  unfold usage_count, constructor.
  now destruct (fresh_metrics_empty h now) as (-> & _).
Qed.

(** What [getMostUsedFeatures] sorts is a ranking. *)
Lemma session_ranking h now cs :
  let w := run cs (constructor h now) in
  ranking cs (JS.sort (fun a b => count b - count a)
                (map entry (JS.Object_entries (usage w)))).
Proof.
  intros w. split; [|split].
  - rewrite (MostUsedFacts.sorted_Permutation w). apply Permutation_refl'.
    apply session_usage.
  - apply (sort_sorted count).
  - intros a b Hb Hc. apply sort_stable in Hb; [|lia].
    apply (before_map feature) in Hb. rewrite map_map in Hb.
    rewrite <- (MostUsedFacts.session_keys h now cs).
    fold w. rewrite property_order_keys. exact Hb.
Qed.

(** There is one ranking. *)
Lemma ranking_unique cs l l' : ranking cs l -> ranking cs l' -> l = l'.
Proof.
  intros (Hp & Hs & Ht) (Hp' & Hs' & Ht').
  set (ord := property_order (first_recorded cs)) in *.
  assert (Hnd : NoDup ord).
  { unfold ord. rewrite property_order_Permutation.
    apply MostUsedFacts.first_recorded_NoDup. }
  set (R := fun a b : FeatureCount =>
              count a >= count b
              /\ (count a = count b -> before ord (feature a) (feature b))).
  apply (StronglySorted_unique_strong R).
  - intros x y _ _ [Hxy Hxy'] [Hyx Hyx'].
    assert (Hc : count x = count y) by lia.
    destruct (before_NoDup ord (feature x) (feature y)); auto.
  - apply before_StronglySorted. intros a b Hb. split.
    + exact (StronglySorted_before _ _ _ _ Hs Hb).
    + now apply Ht.
  - apply before_StronglySorted. intros a b Hb. split.
    + exact (StronglySorted_before _ _ _ _ Hs' Hb).
    + now apply Ht'.
  - now rewrite Hp, Hp'.
Qed.

Lemma ranking_length cs l : ranking cs l -> length l = length (first_recorded cs).
Proof.
  intros (Hp & _). rewrite (Permutation_length Hp). unfold recorded_pairs.
  apply length_map.
Qed.

End RankingFacts.

(** * Properties of the program *)

Import MetricsTracker Spec.

(** C1 (as stated): in every reachable state the progress is [100] if and
    only if files were analysed and no issue was found.  This fails: one
    analysed file with one issue and one recorded fix gives progress [100]
    with [issuesFound = 1]. *)
Lemma progress_100_with_issues :
  ~ (forall h now cs, Forall valid_call cs ->
       progress_100_exactly_without_issues (metrics (run cs (constructor h now)))).
Proof.
  intros H.
  specialize (H [] 0
    [RecordAnalysis 0 "a.js" 1 (Some "javascript"); RecordFix 0 "let-const" None]).
  destruct H as [[Himp _] _].
  - repeat constructor. simpl. lia.
  - assert (Hp : modernizationProgress
                   (metrics (run [RecordAnalysis 0 "a.js" 1 (Some "javascript");
                                  RecordFix 0 "let-const" None] (constructor [] 0)))
                 = 100) by (vm_compute; reflexivity).
    destruct (Himp Hp) as [_ Hi]. vm_compute in Hi. discriminate.
Qed.

(** C1 (amended): in every state reached from construction by calls with
    non-negative issue counts (resets included), the progress is [100] if
    files were analysed and no issue was found, else [0] if no file was
    analysed, else the rounded fix percentage clamped to [0, 100]; it lies
    in [0, 100]; and it equals [100] exactly when files were analysed
    without issues or the rounded fix percentage of a positive issue count
    reaches [100].  The rounded fix percentage is [Math.round] of the
    binary64 number [(fixesApplied / issuesFound) * 100], in which the
    quotient and the product are rounded to 53 bits: 23 fixes of 40 issues
    give [57], not the [58] of the exact value 57.5. *)
Theorem progress_closed_form (h : Heap) (now : Date) (cs : list Call) :
  Forall valid_call cs ->
  let m := metrics (run cs (constructor h now)) in
  modernizationProgress m = progress_formula m
  /\ 0 <= modernizationProgress m <= 100
  /\ (modernizationProgress m = 100 <->
      (filesAnalyzed m > 0 /\ issuesFound m = 0)
      \/ (issuesFound m > 0 /\ percent (fixesApplied m) (issuesFound m) >= 100)).
Proof.
  intros Hvalid m.
  assert (Hinv : up_to_date (run cs (constructor h now))
                 /\ counts (run cs (constructor h now))).
  { apply (TrackerFacts.run_invariant (fun w => up_to_date w /\ counts w) valid_call).
    - intros w c Hc [Hu Hn]. split.
      + now apply SessionFacts.call_up_to_date.
      + now apply SessionFacts.call_counts.
    - exact Hvalid.
    - split; [reflexivity|]. unfold counts. simpl. repeat split; lia. }
  destruct Hinv as [Hu (H1 & H2 & H3 & H4)]. unfold up_to_date in Hu.
  fold m in Hu, H1, H2, H3, H4. clearbody m.
  assert (Hf : modernizationProgress m = progress_formula m).
  { rewrite Hu. now apply SessionFacts.recomputed_formula. }
  split; [exact Hf|]. rewrite Hf. unfold progress_formula, clamp.
  pose proof (JSFacts.percent_nonneg (fixesApplied m) (issuesFound m)) as Hp.
  fold (percent (fixesApplied m) (issuesFound m)) in Hp.
  destruct (filesAnalyzed m >? 0) eqn:Ef, (issuesFound m =? 0) eqn:Ei; cbn [andb].
  - apply Z.eqb_eq in Ei. split; [lia|]. split; [intros _; left; lia | reflexivity].
  - apply Z.eqb_neq in Ei.
    assert (Hz : (filesAnalyzed m =? 0) = false) by (apply Z.eqb_neq; lia).
    rewrite Hz. split; [lia|]. split.
    + intros Hc. right. lia.
    + intros [[_ Hc]|[_ Hc]]; lia.
  - apply Z.eqb_eq in Ei.
    assert (Hz : (filesAnalyzed m =? 0) = true) by (apply Z.eqb_eq; lia).
    rewrite Hz. split; [lia|]. split; [discriminate|]. intros [[Hc _]|[Hc _]]; lia.
  - apply Z.eqb_neq in Ei.
    assert (Hz : (filesAnalyzed m =? 0) = true) by (apply Z.eqb_eq; lia).
    rewrite Hz. split; [lia|]. split; [discriminate|].
    intros [[Hc _]|[Hc _]]; [lia|]. exfalso. apply Ei. apply H4. lia.
Qed.

(** One file with 40 issues and 23 fixes: the quotient is the binary64
    number next to 0.575, its product with 100 lies below 57.5, and the
    progress is [57]. *)
Lemma progress_closed_form_witness :
  let cs := RecordAnalysis 1 "a.js" 40 (Some "javascript")
            :: repeat (RecordFix 2 "let-const" None) 23 in
  let m := metrics (run cs (constructor [] 0)) in
  Forall valid_call cs
  /\ modernizationProgress m = 57
  /\ exact_percent 23 40 = 58
  /\ modernizationProgress m = progress_formula m.
Proof.
  intros cs m.
  assert (Hvalid : Forall valid_call cs) by (repeat constructor; simpl; lia).
  split; [exact Hvalid|]. split; [vm_compute; reflexivity|].
  split; [vm_compute; reflexivity|].
  exact (proj1 (progress_closed_form [] 0 cs Hvalid)).
Defined.

(** C10: the counters agree with the histories.  At construction, and after
    every call made in a well-formed coherent state, and hence in every
    state reached from construction by any sequence of calls,
    [filesAnalyzed] is the length of [analysisHistory], [fixesApplied] the
    length of [fixHistory], and [issuesFound] the sum of the recorded
    [issuesCount]s. *)
Theorem counters_match_histories :
  (forall h now, coherent (constructor h now))
  /\ (forall w c, well_formed w -> coherent w -> coherent (call w c))
  /\ (forall h now cs, coherent (run cs (constructor h now))).
Proof.
  split; [|split].
  - apply SessionFacts.fresh_metrics_coherent.
  - apply SessionFacts.call_coherent.
  - intros h now cs. apply SessionFacts.run_coherent.
    + apply TrackerFacts.fresh_metrics_well_formed.
    + apply SessionFacts.fresh_metrics_coherent.
Qed.

Lemma counters_match_histories_witness :
  let w := run [RecordAnalysis 1 "src/app.js" 3 None; RecordFix 2 "fetch" None]
             (constructor [] 0) in
  well_formed w /\ coherent w
  /\ coherent (call w (RecordAnalysis 3 "src/styles.css" 2 None)).
Proof.
  intros w.
  assert (Hwf : well_formed w) by (repeat split; reflexivity).
  assert (Hc : coherent w) by (repeat split; reflexivity).
  split; [exact Hwf|]. split; [exact Hc|].
  exact (proj1 (proj2 counters_match_histories) w _ Hwf Hc).
Defined.

(** C6 (as stated): every recording call, with any integer count, leaves
    every per-feature count at least as large as before.  This fails for a
    negative count: after [recordFeatureUsage("var", 3)], the call
    [recordFeatureUsage("var", -2)] lowers the count of ["var"] from [3]
    to [1]. *)
Lemma usage_decreases_on_negative_count :
  ~ usage_never_decreases.
Proof.
  intros H.
  specialize (H [] 0 [RecordFeatureUsage "var" (Some 3)]
                (RecordFeatureUsage "var" (Some (-2))) "var" eq_refl).
  vm_compute in H. now apply H.
Qed.

(** C6 (amended): for every feature identifier that is no property name of
    [Object.prototype], a recording call whose count is not negative (the
    default count is [1]) leaves the count of that feature, absent read as
    [0], at least as large as before; in a state reached from construction
    the count of the recorded feature grows by exactly the count passed and
    the other counts are unchanged. *)
Theorem usage_monotone (w : World) (c : Call) (featureId : string) :
  own_name featureId ->
  is_recording c = true ->
  0 <= added_count c ->
  usage_count w featureId <= usage_count (call w c) featureId
  /\ (forall h now cs, w = run cs (constructor h now) ->
      usage_count (call w c) featureId
      = usage_count w featureId
        + match c with
          | RecordFeatureUsage k _ =>
              if String.eqb k featureId then added_count c else 0
          | _ => 0
          end).
Proof.
  intros _ Hrec Hcount.
  assert (Hstep :
    kind <$> heap w !! featureUsage (metrics w) = Some KRecord ->
    usage_count (call w c) featureId
    = usage_count w featureId
      + match c with
        | RecordFeatureUsage k _ =>
            if String.eqb k featureId then added_count c else 0
        | _ => 0
        end).
  { intros Hk. destruct c as [now fp n lang|now fid fn|fid cnt|now]; try discriminate;
      cbn [call]; unfold usage_count.
    - rewrite CallFacts.recordAnalysis_usage. lia.
    - rewrite CallFacts.recordFix_usage. lia.
    - rewrite (CallFacts.recordFeatureUsage_usage fid cnt w Hk), JSFacts.get_set.
      cbn [added_count]. destruct (String.eqb fid featureId) eqn:E.
      + apply String.eqb_eq in E. subst fid. reflexivity.
      + lia. }
  split.
  - assert (Hdec : kind <$> heap w !! featureUsage (metrics w) = Some KRecord
                   \/ kind <$> heap w !! featureUsage (metrics w) <> Some KRecord).
    { destruct (kind <$> heap w !! featureUsage (metrics w)) as [[]|];
        (now left) || (right; discriminate). }
    destruct Hdec as [Hk|Hk].
    + rewrite (Hstep Hk). destruct c; try lia. destruct (String.eqb _ _); lia.
    + destruct c as [now fp n lang|now fid fn|fid cnt|now]; try discriminate;
        cbn [call]; unfold usage_count.
      * rewrite CallFacts.recordAnalysis_usage. lia.
      * rewrite CallFacts.recordFix_usage. lia.
      * rewrite (CallFacts.recordFeatureUsage_untyped fid cnt w Hk). lia.
  - intros h now cs ->. apply Hstep.
    apply (TrackerFacts.run_well_formed cs (constructor h now)).
    apply TrackerFacts.fresh_metrics_well_formed.
Qed.

(** Scenario D of the specification: [("var", 3)] then [("var", 2)] gives
    [5]. *)
Lemma usage_monotone_witness :
  let w := run [RecordFeatureUsage "var" (Some 3)] (constructor [] 0) in
  let c := RecordFeatureUsage "var" (Some 2) in
  own_name "var"
  /\ usage_count w "var" = 3
  /\ usage_count (call w c) "var" = 5
  /\ usage_count w "var" <= usage_count (call w c) "var".
Proof.
  intros w c. split; [reflexivity|]. split; [reflexivity|]. split; [reflexivity|].
  apply (usage_monotone w c "var"); [reflexivity | reflexivity | simpl; lia].
Defined.

(** C4 (as stated): pairs with equal counts are returned in the order in
    which their features were first recorded.  This fails for identifiers
    that are array indices: after recording ["2"] and then ["1"] once each,
    the result lists ["1"] before ["2"]. *)
Lemma ties_reordered_for_index_keys :
  ~ ties_in_first_recorded_order.
Proof.
  intros H.
  specialize (H [] 0 [RecordFeatureUsage "2" None; RecordFeatureUsage "1" None]
                {| feature := "1"; count := 1 |} {| feature := "2"; count := 1 |}).
  assert (Hb : before ["2"; "1"] "1" "2").
  { apply H; [|reflexivity]. now exists [], [], []. }
  apply SortFacts.before_cons in Hb as [[Hne _]|Hb]; [discriminate|].
  apply SortFacts.before_cons in Hb as [[_ []]|Hb].
  now apply SortFacts.before_nil in Hb.
Qed.

(** C4 (amended): in every state reached from construction by calls that
    record no property name of [Object.prototype], [getMostUsedFeatures]
    returns the first 10 entries (all of them when fewer features were
    recorded) of the one ranking of the recorded features: the list of the
    features recorded since the last reset, each with the sum of the counts
    recorded for it, in descending order of count, and among equal counts
    in the order of [Object.entries].  That order puts array-index
    identifiers first, in ascending numeric order, and then the other
    identifiers in the order in which they were first recorded; so when no
    recorded identifier is an array index it is the first-recorded order. *)
Theorem most_used_features (h : Heap) (now : Date) (cs : list Call) :
  Forall own_name (first_recorded cs) ->
  let w := run cs (constructor h now) in
  let r := getMostUsedFeatures w in
  exists ranked,
    r = firstn 10 ranked
    /\ ranking cs ranked
    /\ (forall l, ranking cs l -> l = ranked)
    /\ length r = Nat.min 10 (length (first_recorded cs))
    /\ Permutation (property_order (first_recorded cs)) (first_recorded cs)
    /\ (forall a b,
          before (property_order (first_recorded cs)) a b ->
          (JS.is_array_index a = true /\ JS.is_array_index b = true
           /\ (JS.index_of a <= JS.index_of b)%N)
          \/ (JS.is_array_index a = true /\ JS.is_array_index b = false)
          \/ (JS.is_array_index a = false /\ JS.is_array_index b = false
              /\ before (first_recorded cs) a b))
    /\ (Forall (fun k => JS.is_array_index k = false) (first_recorded cs) ->
        property_order (first_recorded cs) = first_recorded cs).
Proof.
  intros _ w r.
  pose proof (RankingFacts.session_ranking h now cs) as Hranking.
  cbv zeta in Hranking. fold w in Hranking.
  exists (JS.sort (fun a b => count b - count a)
            (map entry (JS.Object_entries (usage w)))).
  split; [apply MostUsedFacts.getMostUsedFeatures_unfold|].
  split; [exact Hranking|].
  split; [intros l Hl; exact (RankingFacts.ranking_unique cs _ _ Hl Hranking)|].
  split.
  { unfold r. rewrite MostUsedFacts.getMostUsedFeatures_unfold, length_firstn.
    now rewrite (RankingFacts.ranking_length cs _ Hranking). }
  split; [apply RankingFacts.property_order_Permutation|].
  split; [apply RankingFacts.property_order_before|].
  apply RankingFacts.property_order_plain.
Qed.

(** Eleven features, the last one recorded twice and the others once: the
    last one comes first, then the first nine in first-recorded order, and
    the tenth, ["j"], is cut. *)
Lemma most_used_features_witness :
  let cs := [RecordFeatureUsage "a" None; RecordFeatureUsage "b" None;
             RecordFeatureUsage "c" None; RecordFeatureUsage "d" None;
             RecordFeatureUsage "e" None; RecordFeatureUsage "f" None;
             RecordFeatureUsage "g" None; RecordFeatureUsage "h" None;
             RecordFeatureUsage "i" None; RecordFeatureUsage "j" None;
             RecordFeatureUsage "k" None; RecordFeatureUsage "k" None] in
  let r := getMostUsedFeatures (run cs (constructor [] 0)) in
  Forall own_name (first_recorded cs)
  /\ map pair_of r = [("k", 2); ("a", 1); ("b", 1); ("c", 1); ("d", 1); ("e", 1);
                      ("f", 1); ("g", 1); ("h", 1); ("i", 1)]
  /\ exists ranked, r = firstn 10 ranked /\ ranking cs ranked.
Proof.
  intros cs r.
  assert (Hown : Forall own_name (first_recorded cs)) by (repeat constructor).
  split; [exact Hown|]. split; [reflexivity|].
  destruct (most_used_features [] 0 cs Hown) as (ranked & Hr & Hranking & _).
  exists ranked. split; [exact Hr | exact Hranking].
Defined.

(** What a caller writes through the containers of a snapshot is what the
    tracker reads afterwards; its counters are out of the caller's reach. *)
Lemma getMetrics_shares_containers (w : World) :
  well_formed w ->
  let snapshot := getMetrics w in
  (forall k v, usage (mutate snapshot (AssignUsage k v) w) = JS.set (usage w) k v)
  /\ (forall e, analyses (mutate snapshot (PushAnalysis e) w) = analyses w ++ [e])
  /\ (forall e, fixes (mutate snapshot (PushFix e) w) = fixes w ++ [e])
  /\ (forall mu, metrics (mutate snapshot mu w) = metrics w).
Proof.
  intros (H1 & H2 & H3) snapshot. repeat split.
  - intros k v. unfold usage, mutate. cbn [heap metrics].
    apply TrackerFacts.props_at_store_prop. now apply TrackerFacts.typed_usage.
  - intros e. unfold analyses, mutate. cbn [heap metrics].
    now apply TrackerFacts.analysis_at_push_analysis.
  - intros e. unfold fixes, mutate. cbn [heap metrics].
    now apply TrackerFacts.fixes_at_push_fix.
Qed.

(** C5: [getMetrics] does not isolate the tracker from its callers.  The
    returned object is a copy of [this.metrics] one level deep, so its
    [featureUsage], [analysisHistory] and [fixHistory] are the tracker's own
    containers.  After one analysis and one usage of ["var"], a caller that
    assigns [snapshot.featureUsage["var"] = 99] and pushes an entry on
    [snapshot.analysisHistory] changes what [getMostUsedFeatures] and
    [getAnalysisHistory] return, while [filesAnalyzed] stays [1]. *)
Theorem snapshot_mutation_reaches_tracker :
  let w := run [RecordAnalysis 1 "src/app.js" 3 None; RecordFeatureUsage "var" None]
             (constructor [] 0) in
  let snapshot := getMetrics w in
  let forged := {| a_timestamp := 2; a_fileName := "forged.js";
                   a_issuesCount := 7; a_language := "javascript" |} in
  let w1 := mutate snapshot (AssignUsage "var" 99) w in
  let w2 := mutate snapshot (PushAnalysis forged) w1 in
  getMostUsedFeatures w = [{| feature := "var"; count := 1 |}]
  /\ getMostUsedFeatures w1 = [{| feature := "var"; count := 99 |}]
  /\ length (getAnalysisHistory w) = 1%nat
  /\ getAnalysisHistory w2 = forged :: getAnalysisHistory w
  /\ filesAnalyzed (getMetrics w2) = 1
  /\ coherent w /\ ~ coherent w2.
Proof.
  cbv zeta. repeat split; try reflexivity.
  intros (Hfiles & _). vm_compute in Hfiles. discriminate.
Qed.

(** C8: after [reset] in any state, the tracker's state by value is the zero
    state of construction stamped with the reset time: the three counters
    and the progress are [0], [featureUsage] and both histories are empty,
    and [sessionStartTime] (like [lastAnalysis]) is the time of the reset,
    whatever it was before.  Every read operation returns what it returns
    on a tracker constructed at that time. *)
Theorem reset_restores_zero_state (w : World) (now : Date) :
  state (reset now w) = zero_state now
  /\ (forall h, state (constructor h now) = zero_state now)
  /\ sessionStartTime (getMetrics (reset now w)) = now
  /\ getMostUsedFeatures (reset now w) = []
  /\ getAnalysisHistory (reset now w) = []
  /\ getFixHistory (reset now w) = []
  /\ (forall t h, getSessionStats t (reset now w) = getSessionStats t (constructor h now))
  /\ (forall t,
        getSessionStats t (reset now w)
        = {| duration := JS.Math_round (JS.div (t - now) (1000 * 60));
             filesAnalyzedThisSession := 0;
             issuesFoundThisSession := 0;
             fixesAppliedThisSession := 0;
             averageIssuesPerFile := 0%Q |}).
Proof.
  assert (Hzero : forall h, state (fresh_metrics h now) = zero_state now).
  { intros h. unfold state.
    destruct (TrackerFacts.fresh_metrics_empty h now) as (-> & -> & ->). reflexivity. }
  assert (Hu : usage (reset now w) = [])
    by apply (TrackerFacts.fresh_metrics_empty (heap w) now).
  assert (Ha : analyses (reset now w) = [])
    by apply (TrackerFacts.fresh_metrics_empty (heap w) now).
  assert (Hf : fixes (reset now w) = [])
    by apply (TrackerFacts.fresh_metrics_empty (heap w) now).
  repeat split.
  - apply Hzero.
  - intros h. apply Hzero.
  - unfold getMostUsedFeatures. fold (usage (reset now w)). now rewrite Hu.
  - unfold getAnalysisHistory. fold (analyses (reset now w)). now rewrite Ha.
  - unfold getFixHistory. fold (fixes (reset now w)). now rewrite Hf.
Qed.

Import BaselineWebviewProvider.

(** The first of the most used features has the largest count. *)
Lemma top_feature_is_most_used (w : World) (top : FeatureCount) (rest : list FeatureCount)
    (k : string) (v : Z) :
  getMostUsedFeatures w = top :: rest -> In (k, v) (usage w) -> count top >= v.
Proof.
  intros Hr Hin.
  set (sorted := JS.sort (fun a b => count b - count a)
                   (map entry (JS.Object_entries (usage w)))).
  assert (Hs : In (entry (k, v)) sorted).
  { apply (Permutation_in _ (Permutation_sym (MostUsedFacts.sorted_Permutation w))).
    now apply in_map. }
  pose proof (SortFacts.sort_sorted count (map entry (JS.Object_entries (usage w)))) as Hsorted.
  fold sorted in Hsorted.
  rewrite MostUsedFacts.getMostUsedFeatures_unfold in Hr. fold sorted in Hr.
  destruct sorted as [|x sorted']; [destruct Hs|].
  simpl in Hr. injection Hr as -> _.
  apply StronglySorted_inv in Hsorted as [_ Hall].
  destruct Hs as [Hs|Hs]; [rewrite Hs; simpl; lia|].
  rewrite Forall_forall in Hall. apply list_elem_of_In, Hall in Hs. exact Hs.
Qed.

(** C2: the recommendations are those of five rules, in this order: the
    priority recommendation [low_fix_rate], showing the issue count and the
    rounded fix percentage, exactly when there are issues and that
    percentage is below 50; the warning [high_density], showing the rounded
    average, exactly when files were analysed and that average exceeds 2;
    the info recommendation [common_pattern], naming the first of the most
    used features (one with the largest count) and its count, exactly when
    there is one; then always the suggestion [baseline_adoption] and the
    info recommendation [browser_compatibility] with its fixed percentages.
    Nothing else is returned.  The rounded fix percentage and the rounded
    average are [Math.round] of the binary64 numbers
    [(fixesApplied / issuesFound) * 100] and [issuesFound / filesAnalyzed],
    as the program computes them. *)
Theorem recommendation_rules (w : World) :
  let m := getMetrics w in
  generateRecommendations w
  = (if (issuesFound m >? 0) && (percent (fixesApplied m) (issuesFound m) <? 50)
     then [low_fix_rate (issuesFound m) (percent (fixesApplied m) (issuesFound m))]
     else [])
    ++ (if (filesAnalyzed m >? 0) && (average m >? 2)
        then [high_density (average m)] else [])
    ++ (match getMostUsedFeatures w with
        | topFeature :: _ => [common_pattern topFeature]
        | [] => []
        end)
    ++ [baseline_adoption; browser_compatibility]
  /\ (forall issues rate,
        r_type (low_fix_rate issues rate) = "priority"
        /\ occurs_in (JS.toString issues) (r_description (low_fix_rate issues rate))
        /\ occurs_in (JS.toString rate) (r_description (low_fix_rate issues rate)))
  /\ (forall avg,
        r_type (high_density avg) = "warning"
        /\ occurs_in (JS.toString avg) (r_description (high_density avg)))
  /\ (forall top,
        r_type (common_pattern top) = "info"
        /\ occurs_in (feature top) (r_title (common_pattern top))
        /\ occurs_in (feature top) (r_description (common_pattern top))
        /\ occurs_in (JS.toString (count top)) (r_description (common_pattern top)))
  /\ (forall top rest k v,
        getMostUsedFeatures w = top :: rest -> In (k, v) (usage w) -> count top >= v)
  /\ r_type baseline_adoption = "suggestion"
  /\ r_type browser_compatibility = "info"
  /\ occurs_in "Chrome (82%), Firefox (77%), Safari (71%), Edge (78%)"
       (r_description browser_compatibility).
Proof.
  intros m. split.
  - unfold generateRecommendations, push, average, percent. fold m.
    destruct (issuesFound m >? 0); cbn [andb app];
      [destruct (JS.Math_round (JS.product (JS.quotient (fixesApplied m) (issuesFound m)) 100) <? 50)|];
      (destruct (filesAnalyzed m >? 0); cbn [andb app];
       [destruct (JS.Math_round (JS.quotient (issuesFound m) (filesAnalyzed m)) >? 2)|]);
      destruct (getMostUsedFeatures w); reflexivity.
  - split; [|split; [|split; [|split; [|split; [|split]]]]].
    + intros issues rate. split; [reflexivity|]. split.
      * now eexists "You have ", _.
      * exists ("You have " +:+ JS.toString issues +:+ " issues but only "), 
          "% fixed. Use VS Code's quick fix actions (Ctrl+.) to modernize your code faster.".
        cbn [r_description low_fix_rate]. now rewrite !StringFacts.app_assoc.
    + intros avg. split; [reflexivity|]. now eexists "Average ", _.
    + intros top. split; [reflexivity|]. split; [|split].
      * exists ("Modernize " +:+ JS.dq), (JS.dq +:+ " Usage").
        cbn [r_title common_pattern]. now rewrite !StringFacts.app_assoc.
      * now eexists JS.dq, _.
      * exists (JS.dq +:+ feature top +:+ JS.dq +:+ " appears "),
          " times. This is your biggest modernization opportunity.".
        cbn [r_description common_pattern]. now rewrite !StringFacts.app_assoc.
    + intros top rest k v. apply top_feature_is_most_used.
    + reflexivity.
    + reflexivity.
    + now exists "", " - Most modern features have strong cross-browser support.".
Qed.

(** The sample session of the dashboard: two files with 5 issues and 2
    fixes; the fix rate 40 is below 50, the average 3 exceeds 2, and ["var"]
    is the most used feature. *)
Lemma recommendation_rules_witness :
  let w := run [RecordAnalysis 1 "src/app.js" 3 None;
                RecordFeatureUsage "var" None; RecordFeatureUsage "XMLHttpRequest" None;
                RecordFeatureUsage "float" None; RecordFeatureUsage "var" None;
                RecordAnalysis 2 "src/styles.css" 2 None;
                RecordFix 3 "let-const" None; RecordFix 4 "fetch" None]
             (constructor [] 0) in
  map r_id (generateRecommendations w)
  = ["low_fix_rate"; "high_density"; "common_pattern"; "baseline_adoption";
     "browser_compatibility"]
  /\ In ("float", 1) (usage w)
  /\ 2 >= 1.
Proof.
  intros w. split; [reflexivity|].
  assert (Hin : In ("float", 1) (usage w)) by (cbv; right; right; now left).
  split; [exact Hin|].
  exact (proj1 (proj2 (proj2 (proj2 (proj2 (recommendation_rules w)))))
           {| feature := "var"; count := 2 |}
           [{| feature := "XMLHttpRequest"; count := 1 |};
            {| feature := "float"; count := 1 |}]
           "float" 1 eq_refl Hin).
Defined.

(** C3: the timeline has exactly the five phases Assessment, Planning,
    Implementation, Testing, Deployment, in this order.  With
    [completionRate] the rounded fix percentage when there are issues
    ([Math.round] of the binary64 number
    [(fixesApplied / issuesFound) * 100], as the program computes it) and
    [0] otherwise: Assessment is completed/100 when files were analysed,
    else pending/0; Planning is completed/100 when there are issues, else
    pending/0; Implementation is completed when [completionRate >= 100],
    in-progress when [completionRate > 0], else pending, with progress
    [completionRate]; Testing is in-progress/60 when
    [completionRate >= 80], else pending/0; Deployment is ready/100 when
    [completionRate >= 100], else pending/0.  With 3 files, 10 issues and 1
    fix, Implementation is in-progress at 10 and Testing is pending at 0. *)
Theorem timeline_phases (w : World) :
  let m := getMetrics w in
  let rate := completionRate m in
  map p_phase (generateTimelineData w)
  = ["Assessment"; "Planning"; "Implementation"; "Testing"; "Deployment"]
  /\ map (fun p => (p_status p, p_progress p)) (generateTimelineData w)
     = [ if filesAnalyzed m >? 0 then ("completed", 100) else ("pending", 0);
         if issuesFound m >? 0 then ("completed", 100) else ("pending", 0);
         (if rate >=? 100 then "completed"
          else if rate >? 0 then "in-progress" else "pending", rate);
         if rate >=? 80 then ("in-progress", 60) else ("pending", 0);
         if rate >=? 100 then ("ready", 100) else ("pending", 0) ]
  /\ (filesAnalyzed m = 3 -> issuesFound m = 10 -> fixesApplied m = 1 ->
      map (fun p => (p_phase p, p_status p, p_progress p)) (generateTimelineData w)
      = [ ("Assessment", "completed", 100); ("Planning", "completed", 100);
          ("Implementation", "in-progress", 10); ("Testing", "pending", 0);
          ("Deployment", "pending", 0) ]).
Proof.
  intros m rate. split; [reflexivity|]. split.
  - unfold generateTimelineData, push. fold m.
    change (if issuesFound m >? 0
            then JS.Math_round (JS.product (JS.quotient (fixesApplied m) (issuesFound m)) 100)
            else 0) with rate.
    cbn [app map p_status p_progress].
    destruct (filesAnalyzed m >? 0), (issuesFound m >? 0);
      destruct (rate >? 0) eqn:E0, (rate >=? 100) eqn:E100, (rate >=? 80) eqn:E80;
      try reflexivity; lia.
  - intros Hfiles Hissues Hfixes.
    unfold generateTimelineData, push. fold m.
    rewrite Hfiles, Hissues, Hfixes. reflexivity.
Qed.

(** Scenario E of the specification. *)
Lemma timeline_phases_witness :
  let w := run [RecordAnalysis 1 "a.js" 4 None; RecordAnalysis 2 "b.js" 4 None;
                RecordAnalysis 3 "c.css" 2 None; RecordFix 4 "flexbox" None]
             (constructor [] 0) in
  filesAnalyzed (getMetrics w) = 3
  /\ issuesFound (getMetrics w) = 10
  /\ fixesApplied (getMetrics w) = 1
  /\ map (fun p => (p_phase p, p_status p, p_progress p)) (generateTimelineData w)
     = [ ("Assessment", "completed", 100); ("Planning", "completed", 100);
         ("Implementation", "in-progress", 10); ("Testing", "pending", 0);
         ("Deployment", "pending", 0) ].
Proof.
  intros w. split; [reflexivity|]. split; [reflexivity|]. split; [reflexivity|].
  apply (proj2 (proj2 (timeline_phases w))); reflexivity.
Defined.

(** C7 (as stated): the description of each of the five phases shows the
    current counters.  This fails already for showing any one of them: on a
    fresh tracker all four values are [0], and the description of the
    Testing phase contains no [0]. *)
Lemma testing_description_is_static :
  ~ (forall w p, In p (generateTimelineData w) ->
       embeds_a_counter (getMetrics w) (p_description p)).
Proof.
  intros H.
  set (w := constructor [] 0).
  assert (Hin : exists p, In p (generateTimelineData w)
                          /\ p_description p
                             = "Cross-browser testing and performance validation").
  { eexists. split; [right; right; right; left; reflexivity | reflexivity]. }
  destruct Hin as (p & Hin & Hd). specialize (H w p Hin). rewrite Hd in H.
  assert (Hno : forall n,
            JS.includes "Cross-browser testing and performance validation" n = false ->
            ~ occurs_in n "Cross-browser testing and performance validation").
  { intros n Hn Ho. apply StringFacts.includes_occurs in Ho. congruence. }
  destruct H as [H|[H|[H|H]]]; revert H; apply Hno; reflexivity.
Qed.

(** C7 (amended): the descriptions of the first three phases show the
    current counters: Assessment shows [filesAnalyzed] and [issuesFound],
    Planning shows [issuesFound], Implementation shows [fixesApplied],
    [issuesFound] and the completion percentage, which is [Math.round] of
    the binary64 number [(fixesApplied / issuesFound) * 100] when there are
    issues and [0] otherwise.  The descriptions of Testing and Deployment
    are fixed texts. *)
Theorem timeline_descriptions (w : World) :
  let m := getMetrics w in
  exists assessment planning implementation,
    map p_description (generateTimelineData w)
    = [ assessment; planning; implementation;
        "Cross-browser testing and performance validation";
        "Production deployment and monitoring" ]
    /\ occurs_in (JS.toString (filesAnalyzed m)) assessment
    /\ occurs_in (JS.toString (issuesFound m)) assessment
    /\ occurs_in (JS.toString (issuesFound m)) planning
    /\ occurs_in (JS.toString (fixesApplied m)) implementation
    /\ occurs_in (JS.toString (issuesFound m)) implementation
    /\ occurs_in (JS.toString (completionRate m)) implementation.
Proof.
  intros m. do 3 eexists. split; [reflexivity|]. fold m.
  change (if issuesFound m >? 0
          then JS.Math_round (JS.product (JS.quotient (fixesApplied m) (issuesFound m)) 100)
          else 0) with (completionRate m).
  repeat split.
  - now eexists "Analyzed ", _.
  - exists ("Analyzed " +:+ JS.toString (filesAnalyzed m) +:+ " files and identified "),
      " modernization opportunities".
    now rewrite !StringFacts.app_assoc.
  - now eexists "Prioritized ", _.
  - now eexists "Applied ", _.
  - exists ("Applied " +:+ JS.toString (fixesApplied m) +:+ " of "),
      (" modernizations (" +:+ JS.toString (completionRate m) +:+ "% complete)").
    now rewrite !StringFacts.app_assoc.
  - exists ("Applied " +:+ JS.toString (fixesApplied m) +:+ " of "
            +:+ JS.toString (issuesFound m) +:+ " modernizations ("), "% complete)".
    now rewrite !StringFacts.app_assoc.
Qed.

Import BaselineService.

Lemma partial_matchb_spec (legacyPattern pattern : string) :
  partial_matchb legacyPattern pattern = true <-> partial_match legacyPattern pattern.
Proof.
  unfold partial_matchb, partial_match.
  now rewrite orb_true_iff, !StringFacts.includes_occurs.
Qed.

(** The loop over the catalog appends the alternatives of the matching
    keys to what was collected before. *)
Lemma partial_loop (catalog : Map (list ModernAlternative)) (legacyPattern : string)
    (collected : list ModernAlternative) :
  fold_left
    (fun partialMatches entry =>
       let '(pattern, alternatives) := entry in
       if JS.includes legacyPattern pattern || JS.includes pattern legacyPattern
       then partialMatches ++ alternatives
       else partialMatches)
    catalog collected
  = collected ++ partial_alternatives catalog legacyPattern.
Proof.
  revert collected. induction catalog as [|[pattern alternatives] catalog IH];
    intros collected; simpl.
  - now rewrite app_nil_r.
  - rewrite IH. unfold partial_alternatives, partial_matchb. simpl.
    destruct (JS.includes legacyPattern pattern || JS.includes pattern legacyPattern);
      simpl; [now rewrite app_assoc | reflexivity].
Qed.

(** C9: for every catalog and every pattern id, the lookup returns the
    alternatives stored under the id when the id is a catalog key;
    otherwise it returns, in catalog order, the concatenation of the
    alternatives of every key that occurs in the id or in which the id
    occurs.  Nothing is removed: the result has as many records as the
    matching keys contribute together, so a record stored under two
    matching keys is returned twice.  In the catalog of the program the
    keys are ["var"], ["XMLHttpRequest"], ["float"], ["function"],
    ["<div>"], ["<b><i><u>"]. *)
Theorem alternatives_lookup (catalog : Map (list ModernAlternative))
    (legacyPattern : string) :
  (forall exactMatch,
     Map_get catalog legacyPattern = Some exactMatch ->
     getModernAlternatives catalog legacyPattern = exactMatch)
  /\ (Map_get catalog legacyPattern = None ->
      getModernAlternatives catalog legacyPattern
      = partial_alternatives catalog legacyPattern
      /\ length (getModernAlternatives catalog legacyPattern)
         = list_sum (map (fun e => length e.2)
                       (List.filter (fun e => partial_matchb legacyPattern e.1) catalog)))
  /\ (forall pattern,
        partial_matchb legacyPattern pattern = true
        <-> occurs_in pattern legacyPattern \/ occurs_in legacyPattern pattern)
  /\ (Map_get catalog legacyPattern = None <-> ~ In legacyPattern (map fst catalog))
  /\ map fst modernAlternatives
     = ["var"; "XMLHttpRequest"; "float"; "function"; "<div>"; "<b><i><u>"].
Proof.
  split; [|split; [|split; [|split]]].
  - intros exactMatch He. unfold getModernAlternatives. now rewrite He.
  - intros Hn.
    assert (Heq : getModernAlternatives catalog legacyPattern
                  = partial_alternatives catalog legacyPattern).
    { unfold getModernAlternatives. rewrite Hn. now rewrite partial_loop. }
    split; [exact Heq|]. rewrite Heq. unfold partial_alternatives.
    induction (List.filter _ catalog) as [|[k alts] l IH]; simpl; [reflexivity|].
    now rewrite length_app, IH.
  - intros pattern. apply partial_matchb_spec.
  - apply JSFacts.get_None_keys.
  - reflexivity.
Qed.

(** In the catalog of the program, ["float"] is a key and returns its two
    alternatives; ["a"] is no key and occurs in ["var"] and ["float"].  In a
    catalog that stores one record under two keys, a pattern matching both
    gets the record twice. *)
Lemma alternatives_lookup_witness :
  map feature (getModernAlternatives modernAlternatives "float") = ["flexbox"; "grid"]
  /\ Map_get modernAlternatives "a" = None
  /\ map feature (getModernAlternatives modernAlternatives "a")
     = ["let-const"; "flexbox"; "grid"]
  /\ (let shared := getModernAlternatives modernAlternatives "var" in
      map feature (getModernAlternatives [("let", shared); ("letter", shared)] "le")
      = ["let-const"; "let-const"]).
Proof.
  split; [reflexivity|].
  assert (Hn : Map_get modernAlternatives "a" = None) by reflexivity.
  split; [exact Hn|]. split.
  - rewrite (proj1 (proj1 (proj2 (alternatives_lookup modernAlternatives "a")) Hn)).
    reflexivity.
  - reflexivity.
Defined.

(** * Scenarios of the specification *)

Import MetricsTracker.

(** Scenario A: one file with four issues. *)
Example scenario_A :
  let m := getMetrics (recordAnalysis 1 "a.js" 4 (Some "javascript") (constructor [] 0)) in
  filesAnalyzed m = 1 /\ issuesFound m = 4 /\ modernizationProgress m = 0.
Proof. repeat split. Qed.

(** Scenario C: one file without issues. *)
Example scenario_C :
  modernizationProgress
    (getMetrics (recordAnalysis 1 "x.css" 0 (Some "css") (constructor [] 0))) = 100.
Proof. reflexivity. Qed.

(** A negative issue count is not rejected: the progress leaves [0, 100]. *)
Example negative_issue_count :
  modernizationProgress
    (getMetrics (run [RecordAnalysis 1 "a.js" (-1) None; RecordFix 2 "fetch" None]
                   (constructor [] 0))) = -100.
Proof. reflexivity. Qed.

(** Scenario B: one file with four issues and two fixes. *)
Example scenario_B :
  modernizationProgress
    (getMetrics (run [RecordAnalysis 1 "a.js" 4 (Some "javascript");
                      RecordFix 2 "let-const" None; RecordFix 3 "let-const" None]
                   (constructor [] 0))) = 50.
Proof. vm_compute. reflexivity. Qed.

(** The percentage is rounded from binary64 numbers.  Where the exact
    percentage lies halfway between two integers, the rounding of the
    quotient and of the product can bring it below: 23 of 40 give 57, 29 of
    200 give 14 and 41 of 40 give 102, one less than half-up rounding of
    the exact 57.5, 14.5 and 102.5. *)
Example percent_of_binary64 :
  Spec.percent 23 40 = 57 /\ Spec.exact_percent 23 40 = 58
  /\ Spec.percent 29 200 = 14 /\ Spec.exact_percent 29 200 = 15
  /\ Spec.percent 41 40 = 102 /\ Spec.exact_percent 41 40 = 103.
Proof. vm_compute. repeat split. Qed.

(** [Math.round] rounds ties upwards: one fix of eight issues is 12.5%. *)
Example progress_rounds_half_up :
  modernizationProgress
    (getMetrics (run [RecordAnalysis 1 "a.js" 8 None; RecordFix 2 "fetch" None]
                   (constructor [] 0))) = 13.
Proof. reflexivity. Qed.

(** The file name recorded in the history is the last path segment, or the
    whole path when that segment is empty. *)
Example history_file_names :
  map a_fileName
    (getAnalysisHistory
       (run [RecordAnalysis 1 "src/components/Header.js" 2 None;
             RecordAnalysis 2 "src/" 1 None]
          (constructor [] 0)))
  = ["src/"; "Header.js"].
Proof. reflexivity. Qed.

(** The dashboard shows the same percentages: with 23 fixes of 40 issues
    the Implementation phase is at 57, and with 29 fixes of 200 issues the
    first recommendation speaks of 14%. *)
Example dashboard_percent_of_binary64 :
  let w := run (RecordAnalysis 1 "a.js" 40 None :: repeat (RecordFix 2 "fetch" None) 23)
             (constructor [] 0) in
  let w' := run (RecordAnalysis 1 "a.js" 200 None :: repeat (RecordFix 2 "fetch" None) 29)
              (constructor [] 0) in
  map (fun p => (p_progress p, p_description p))
    (filter (fun p => p_phase p = "Implementation") (generateTimelineData w))
  = [(57, "Applied 23 of 40 modernizations (57% complete)")]
  /\ map r_description (firstn 1 (generateRecommendations w'))
     = ["You have 200 issues but only 14% fixed. Use VS Code's quick fix actions (Ctrl+.) to modernize your code faster."].
Proof. vm_compute. split; reflexivity. Qed.

(** * Further properties *)

(** ** Histories *)

Module HistoryFacts.
Import MetricsTracker Spec TrackerFacts CallFacts.

Lemma recordAnalysis_analyses now filePath issuesCount language w :
  well_formed w ->
  analyses (recordAnalysis now filePath issuesCount language w)
  = analyses w ++ [analysis_entry now filePath issuesCount language].
Proof.
  intros (_ & H2 & _).
  destruct (call_refs w (RecordAnalysis now filePath issuesCount language) eq_refl)
    as (_ & E & _).
  cbn [call] in E. unfold analyses. rewrite E. unfold recordAnalysis.
  cbn [heap metrics analysisHistory].
  now apply analysis_at_push_analysis.
Qed.

Lemma recordFix_fixes now featureId fileName w :
  well_formed w ->
  fixes (recordFix now featureId fileName w)
  = fixes w ++ [fix_entry now featureId fileName].
Proof.
  intros (_ & _ & H3).
  destruct (call_refs w (RecordFix now featureId fileName) eq_refl) as (_ & _ & E).
  cbn [call] in E. unfold fixes. rewrite E. unfold recordFix.
  cbn [heap metrics fixHistory].
  now apply fixes_at_push_fix.
Qed.

Lemma getAnalysisHistory_recordAnalysis now filePath issuesCount language w :
  well_formed w ->
  getAnalysisHistory (recordAnalysis now filePath issuesCount language w)
  = analysis_entry now filePath issuesCount language :: getAnalysisHistory w.
Proof.
  intros Hwf. unfold getAnalysisHistory.
  fold (analyses (recordAnalysis now filePath issuesCount language w)) (analyses w).
  now rewrite recordAnalysis_analyses, rev_unit.
Qed.

Lemma getFixHistory_recordFix now featureId fileName w :
  well_formed w ->
  getFixHistory (recordFix now featureId fileName w)
  = fix_entry now featureId fileName :: getFixHistory w.
Proof.
  intros Hwf. unfold getFixHistory.
  fold (fixes (recordFix now featureId fileName w)) (fixes w).
  now rewrite recordFix_fixes, rev_unit.
Qed.

Lemma reachable_well_formed h now cs : well_formed (run cs (constructor h now)).
Proof. apply run_well_formed, fresh_metrics_well_formed. Qed.

Lemma reachable_coherent h now cs : coherent (run cs (constructor h now)).
Proof.
  apply SessionFacts.run_coherent.
  - apply fresh_metrics_well_formed.
  - apply SessionFacts.fresh_metrics_coherent.
Qed.

(** *** Splitting a path *)

Lemma split_nonempty sep s : JS.split sep s <> [].
Proof.
  destruct s as [|c s]; simpl; [discriminate|].
  destruct (Ascii.eqb c sep); [discriminate|].
  destruct (JS.split sep s); discriminate.
Qed.

Lemma no_slash_cons c s : no_slash (String c s) <-> c <> "/"%char /\ no_slash s.
Proof.
  unfold no_slash. split.
  - intros H. split.
    + intros ->. apply H. now exists EmptyString, s.
    + intros (pre & post & ->). apply H. now exists (String c pre), post.
  - intros [Hc Hs] ([|c' pre] & post & E).
    + rewrite StringFacts.app_nil_l in E. injection E as E _. now apply Hc.
    + rewrite StringFacts.app_cons in E. injection E as _ E. apply Hs.
      now exists pre, post.
Qed.

(** A text without slash is one segment. *)
Lemma split_no_slash s : no_slash s -> JS.split "/" s = [s].
Proof.
  induction s as [|c s IH]; intros H; [reflexivity|].
  apply no_slash_cons in H as [Hc Hs]. simpl.
  apply Ascii.eqb_neq in Hc. rewrite Hc, (IH Hs). reflexivity.
Qed.

(** The segments of [dir/name] end with [name]. *)
Lemma split_app_slash dir name :
  no_slash name ->
  exists seg segs, JS.split "/" (dir +:+ "/" +:+ name) = (seg :: segs) ++ [name].
Proof.
  intros Hn. induction dir as [|c dir (seg & segs & IH)].
  - exists EmptyString, []. rewrite StringFacts.app_nil_l, StringFacts.app_cons. simpl.
    now rewrite StringFacts.app_nil_l, (split_no_slash _ Hn).
  - rewrite StringFacts.app_cons. simpl. rewrite IH.
    destruct (Ascii.eqb c "/").
    + now exists EmptyString, (seg :: segs).
    + now exists (String c seg), segs.
Qed.

Lemma last_split_app dir name :
  no_slash name -> last (JS.split "/" (dir +:+ "/" +:+ name)) = Some name.
Proof.
  intros Hn. destruct (split_app_slash dir name Hn) as (seg & segs & ->).
  apply last_snoc.
Qed.

Lemma history_file_name_app dir name :
  no_slash name -> name <> EmptyString ->
  history_file_name (dir +:+ "/" +:+ name) = name.
Proof.
  intros Hn Hne. unfold history_file_name, JS.pop. rewrite (last_split_app _ _ Hn).
  now destruct name.
Qed.

Lemma history_file_name_plain name : no_slash name -> history_file_name name = name.
Proof.
  intros Hn. unfold history_file_name, JS.pop. rewrite (split_no_slash _ Hn).
  now destruct name.
Qed.

Lemma history_file_name_dir dir :
  history_file_name (dir +:+ "/") = dir +:+ "/".
Proof.
  unfold history_file_name, JS.pop.
  assert (Hn : no_slash EmptyString).
  { intros ([|c pre] & post & E); [rewrite StringFacts.app_nil_l in E|];
      rewrite StringFacts.app_cons in E; discriminate. }
  pose proof (last_split_app dir EmptyString Hn) as H.
  replace (dir +:+ "/" +:+ EmptyString) with (dir +:+ "/") in H; [now rewrite H|].
  clear. induction dir as [|c dir IH];
    rewrite ?StringFacts.app_nil_l, ?StringFacts.app_cons; [reflexivity | now rewrite IH].
Qed.

End HistoryFacts.

Import MetricsTracker Spec.

(** X1: [getAnalysisHistory] lists the analyses of the session, the most
    recent first.  In every state reached from construction,
    [recordAnalysis] puts its entry (the time, the file name of the path,
    the issue count and the language, ['unknown'] by default) in front of
    what [getAnalysisHistory] returned before, leaves [getFixHistory]
    unchanged, and the history has as many entries as [filesAnalyzed]
    counts. *)
Theorem analysis_history_most_recent_first (h : Heap) (start : Date) (cs : list Call)
    (now : Date) (filePath : string) (issuesCount : Z) (language : option string) :
  let w := run cs (constructor h start) in
  let w' := recordAnalysis now filePath issuesCount language w in
  getAnalysisHistory w'
  = analysis_entry now filePath issuesCount language :: getAnalysisHistory w
  /\ getFixHistory w' = getFixHistory w
  /\ Z.of_nat (length (getAnalysisHistory w')) = filesAnalyzed (getMetrics w').
Proof.
  intros w w'.
  pose proof (HistoryFacts.reachable_well_formed h start cs) as Hwf. fold w in Hwf.
  assert (Ha : analyses w' = analyses w ++ [analysis_entry now filePath issuesCount language])
    by now apply HistoryFacts.recordAnalysis_analyses.
  destruct (CallFacts.recordAnalysis_containers now filePath issuesCount language w Hwf)
    as (_ & Hf & _). fold w' in Hf.
  pose proof (HistoryFacts.reachable_coherent h start
                (cs ++ [RecordAnalysis now filePath issuesCount language])) as (Hc & _).
  unfold run in Hc. rewrite fold_left_app in Hc. cbn [fold_left call] in Hc.
  fold (run cs (constructor h start)) in Hc. fold w in Hc. fold w' in Hc.
  unfold getAnalysisHistory, getFixHistory.
  fold (analyses w') (analyses w) (fixes w') (fixes w).
  rewrite Ha, Hf, rev_unit. repeat split.
  unfold getMetrics. rewrite Hc, Ha. cbn [length]. rewrite length_rev, length_app. simpl. lia.
Qed.

(** X2: [getFixHistory] lists the fixes of the session, the most recent
    first.  In every state reached from construction, [recordFix] puts its
    entry (the time, the feature id and the file name of the path, empty by
    default) in front of what [getFixHistory] returned before, leaves
    [getAnalysisHistory] unchanged, and the history has as many entries as
    [fixesApplied] counts. *)
Theorem fix_history_most_recent_first (h : Heap) (start : Date) (cs : list Call)
    (now : Date) (featureId : string) (fileName : option string) :
  let w := run cs (constructor h start) in
  let w' := recordFix now featureId fileName w in
  getFixHistory w' = fix_entry now featureId fileName :: getFixHistory w
  /\ getAnalysisHistory w' = getAnalysisHistory w
  /\ Z.of_nat (length (getFixHistory w')) = fixesApplied (getMetrics w').
Proof.
  intros w w'.
  pose proof (HistoryFacts.reachable_well_formed h start cs) as Hwf. fold w in Hwf.
  assert (Hf : fixes w' = fixes w ++ [fix_entry now featureId fileName])
    by now apply HistoryFacts.recordFix_fixes.
  destruct (CallFacts.recordFix_containers now featureId fileName w Hwf) as (_ & Ha & _).
  fold w' in Ha.
  pose proof (HistoryFacts.reachable_coherent h start
                (cs ++ [RecordFix now featureId fileName])) as (_ & Hc & _).
  unfold run in Hc. rewrite fold_left_app in Hc. cbn [fold_left call] in Hc.
  fold (run cs (constructor h start)) in Hc. fold w in Hc. fold w' in Hc.
  unfold getAnalysisHistory, getFixHistory.
  fold (analyses w') (analyses w) (fixes w') (fixes w).
  rewrite Ha, Hf, rev_unit. repeat split.
  unfold getMetrics. rewrite Hc, Hf. cbn [length]. rewrite length_rev, length_app. simpl. lia.
Qed.

(** X3: the file name kept in a history entry is the part of the path after
    its last slash.  In every state reached from construction, the entry
    that [recordAnalysis] or [recordFix] puts first in its history holds
    [name] for a path [dir/name] whose [name] is not empty and has no slash;
    a path without slash is kept as it is; a path that ends with a slash is
    kept whole, because its last segment is empty; and a fix recorded
    without file has the empty file name. *)
Theorem history_entry_file_name (h : Heap) (start : Date) (cs : list Call)
    (now : Date) (issuesCount : Z) (language : option string) (featureId : string)
    (dir name : string) :
  let w := run cs (constructor h start) in
  let analysed path :=
    a_fileName <$> head (getAnalysisHistory (recordAnalysis now path issuesCount language w)) in
  let fixed path :=
    f_fileName <$> head (getFixHistory (recordFix now featureId path w)) in
  no_slash name ->
  (name <> EmptyString ->
   analysed (dir +:+ "/" +:+ name) = Some name
   /\ fixed (Some (dir +:+ "/" +:+ name)) = Some name)
  /\ analysed name = Some name
  /\ fixed (Some name) = Some name
  /\ analysed (dir +:+ "/") = Some (dir +:+ "/")
  /\ fixed (Some (dir +:+ "/")) = Some (dir +:+ "/")
  /\ fixed None = Some EmptyString.
Proof.
  intros w analysed fixed Hn.
  pose proof (HistoryFacts.reachable_well_formed h start cs) as Hwf. fold w in Hwf.
  assert (Ha : forall path, analysed path = Some (history_file_name path)).
  { intros path. unfold analysed.
    now rewrite HistoryFacts.getAnalysisHistory_recordAnalysis. }
  assert (Hf : forall path, fixed path = Some (history_file_name (default "" path))).
  { intros path. unfold fixed.
    now rewrite HistoryFacts.getFixHistory_recordFix. }
  rewrite !Ha, !Hf. cbn [default].
  split; [intros Hne; split; f_equal; now apply HistoryFacts.history_file_name_app|].
  split; [f_equal; now apply HistoryFacts.history_file_name_plain|].
  split; [f_equal; now apply HistoryFacts.history_file_name_plain|].
  split; [f_equal; apply HistoryFacts.history_file_name_dir|].
  split; [f_equal; apply HistoryFacts.history_file_name_dir|].
  reflexivity.
Qed.

(** The analysis of [src/components/Header.js] is listed as [Header.js]. *)
Lemma history_entry_file_name_witness :
  no_slash "Header.js"
  /\ "Header.js" <> EmptyString
  /\ a_fileName
       <$> head (getAnalysisHistory
                   (recordAnalysis 1 ("src/components" +:+ "/" +:+ "Header.js") 2 None
                      (run [] (constructor [] 0))))
     = Some "Header.js".
Proof.
  assert (Hn : no_slash "Header.js").
  { intros H. apply StringFacts.includes_occurs in H. discriminate. }
  assert (Hne : "Header.js" <> EmptyString) by discriminate.
  split; [exact Hn|]. split; [exact Hne|].
  exact (proj1 (proj1 (history_entry_file_name [] 0 [] 1 2 None "var" "src/components"
                         "Header.js" Hn) Hne)).
Defined.

(** ** Rounding *)

Module RoundFacts.

(** [Math.round] of a quotient with a positive divisor, as an integer
    division. *)
Lemma round_div_closed_form (a b : Z) :
  0 < b -> JS.Math_round (JS.div a b) = (2 * a + b) / (2 * b).
Proof.
  intros Hb. unfold JS.Math_round, JS.div.
  rewrite Zdiv_Qdiv. apply Qfloor_comp.
  rewrite !inject_Z_plus, !inject_Z_mult.
  assert (Hq : ~ (inject_Z b == 0)%Q).
  { change 0%Q with (inject_Z 0). rewrite inject_Z_injective. lia. }
  field. exact Hq.
Qed.

(** The rounded quotient is within half a unit of the quotient. *)
Lemma round_div_bounds (a b : Z) :
  0 < b ->
  2 * b * JS.Math_round (JS.div a b) - b <= 2 * a
  /\ 2 * a < 2 * b * JS.Math_round (JS.div a b) + b.
Proof.
  intros Hb. rewrite (round_div_closed_form a b Hb).
  pose proof (Z.div_mod (2 * a + b) (2 * b)) as Hdm.
  pose proof (Z.mod_pos_bound (2 * a + b) (2 * b)) as Hm. lia.
Qed.

Lemma Math_round_bounds (x : Q) :
  (inject_Z (JS.Math_round x) <= x + (1 # 2))%Q
  /\ (x - (1 # 2) < inject_Z (JS.Math_round x))%Q.
Proof.
  unfold JS.Math_round. split.
  - apply Qfloor_le.
  - pose proof (Qlt_floor (x + (1 # 2))) as H.
    rewrite inject_Z_plus in H. change (inject_Z 1) with 1%Q in H. lra.
Qed.

Lemma Math_round_mono (x y : Q) : (x <= y)%Q -> JS.Math_round x <= JS.Math_round y.
Proof.
  intros H. unfold JS.Math_round. apply Qfloor_resp_le. lra.
Qed.

Lemma Math_round_Z (z : Z) : JS.Math_round (inject_Z z) = z.
Proof.
  unfold JS.Math_round, Qfloor, Qplus, inject_Z. simpl.
  symmetry. apply (Z.div_unique _ _ z 1); lia.
Qed.

(** Quotients of integers: more fixes give a larger quotient, more issues a
    smaller one. *)
Lemma div_mono_l (a a' b : Z) : 0 < b -> a <= a' -> (JS.div a b <= JS.div a' b)%Q.
Proof.
  intros Hb Ha. unfold JS.div. destruct b as [|p|p]; try lia.
  unfold Qdiv, Qinv, Qmult, Qle, inject_Z. simpl. nia.
Qed.

Lemma div_mono_r (a b b' : Z) :
  0 <= a -> 0 < b -> b <= b' -> (JS.div a b' <= JS.div a b)%Q.
Proof.
  intros Ha Hb Hb'. unfold JS.div.
  destruct b as [|p|p]; try lia. destruct b' as [|p'|p']; try lia.
  unfold Qdiv, Qinv, Qmult, Qle, inject_Z. simpl. nia.
Qed.

Lemma percent_mono_fixes (f f' i : Z) :
  0 < i -> f <= f' -> Spec.percent f i <= Spec.percent f' i.
Proof.
  intros Hi Hf. unfold Spec.percent, JS.product, JS.quotient.
  apply Math_round_mono, NumberFacts.double_monotone.
  pose proof (NumberFacts.double_monotone _ _ (div_mono_l f f' i Hi Hf)). lra.
Qed.

Lemma percent_mono_issues (f i i' : Z) :
  0 <= f -> 0 < i -> i <= i' -> Spec.percent f i' <= Spec.percent f i.
Proof.
  intros Hf Hi Hi'. unfold Spec.percent, JS.product, JS.quotient.
  apply Math_round_mono, NumberFacts.double_monotone.
  pose proof (NumberFacts.double_monotone _ _ (div_mono_r f i i' Hf Hi Hi')). lra.
Qed.

(** The quotient depends on the ratio only. *)
Lemma Math_round_comp (x y : Q) : (x == y)%Q -> JS.Math_round x = JS.Math_round y.
Proof. intros E. unfold JS.Math_round. apply Qfloor_comp. now rewrite E. Qed.

Lemma quotient_scale (k a b : Z) :
  k <> 0 -> b <> 0 -> (JS.quotient (k * a) (k * b) == JS.quotient a b)%Q.
Proof.
  intros Hk Hb. unfold JS.quotient, JS.div. apply NumberFacts.double_comp.
  rewrite !inject_Z_mult.
  assert (~ (inject_Z k == 0)%Q)
    by (change 0%Q with (inject_Z 0); rewrite inject_Z_injective; exact Hk).
  assert (~ (inject_Z b == 0)%Q)
    by (change 0%Q with (inject_Z 0); rewrite inject_Z_injective; exact Hb).
  now field.
Qed.

Lemma percent_scale (k f i : Z) :
  k <> 0 -> i <> 0 -> Spec.percent (k * f) (k * i) = Spec.percent f i.
Proof.
  intros Hk Hi. unfold Spec.percent, JS.product.
  apply Math_round_comp, NumberFacts.double_comp.
  now rewrite (quotient_scale k f i Hk Hi).
Qed.

End RoundFacts.

(** X4: [getSessionStats] reports the average number of issues per file
    rounded to one decimal: without analysed files it is [0]; with files
    it is a number of tenths that differs from [issuesFound / filesAnalyzed]
    by at most one twentieth, a tie being rounded upwards. *)
Theorem session_average_rounding (w : World) (now : Date) :
  let m := getMetrics w in
  let avg := averageIssuesPerFile (getSessionStats now w) in
  (filesAnalyzed m <= 0 -> avg = 0%Q)
  /\ (0 < filesAnalyzed m ->
      (exists tenths : Z, avg == inject_Z tenths / 10)%Q
      /\ (JS.div (issuesFound m) (filesAnalyzed m) - (1 # 20) < avg)%Q
      /\ (avg <= JS.div (issuesFound m) (filesAnalyzed m) + (1 # 20))%Q).
Proof.
  intros m avg. subst avg. unfold getSessionStats. cbn [averageIssuesPerFile].
  fold (getMetrics w). fold m. split.
  - intros Hf. destruct (filesAnalyzed m >? 0) eqn:E; [lia | reflexivity].
  - intros Hf. destruct (filesAnalyzed m >? 0) eqn:E; [|lia].
    set (r := JS.div (issuesFound m) (filesAnalyzed m)).
    destruct (RoundFacts.Math_round_bounds (r * 10)%Q) as [Hle Hlt].
    set (k := JS.Math_round (r * 10)%Q) in *.
    split; [exists k; reflexivity|].
    split; unfold Qdiv; change (/ 10)%Q with (1 # 10)%Q; lra.
Qed.

(** Three files with ten issues: the average 3.33 is reported as 3.3. *)
Lemma session_average_rounding_witness :
  let w := run [RecordAnalysis 1 "a.js" 4 None; RecordAnalysis 2 "b.js" 4 None;
                RecordAnalysis 3 "c.css" 2 None] (constructor [] 0) in
  0 < filesAnalyzed (getMetrics w)
  /\ (averageIssuesPerFile (getSessionStats 5%Z w) == 33 # 10)%Q
  /\ (averageIssuesPerFile (getSessionStats 5%Z w) <= JS.div 10%Z 3%Z + (1 # 20))%Q.
Proof.
  intros w.
  assert (Hf : 0 < filesAnalyzed (getMetrics w)) by reflexivity.
  split; [exact Hf|]. split; [reflexivity|].
  exact (proj2 (proj2 (proj2 (session_average_rounding w 5) Hf))).
Defined.

(** X5: [getSessionStats] reports the duration of the session in minutes,
    rounded to the nearest minute with half minutes rounded upwards: the
    time since [sessionStartTime] lies from 30 seconds before the reported
    minute up to, but not including, 30 seconds after it.  The three
    counters of the statistics are those of the metrics. *)
Theorem session_duration_rounding (w : World) (now : Date) :
  let m := getMetrics w in
  let stats := getSessionStats now w in
  60000 * duration stats - 30000 <= now - sessionStartTime m
  /\ now - sessionStartTime m < 60000 * duration stats + 30000
  /\ filesAnalyzedThisSession stats = filesAnalyzed m
  /\ issuesFoundThisSession stats = issuesFound m
  /\ fixesAppliedThisSession stats = fixesApplied m.
Proof.
  intros m stats. subst stats. unfold getSessionStats. cbn [duration].
  fold (getMetrics w). fold m.
  pose proof (RoundFacts.round_div_bounds (now - sessionStartTime m) (1000 * 60)) as H.
  repeat split; lia.
Qed.

(** X6: for every feature identifier that is no property name of
    [Object.prototype], the count kept for the feature is the sum of the
    counts recorded for it since the last reset (or since construction),
    and the feature has an own property in [featureUsage] exactly when it
    was recorded since then. *)
Theorem usage_is_recorded_total (h : Heap) (start : Date) (cs : list Call)
    (featureId : string) :
  own_name featureId ->
  let w := run cs (constructor h start) in
  usage_count w featureId = recorded_total cs featureId
  /\ (JS.get (usage w) featureId = None <-> ~ In featureId (first_recorded cs)).
Proof.
  intros _ w. split.
  - subst w. rewrite SessionStepFacts.run_usage_count
      by apply TrackerFacts.fresh_metrics_well_formed.
    unfold usage_count, constructor.
    now destruct (TrackerFacts.fresh_metrics_empty h start) as (-> & _).
  - rewrite JSFacts.get_None_keys. subst w.
    now rewrite MostUsedFacts.session_keys.
Qed.

(** ["var"] recorded three times and twice, a reset, and once more: the
    count is [1], and ["float"], recorded before the reset only, has no
    property. *)
Lemma usage_is_recorded_total_witness :
  let cs := [RecordFeatureUsage "var" (Some 3); RecordFeatureUsage "float" None;
             RecordFeatureUsage "var" (Some 2); Reset 5;
             RecordFeatureUsage "var" None] in
  let w := run cs (constructor [] 0) in
  own_name "var"
  /\ recorded_total cs "var" = 1
  /\ usage_count w "var" = recorded_total cs "var"
  /\ JS.get (usage w) "float" = None.
Proof.
  intros cs w. split; [reflexivity|]. split; [reflexivity|].
  split; [exact (proj1 (usage_is_recorded_total [] 0 cs "var" eq_refl))|].
  reflexivity.
Defined.

(** X7: the session start is the time of the last reset, or of the
    construction when there was none, so recording never changes it; the
    time of the last analysis is that of the last [recordAnalysis] or
    reset, or of the construction. *)
Theorem session_time_stamps (h : Heap) (start : Date) (cs : list Call) :
  let m := getMetrics (run cs (constructor h start)) in
  sessionStartTime m = fold_left note_start cs start
  /\ lastAnalysis m = fold_left note_analysis cs start
  /\ (Forall (fun c => is_recording c = true) cs -> sessionStartTime m = start).
Proof.
  intros m. destruct (SessionStepFacts.run_times cs (constructor h start)) as [Hs Ha].
  change (sessionStartTime (metrics (constructor h start))) with start in Hs.
  change (lastAnalysis (metrics (constructor h start))) with start in Ha.
  split; [exact Hs|]. split; [exact Ha|].
  intros Hrec. subst m. unfold getMetrics. rewrite Hs. clear -Hrec.
  induction Hrec as [|c cs Hc _ IH]; simpl; [reflexivity|].
  destruct c; try discriminate; exact IH.
Qed.

Lemma session_time_stamps_witness :
  let cs := [RecordAnalysis 5 "a.js" 1 None; RecordFix 9 "fetch" None] in
  let m := getMetrics (run cs (constructor [] 2)) in
  Forall (fun c => is_recording c = true) cs
  /\ lastAnalysis m = 5
  /\ sessionStartTime m = 2.
Proof.
  intros cs m.
  assert (Hrec : Forall (fun c => is_recording c = true) cs) by (repeat constructor).
  split; [exact Hrec|]. split; [reflexivity|].
  exact (proj2 (proj2 (session_time_stamps [] 2 cs)) Hrec).
Defined.

(** X8: in a session of calls with non-negative issue counts, recording a
    fix never lowers the progress, and recording an analysis when issues
    were already found never raises it. *)
Theorem progress_moves_with_fixes (h : Heap) (start : Date) (cs : list Call) :
  Forall valid_call cs ->
  let w := run cs (constructor h start) in
  (forall now featureId fileName,
     modernizationProgress (getMetrics w)
     <= modernizationProgress (getMetrics (recordFix now featureId fileName w)))
  /\ (forall now filePath issuesCount language,
        0 <= issuesCount -> 0 < issuesFound (getMetrics w) ->
        modernizationProgress (getMetrics (recordAnalysis now filePath issuesCount language w))
        <= modernizationProgress (getMetrics w)).
Proof.
  intros Hvalid w.
  destruct (SessionStepFacts.reachable_valid h start cs Hvalid) as [Hu (H1 & H2 & H3 & H4)].
  fold w in Hu, H1, H2, H3, H4. unfold up_to_date in Hu. unfold getMetrics. split.
  - intros now fid fn.
    destruct (CallFacts.recordFix_counters now fid fn w) as (E1 & E2 & E3 & E4).
    rewrite E4, Hu, !CallFacts.recomputed_unfold, E1, E2, E3.
    destruct (issuesFound (metrics w) =? 0) eqn:Ei; [lia|].
    apply Z.eqb_neq in Ei.
    pose proof (RoundFacts.percent_mono_fixes (fixesApplied (metrics w))
                  (fixesApplied (metrics w) + 1) (issuesFound (metrics w))). lia.
  - intros now fp n lang Hn Hi.
    destruct (CallFacts.recordAnalysis_counters now fp n lang w) as (E1 & E2 & E3 & E4).
    rewrite E4, Hu, !CallFacts.recomputed_unfold, E1, E2, E3.
    assert (Ei : (issuesFound (metrics w) =? 0) = false) by (apply Z.eqb_neq; lia).
    assert (Ei' : (issuesFound (metrics w) + n =? 0) = false) by (apply Z.eqb_neq; lia).
    rewrite Ei, Ei'.
    pose proof (RoundFacts.percent_mono_issues (fixesApplied (metrics w))
                  (issuesFound (metrics w)) (issuesFound (metrics w) + n)). lia.
Qed.

(** One file with four issues and one fix: a second fix raises the progress
    from 25 to 50, a second file with four issues lowers it to 13. *)
Lemma progress_moves_with_fixes_witness :
  let cs := [RecordAnalysis 1 "a.js" 4 None; RecordFix 2 "fetch" None] in
  let w := run cs (constructor [] 0) in
  Forall valid_call cs
  /\ modernizationProgress (getMetrics w) = 25
  /\ modernizationProgress (getMetrics (recordFix 3 "fetch" None w)) = 50
  /\ modernizationProgress (getMetrics (recordAnalysis 3 "b.js" 4 None w)) = 13
  /\ modernizationProgress (getMetrics (recordAnalysis 3 "b.js" 4 None w))
     <= modernizationProgress (getMetrics w).
Proof.
  intros cs w.
  assert (Hvalid : Forall valid_call cs) by (repeat constructor; simpl; lia).
  split; [exact Hvalid|]. do 3 (split; [reflexivity|]).
  apply (proj2 (progress_moves_with_fixes [] 0 cs Hvalid) 3 "b.js" 4 None);
    [lia | reflexivity].
Defined.

(** ** Allocation *)

Module AllocFacts.
Import MetricsTracker Spec TrackerFacts CallFacts.

Lemma lookup_store_prop_ne h l k v (l' : nat) :
  l <> l' -> store_prop h l k v !! l' = h !! l'.
Proof.
  intros Hne. unfold store_prop. destruct (h !! l) as [[]|]; try reflexivity.
  now apply list_lookup_insert_ne.
Qed.

Lemma lookup_push_analysis_ne h l e (l' : nat) :
  l <> l' -> push_analysis h l e !! l' = h !! l'.
Proof.
  intros Hne. unfold push_analysis. destruct (h !! l) as [[]|]; try reflexivity.
  now apply list_lookup_insert_ne.
Qed.

Lemma lookup_push_fix_ne h l e (l' : nat) :
  l <> l' -> push_fix h l e !! l' = h !! l'.
Proof.
  intros Hne. unfold push_fix. destruct (h !! l) as [[]|]; try reflexivity.
  now apply list_lookup_insert_ne.
Qed.

Lemma well_formed_allocated w : well_formed w -> refs_allocated w.
Proof.
  intros (H1 & H2 & H3). unfold refs_allocated.
  repeat split; apply lookup_lt_is_Some.
  - destruct (heap w !! featureUsage (metrics w)); [eauto | discriminate].
  - destruct (heap w !! analysisHistory (metrics w)); [eauto | discriminate].
  - destruct (heap w !! fixHistory (metrics w)); [eauto | discriminate].
Qed.

(** A recording call writes at the tracker's references only. *)
Lemma call_lookup_other w c (l : nat) :
  is_recording c = true ->
  l <> featureUsage (metrics w) ->
  l <> analysisHistory (metrics w) ->
  l <> fixHistory (metrics w) ->
  heap (call w c) !! l = heap w !! l.
Proof.
  intros Hc H1 H2 H3. destruct c; try discriminate; cbn [call].
  - unfold recordAnalysis. cbn [heap analysisHistory]. now apply lookup_push_analysis_ne.
  - unfold recordFix. cbn [heap fixHistory]. now apply lookup_push_fix_ne.
  - unfold recordFeatureUsage. cbn [heap].
    rewrite lookup_store_prop_ne by congruence.
    destruct (JS.falsy _); [now apply lookup_store_prop_ne | reflexivity].
Qed.

(** What lies in the heap below the tracker's references is out of the
    tracker's reach, whatever it is called to do. *)
Lemma call_keeps_below n w c :
  well_formed w -> refs_from n w ->
  same_below n (heap w) (heap (call w c)) /\ refs_from n (call w c).
Proof.
  intros Hwf (R1 & R2 & R3). destruct (is_recording c) eqn:Hc.
  - split.
    + intros l Hl. apply call_lookup_other; [exact Hc|lia..].
    + destruct (call_refs w c Hc) as (E1 & E2 & E3).
      unfold refs_from. now rewrite E1, E2, E3.
  - destruct c; try discriminate. cbn [call]. unfold reset.
    pose proof (well_formed_allocated w Hwf) as (A1 & _).
    split.
    + intros l Hl. rewrite fresh_metrics_heap. apply lookup_app_l. lia.
    + pose proof (fresh_metrics_refs (heap w) now) as (E1 & E2 & E3).
      unfold refs_from. rewrite E1, E2, E3. lia.
Qed.

Lemma run_keeps_below n cs w :
  well_formed w -> refs_from n w ->
  same_below n (heap w) (heap (run cs w)) /\ refs_from n (run cs w).
Proof.
  revert w. induction cs as [|c cs IH]; intros w Hwf Hr; simpl.
  - split; [now intros l Hl | exact Hr].
  - destruct (call_keeps_below n w c Hwf Hr) as [Hs Hr'].
    destruct (IH (call w c) (call_well_formed w c Hwf) Hr') as [Hs' Hr''].
    split; [|exact Hr'']. intros l Hl. rewrite (Hs' l Hl). now apply Hs.
Qed.

(** Writing through references other than the tracker's does not change
    the tracker's state. *)
Lemma mutate_other (snapshot : AdoptionMetrics) mu w :
  featureUsage snapshot <> featureUsage (metrics w) ->
  analysisHistory snapshot <> analysisHistory (metrics w) ->
  fixHistory snapshot <> fixHistory (metrics w) ->
  state (mutate snapshot mu w) = state w.
Proof.
  intros H1 H2 H3. unfold state, usage, analyses, fixes, mutate. cbn [heap metrics].
  destruct mu as [k v|e|e].
  - now rewrite props_at_store_prop_ne, analysis_at_store_prop, fixes_at_store_prop.
  - rewrite props_at_push_analysis, fixes_at_push_analysis.
    unfold analysis_at at 1. now rewrite lookup_push_analysis_ne.
  - rewrite props_at_push_fix, analysis_at_push_fix.
    unfold fixes_at at 1. now rewrite lookup_push_fix_ne.
Qed.

End AllocFacts.

(** X9: [reset] gives the tracker new containers.  For a snapshot taken by
    [getMetrics] in a state reached from construction, whatever is recorded
    after a later [reset] leaves the snapshot's [featureUsage],
    [analysisHistory] and [fixHistory] as they were at the reset, and what a
    caller then writes through the snapshot does not change the tracker's
    state. *)
Theorem reset_detaches_snapshots (h : Heap) (start : Date) (cs : list Call)
    (now : Date) (later : list Call) :
  let w := run cs (constructor h start) in
  let snapshot := getMetrics w in
  let w' := run later (reset now w) in
  props_at (heap w') (featureUsage snapshot) = usage w
  /\ analysis_at (heap w') (analysisHistory snapshot) = analyses w
  /\ fixes_at (heap w') (fixHistory snapshot) = fixes w
  /\ (forall mu, state (mutate snapshot mu w') = state w').
Proof.
  intros w snapshot w'.
  pose proof (HistoryFacts.reachable_well_formed h start cs) as Hwf. fold w in Hwf.
  pose proof (AllocFacts.well_formed_allocated w Hwf) as (A1 & A2 & A3).
  assert (Hreset : same_below (length (heap w)) (heap w) (heap (reset now w))
                   /\ refs_from (length (heap w)) (reset now w)).
  { unfold reset. split.
    - intros l Hl. rewrite TrackerFacts.fresh_metrics_heap. now apply lookup_app_l.
    - pose proof (TrackerFacts.fresh_metrics_refs (heap w) now) as (E1 & E2 & E3).
      unfold refs_from. rewrite E1, E2, E3. lia. }
  destruct Hreset as [Hs0 Hr0].
  destruct (AllocFacts.run_keeps_below (length (heap w)) later (reset now w)
              (TrackerFacts.fresh_metrics_well_formed (heap w) now) Hr0) as [Hs (R1 & R2 & R3)].
  fold w' in Hs, R1, R2, R3.
  assert (Hsame : forall l : nat, (l < length (heap w))%nat -> heap w' !! l = heap w !! l).
  { intros l Hl. rewrite (Hs l Hl). now apply Hs0. }
  unfold usage, analyses, fixes, props_at, analysis_at, fixes_at, snapshot, getMetrics.
  rewrite !Hsame by assumption. repeat split.
  intros mu. apply AllocFacts.mutate_other; lia.
Qed.

(** ** Sessions without reset *)

Module RecordingFacts.
Import MetricsTracker Spec TrackerFacts CallFacts.

Lemma call_analyses w c :
  well_formed w -> is_recording c = true ->
  analyses (call w c) = analyses w ++ analysis_entries [c]
  /\ fixes (call w c) = fixes w ++ fix_entries [c].
Proof.
  intros Hwf Hc. destruct c as [now fp n lang|now fid fn|fid cnt|now]; try discriminate;
    cbn [call analysis_entries fix_entries flat_map app].
  - rewrite HistoryFacts.recordAnalysis_analyses by assumption.
    destruct (recordAnalysis_containers now fp n lang w Hwf) as (_ & -> & _).
    now rewrite app_nil_r.
  - rewrite HistoryFacts.recordFix_fixes by assumption.
    destruct (recordFix_containers now fid fn w Hwf) as (_ & -> & _).
    now rewrite app_nil_r.
  - destruct (recordFeatureUsage_histories fid cnt w) as (-> & ->).
    now rewrite !app_nil_r.
Qed.

Lemma entries_cons c cs :
  analysis_entries (c :: cs) = analysis_entries [c] ++ analysis_entries cs
  /\ fix_entries (c :: cs) = fix_entries [c] ++ fix_entries cs.
Proof.
  unfold analysis_entries, fix_entries. simpl. now rewrite !app_nil_r.
Qed.

Lemma run_analyses cs w :
  well_formed w -> Forall (fun c => is_recording c = true) cs ->
  analyses (run cs w) = analyses w ++ analysis_entries cs
  /\ fixes (run cs w) = fixes w ++ fix_entries cs.
Proof.
  revert w. induction cs as [|c cs IH]; intros w Hwf Hrec.
  - simpl. now rewrite !app_nil_r.
  - change (run (c :: cs) w) with (run cs (call w c)).
    apply Forall_cons in Hrec as [Hc Hrec].
    destruct (IH (call w c) (call_well_formed w c Hwf) Hrec) as [-> ->].
    destruct (call_analyses w c Hwf Hc) as [-> ->].
    destruct (entries_cons c cs) as [-> ->]. now rewrite <- !app_assoc.
Qed.

(** The counters after calls without reset. *)
Lemma getAnalysisHistory_run cs w :
  well_formed w -> Forall (fun c => is_recording c = true) cs ->
  getAnalysisHistory (run cs w) = rev (analysis_entries cs) ++ getAnalysisHistory w.
Proof.
  intros Hwf Hrec. destruct (run_analyses cs w Hwf Hrec) as [Ha _].
  unfold analyses in Ha. unfold getAnalysisHistory.
  now rewrite Ha, rev_app_distr.
Qed.

Lemma call_counters w c :
  is_recording c = true ->
  filesAnalyzed (metrics (call w c))
  = filesAnalyzed (metrics w) + Z.of_nat (length (analysis_entries [c]))
  /\ issuesFound (metrics (call w c))
     = issuesFound (metrics w) + sum_issues (analysis_entries [c])
  /\ fixesApplied (metrics (call w c))
     = fixesApplied (metrics w) + Z.of_nat (length (fix_entries [c])).
Proof.
  intros Hc. destruct c as [now fp n lang|now fid fn|fid cnt|now]; try discriminate;
    cbn [call analysis_entries fix_entries flat_map app length sum_issues foldr
         a_issuesCount analysis_entry].
  - destruct (recordAnalysis_counters now fp n lang w) as (-> & -> & -> & _). lia.
  - destruct (recordFix_counters now fid fn w) as (-> & -> & -> & _). lia.
  - cbn [recordFeatureUsage metrics]. lia.
Qed.

Lemma sum_issues_app l l' : sum_issues (l ++ l') = sum_issues l + sum_issues l'.
Proof.
  unfold sum_issues. induction l as [|e l IH]; simpl; [lia|]. rewrite IH. lia.
Qed.

Lemma run_counters cs w :
  Forall (fun c => is_recording c = true) cs ->
  filesAnalyzed (metrics (run cs w))
  = filesAnalyzed (metrics w) + Z.of_nat (length (analysis_entries cs))
  /\ issuesFound (metrics (run cs w))
     = issuesFound (metrics w) + sum_issues (analysis_entries cs)
  /\ fixesApplied (metrics (run cs w))
     = fixesApplied (metrics w) + Z.of_nat (length (fix_entries cs)).
Proof.
  revert w. induction cs as [|c cs IH]; intros w Hrec.
  - simpl. repeat split; lia.
  - change (run (c :: cs) w) with (run cs (call w c)).
    apply Forall_cons in Hrec as [Hc Hrec].
    destruct (IH (call w c) Hrec) as (-> & -> & ->).
    destruct (call_counters w c Hc) as (-> & -> & ->).
    destruct (entries_cons c cs) as [-> ->].
    rewrite !length_app, sum_issues_app. repeat split; lia.
Qed.

(** [featureUsage] follows the calls. *)
Lemma call_usage w c : well_formed w -> usage (call w c) = note_usage (usage w) c.
Proof.
  intros Hwf. destruct c as [now fp n lang|now fid fn|fid cnt|now]; cbn [call note_usage].
  - apply recordAnalysis_usage.
  - apply recordFix_usage.
  - apply (recordFeatureUsage_usage fid cnt w (proj1 Hwf)).
  - unfold reset. now destruct (fresh_metrics_empty (heap w) now) as (-> & _).
Qed.

Lemma run_usage cs w : well_formed w -> usage (run cs w) = fold_left note_usage cs (usage w).
Proof.
  revert w. induction cs as [|c cs IH]; intros w Hwf; simpl; [reflexivity|].
  rewrite IH by now apply call_well_formed. now rewrite call_usage.
Qed.

(** The stored progress after calls, for a progress that was up to date. *)
Lemma run_up_to_date cs w : up_to_date w -> up_to_date (run cs w).
Proof.
  apply (run_invariant up_to_date (fun _ => True)); [|apply Forall_any].
  intros w' c _. apply SessionFacts.call_up_to_date.
Qed.

(** [Math.floor(Math.random() * n)] is one of [0 .. n - 1]. *)
Lemma floor_random (r : Q) (n : Z) :
  (0 <= r)%Q -> (r < 1)%Q -> 0 < n ->
  0 <= JS.Math_floor (r * inject_Z n)%Q < n.
Proof.
  intros H0 H1 Hn. unfold JS.Math_floor.
  assert (Hq : (0 < inject_Z n)%Q) by (change 0%Q with (inject_Z 0); now rewrite <- Zlt_Qlt).
  split.
  - change 0 with (Qfloor 0). apply Qfloor_resp_le.
    apply Qmult_le_0_compat; [exact H0 | now apply Qlt_le_weak].
  - pose proof (Qfloor_le (r * inject_Z n)) as Hle.
    assert (Hm : (r * inject_Z n < 1 * inject_Z n)%Q) by now apply Qmult_lt_compat_r.
    rewrite Qmult_1_l in Hm.
    assert (Hlt : (inject_Z (Qfloor (r * inject_Z n)) < inject_Z n)%Q)
      by (eapply Qle_lt_trans; eassumption).
    now rewrite <- Zlt_Qlt in Hlt.
Qed.

Lemma sample_issues_bounds random index :
  unit_interval random -> 1 <= sample_issues random index <= 5.
Proof.
  intros H. destruct (H index) as [H0 H1]. unfold sample_issues.
  pose proof (floor_random (random index) 5 H0 H1). 
  change (inject_Z 5) with 5%Q in H2. lia.
Qed.

Lemma sample_count_bounds random index :
  unit_interval random -> 1 <= sample_count random index <= 8.
Proof.
  intros H. destruct (H index) as [H0 H1]. unfold sample_count.
  pose proof (floor_random (random index) 8 H0 H1).
  change (inject_Z 8) with 8%Q in H2. lia.
Qed.

Lemma loadSampleData_calls now random w :
  loadSampleData now random w = run (sample_calls now random) w.
Proof.
  cbv [loadSampleData sampleFiles sampleFeatures length seq combine fold_left
       sample_language JS.endsWith String.eqb Ascii.eqb Bool.eqb orb String.append
       sample_calls run call sample_issues sample_count].
  reflexivity.
Qed.

Lemma dashboard_loadSampleData_calls now w :
  BaselineWebviewProvider.loadSampleData now w = run (dashboard_sample_calls now) w.
Proof.
  cbv [BaselineWebviewProvider.loadSampleData dashboard_sample_calls run fold_left call].
  reflexivity.
Qed.

End RecordingFacts.

(** X10: [loadSampleData] of the tracker, for any results of
    [Math.random()] and any clock, in a state reached from construction: it
    adds 5 analysed files, 3 fixes and between 5 and 25 issues; it adds
    between 1 and 8 to the count of each of its seven sample features and
    leaves the other counts; the five new history entries carry the file
    names without directory and the languages javascript, css or html, never
    typescript.  On a fresh tracker the resulting progress lies between 12
    and 60. *)
Theorem sample_data_bounds (h : Heap) (start : Date) (cs : list Call)
    (now : nat -> Date) (random : nat -> Q) :
  unit_interval random ->
  let w := run cs (constructor h start) in
  let w' := loadSampleData now random w in
  filesAnalyzed (getMetrics w') = filesAnalyzed (getMetrics w) + 5
  /\ fixesApplied (getMetrics w') = fixesApplied (getMetrics w) + 3
  /\ issuesFound (getMetrics w) + 5 <= issuesFound (getMetrics w')
     <= issuesFound (getMetrics w) + 25
  /\ (forall featureId,
        In featureId MetricsTracker.sampleFeatures ->
        usage_count w featureId + 1 <= usage_count w' featureId
        <= usage_count w featureId + 8)
  /\ (forall featureId,
        ~ In featureId MetricsTracker.sampleFeatures ->
        usage_count w' featureId = usage_count w featureId)
  /\ map (fun e => (a_fileName e, a_language e)) (getAnalysisHistory w')
     = [ ("index.html", "html"); ("api.js", "javascript"); ("main.css", "css");
         ("Header.js", "javascript"); ("app.js", "javascript") ]
       ++ map (fun e => (a_fileName e, a_language e)) (getAnalysisHistory w)
  /\ (cs = [] -> 12 <= modernizationProgress (getMetrics w') <= 60).
Proof.
  intros Hrandom w w'.
  pose proof (HistoryFacts.reachable_well_formed h start cs) as Hwf. fold w in Hwf.
  assert (Hrec : Forall (fun c => is_recording c = true) (sample_calls now random))
    by (repeat constructor).
  assert (Hw' : w' = run (sample_calls now random) w)
    by apply RecordingFacts.loadSampleData_calls.
  pose proof (sample_issues_bounds := RecordingFacts.sample_issues_bounds random).
  pose proof (sample_count_bounds := RecordingFacts.sample_count_bounds random).
  pose proof (sample_issues_bounds 0%nat Hrandom) as I0.
  pose proof (sample_issues_bounds 1%nat Hrandom) as I1.
  pose proof (sample_issues_bounds 2%nat Hrandom) as I2.
  pose proof (sample_issues_bounds 3%nat Hrandom) as I3.
  pose proof (sample_issues_bounds 4%nat Hrandom) as I4.
  destruct (RecordingFacts.run_counters (sample_calls now random) w Hrec) as (Ef & Ei & Ex).
  rewrite <- Hw' in Ef, Ei, Ex.
  cbn [sample_calls analysis_entries fix_entries flat_map app length sum_issues foldr
       a_issuesCount analysis_entry] in Ef, Ei, Ex.
  unfold getMetrics.
  split; [rewrite Ef; lia|]. split; [rewrite Ex; lia|]. split; [rewrite Ei; lia|].
  assert (Hcount : forall featureId,
            usage_count w' featureId
            = fold_left (note_count featureId) (sample_calls now random)
                (usage_count w featureId)).
  { intros featureId. rewrite Hw'. now apply SessionStepFacts.run_usage_count. }
  split; [|split; [|split]].
  - intros featureId Hin. rewrite Hcount.
    pose proof (sample_count_bounds 5%nat Hrandom).
    pose proof (sample_count_bounds 6%nat Hrandom).
    pose proof (sample_count_bounds 7%nat Hrandom).
    pose proof (sample_count_bounds 8%nat Hrandom).
    pose proof (sample_count_bounds 9%nat Hrandom).
    pose proof (sample_count_bounds 10%nat Hrandom).
    pose proof (sample_count_bounds 11%nat Hrandom).
    cbn [MetricsTracker.sampleFeatures In] in Hin.
    destruct Hin as [<-|[<-|[<-|[<-|[<-|[<-|[<-|[]]]]]]]];
      cbn [sample_calls fold_left note_count from_option id]; simpl String.eqb;
      cbn [from_option id]; lia.
  - intros featureId Hout. rewrite Hcount.
    cbn [MetricsTracker.sampleFeatures In] in Hout.
    cbn [sample_calls fold_left note_count].
    repeat match goal with
      | |- context [String.eqb ?k featureId] =>
          let E := fresh "E" in
          destruct (String.eqb k featureId) eqn:E;
          [apply String.eqb_eq in E; tauto|]
      end.
    reflexivity.
  - clearbody w'. subst w'.
    rewrite (RecordingFacts.getAnalysisHistory_run _ _ Hwf Hrec), map_app.
    apply (f_equal (fun l => l ++ _)). vm_compute. reflexivity.
  - intros ->.
    assert (Hup : up_to_date w').
    { rewrite Hw'. apply RecordingFacts.run_up_to_date. reflexivity. }
    unfold up_to_date in Hup. rewrite Hup, CallFacts.recomputed_unfold, Ef, Ei, Ex.
    change (filesAnalyzed (metrics w)) with 0.
    change (issuesFound (metrics w)) with 0.
    change (fixesApplied (metrics w)) with 0.
    set (d := 0 + (sample_issues random 0 + (sample_issues random 1
                  + (sample_issues random 2 + (sample_issues random 3
                  + (sample_issues random 4 + 0)))))).
    assert (Hd : 5 <= d <= 25) by (subst d; lia).
    assert (Ed : (d =? 0) = false) by (apply Z.eqb_neq; lia). rewrite Ed.
    pose proof (RoundFacts.percent_mono_issues 3 5 d) as Hhi.
    pose proof (RoundFacts.percent_mono_issues 3 d 25) as Hlo.
    change (percent 3 5) with 60 in Hhi. change (percent 3 25) with 12 in Hlo.
    change (0 + Z.of_nat 3) with 3. lia.
Qed.

(** Every [Math.random()] returning one half: three issues per file, fifteen
    in all, and a progress of 20. *)
Lemma sample_data_bounds_witness :
  let random := fun _ : nat => (1 # 2)%Q in
  let w' := loadSampleData (fun _ => 0) random (run [] (constructor [] 0)) in
  unit_interval random
  /\ issuesFound (getMetrics w') = 15
  /\ modernizationProgress (getMetrics w') = 20
  /\ 12 <= modernizationProgress (getMetrics w') <= 60.
Proof.
  intros random w'.
  assert (Hr : unit_interval random) by (intros k; split; [discriminate | reflexivity]).
  split; [exact Hr|]. split; [vm_compute; reflexivity|]. split; [vm_compute; reflexivity|].
  exact (proj2 (proj2 (proj2 (proj2 (proj2 (proj2
           (sample_data_bounds [] 0 [] (fun _ => 0) random Hr)))))) eq_refl).
Defined.

(** ** The sample data of the dashboard *)

Module SampleFacts.
Import MetricsTracker Spec TrackerFacts CallFacts.

Lemma getFixHistory_run cs w :
  well_formed w -> Forall (fun c => is_recording c = true) cs ->
  getFixHistory (run cs w) = rev (fix_entries cs) ++ getFixHistory w.
Proof.
  intros Hwf Hrec. destruct (RecordingFacts.run_analyses cs w Hwf Hrec) as [_ Hf].
  unfold fixes in Hf. unfold getFixHistory.
  now rewrite Hf, rev_app_distr.
Qed.

Lemma dashboard_calls_recording now :
  Forall (fun c => is_recording c = true) (dashboard_sample_calls now).
Proof. repeat constructor. Qed.

Lemma load_well_formed now w :
  well_formed w -> well_formed (BaselineWebviewProvider.loadSampleData now w).
Proof.
  intros Hwf. rewrite RecordingFacts.dashboard_loadSampleData_calls.
  now apply run_well_formed.
Qed.

Lemma load_counters now w :
  let w' := BaselineWebviewProvider.loadSampleData now w in
  filesAnalyzed (metrics w') = filesAnalyzed (metrics w) + 2
  /\ issuesFound (metrics w') = issuesFound (metrics w) + 5
  /\ fixesApplied (metrics w') = fixesApplied (metrics w) + 2.
Proof.
  intros w'. subst w'. rewrite RecordingFacts.dashboard_loadSampleData_calls.
  destruct (RecordingFacts.run_counters (dashboard_sample_calls now) w
              (dashboard_calls_recording now)) as (-> & -> & ->).
  cbn [dashboard_sample_calls analysis_entries fix_entries flat_map app length sum_issues
       foldr a_issuesCount analysis_entry].
  repeat split; lia.
Qed.

Lemma loads_well_formed clocks w :
  well_formed w -> well_formed (load_dashboard_samples clocks w).
Proof.
  revert w. induction clocks as [|now clocks IH]; intros w Hwf; [exact Hwf|].
  apply IH. now apply load_well_formed.
Qed.

Lemma loads_counters clocks w :
  let n := Z.of_nat (length clocks) in
  let w' := load_dashboard_samples clocks w in
  filesAnalyzed (metrics w') = filesAnalyzed (metrics w) + 2 * n
  /\ issuesFound (metrics w') = issuesFound (metrics w) + 5 * n
  /\ fixesApplied (metrics w') = fixesApplied (metrics w) + 2 * n.
Proof.
  revert w. induction clocks as [|now clocks IH]; intros w.
  - cbn. repeat split; lia.
  - cbv zeta in IH |- *.
    change (load_dashboard_samples (now :: clocks) w)
      with (load_dashboard_samples clocks (BaselineWebviewProvider.loadSampleData now w)).
    destruct (IH (BaselineWebviewProvider.loadSampleData now w)) as (-> & -> & ->).
    destruct (load_counters now w) as (-> & -> & ->).
    rewrite length_cons, Nat2Z.inj_succ. repeat split; lia.
Qed.

Lemma loads_up_to_date clocks w :
  up_to_date w -> up_to_date (load_dashboard_samples clocks w).
Proof.
  revert w. induction clocks as [|now clocks IH]; intros w Hup; [exact Hup|].
  apply IH. rewrite RecordingFacts.dashboard_loadSampleData_calls.
  now apply RecordingFacts.run_up_to_date.
Qed.

(** [featureUsage] after one more load. *)
Lemma load_usage_first now w :
  well_formed w -> usage w = [] ->
  usage (BaselineWebviewProvider.loadSampleData now w) = dashboard_usage 1.
Proof.
  intros Hwf Hu. rewrite RecordingFacts.dashboard_loadSampleData_calls.
  rewrite (RecordingFacts.run_usage _ _ Hwf), Hu. reflexivity.
Qed.

Lemma load_usage_next now w n :
  well_formed w -> usage w = dashboard_usage n ->
  usage (BaselineWebviewProvider.loadSampleData now w) = dashboard_usage (n + 1).
Proof.
  intros Hwf Hu. rewrite RecordingFacts.dashboard_loadSampleData_calls.
  rewrite (RecordingFacts.run_usage _ _ Hwf), Hu.
  cbv [dashboard_sample_calls dashboard_usage fold_left note_usage JS.set JS.get
       String.eqb Ascii.eqb Bool.eqb default from_option id].
  repeat (f_equal; try lia).
Qed.

Lemma loads_usage_next clocks w n :
  well_formed w -> usage w = dashboard_usage n ->
  usage (load_dashboard_samples clocks w)
  = dashboard_usage (n + Z.of_nat (length clocks)).
Proof.
  revert w n. induction clocks as [|now clocks IH]; intros w n Hwf Hu.
  - cbn [load_dashboard_samples fold_left length]. rewrite Hu. f_equal. cbn. lia.
  - change (load_dashboard_samples (now :: clocks) w)
      with (load_dashboard_samples clocks (BaselineWebviewProvider.loadSampleData now w)).
    rewrite (IH _ (n + 1)); [f_equal; rewrite length_cons; lia| |].
    + now apply load_well_formed.
    + now apply load_usage_next.
Qed.

Lemma loads_usage clocks w :
  well_formed w -> usage w = [] -> clocks <> [] ->
  usage (load_dashboard_samples clocks w) = dashboard_usage (Z.of_nat (length clocks)).
Proof.
  intros Hwf Hu Hne. destruct clocks as [|now clocks]; [congruence|].
  change (load_dashboard_samples (now :: clocks) w)
    with (load_dashboard_samples clocks (BaselineWebviewProvider.loadSampleData now w)).
  rewrite (loads_usage_next clocks _ 1).
  - f_equal. rewrite length_cons. lia.
  - now apply load_well_formed.
  - now apply load_usage_first.
Qed.

(** The most used features for that [featureUsage]. *)
Lemma most_used_dashboard w n :
  0 < n -> usage w = dashboard_usage n -> getMostUsedFeatures w = dashboard_most_used n.
Proof.
  intros Hn Hu. rewrite MostUsedFacts.getMostUsedFeatures_unfold, Hu.
  change (JS.Object_entries (dashboard_usage n)) with (dashboard_usage n).
  unfold dashboard_most_used, entry.
  cbn [dashboard_usage map JS.sort foldr JS.sort_insert count fst snd].
  repeat match goal with
         | |- context [?a >? 0] =>
             first [ replace (a >? 0) with true by (symmetry; apply Z.gtb_lt; lia)
                   | replace (a >? 0) with false
                       by (symmetry; rewrite Z.gtb_ltb; apply Z.ltb_ge; lia) ];
             cbn [JS.sort_insert count fst snd]
         end.
  reflexivity.
Qed.

(** The two rounded quotients of the sample counters. *)
Lemma percent_sample n : 0 < n -> percent (2 * n) (5 * n) = 40.
Proof.
  intros Hn. rewrite !(Z.mul_comm _ n).
  rewrite RoundFacts.percent_scale by lia. vm_compute. reflexivity.
Qed.

Lemma average_sample n : 0 < n -> JS.Math_round (JS.quotient (5 * n) (2 * n)) = 3.
Proof.
  intros Hn. rewrite !(Z.mul_comm _ n).
  rewrite (RoundFacts.Math_round_comp _ _ (RoundFacts.quotient_scale n 5 2 ltac:(lia) ltac:(lia))).
  vm_compute. reflexivity.
Qed.

(** The recommendations, rule by rule. *)
Lemma generateRecommendations_rules (w : World) :
  let m := getMetrics w in
  BaselineWebviewProvider.generateRecommendations w
  = (if (issuesFound m >? 0) && (percent (fixesApplied m) (issuesFound m) <? 50)
     then [BaselineWebviewProvider.low_fix_rate (issuesFound m)
             (percent (fixesApplied m) (issuesFound m))]
     else [])
    ++ (if (filesAnalyzed m >? 0) && (average m >? 2)
        then [BaselineWebviewProvider.high_density (average m)] else [])
    ++ (match getMostUsedFeatures w with
        | topFeature :: _ => [BaselineWebviewProvider.common_pattern topFeature]
        | [] => []
        end)
    ++ [BaselineWebviewProvider.baseline_adoption;
        BaselineWebviewProvider.browser_compatibility].
Proof.
  intros m.
  unfold BaselineWebviewProvider.generateRecommendations, BaselineWebviewProvider.push,
    average, percent. fold m.
  destruct (issuesFound m >? 0); cbn [andb app];
    [destruct (JS.Math_round (JS.product (JS.quotient (fixesApplied m) (issuesFound m)) 100) <? 50)|];
    (destruct (filesAnalyzed m >? 0); cbn [andb app];
     [destruct (JS.Math_round (JS.quotient (issuesFound m) (filesAnalyzed m)) >? 2)|]);
    destruct (getMostUsedFeatures w); reflexivity.
Qed.

End SampleFacts.

(** X11: the dashboard's [loadSampleData], run on opening the panel and on
    every [loadSampleData] message, in a state reached from construction:
    it adds 2 analysed files, 5 issues and 2 fixes; it adds 2 to the counts
    of ["var"] and ["float"], 1 to those of ["XMLHttpRequest"],
    ["function"], ["<div>"] and ["<b><i><u>"], and leaves the other counts;
    the two new analysis entries are [app.js] and [styles.css] with the
    default language ["unknown"], and the two new fix entries have an empty
    file name. *)
Theorem dashboard_sample_load (h : Heap) (start : Date) (cs : list Call)
    (now : nat -> Date) :
  let w := run cs (constructor h start) in
  let w' := BaselineWebviewProvider.loadSampleData now w in
  filesAnalyzed (getMetrics w') = filesAnalyzed (getMetrics w) + 2
  /\ issuesFound (getMetrics w') = issuesFound (getMetrics w) + 5
  /\ fixesApplied (getMetrics w') = fixesApplied (getMetrics w) + 2
  /\ (forall featureId,
        usage_count w' featureId
        = usage_count w featureId
          + (if String.eqb featureId "var" || String.eqb featureId "float" then 2
             else if String.eqb featureId "XMLHttpRequest"
                     || String.eqb featureId "function"
                     || String.eqb featureId "<div>"
                     || String.eqb featureId "<b><i><u>" then 1
             else 0))
  /\ getAnalysisHistory w'
     = [ {| a_timestamp := now 1%nat; a_fileName := "styles.css"; a_issuesCount := 2;
            a_language := "unknown" |};
         {| a_timestamp := now 0%nat; a_fileName := "app.js"; a_issuesCount := 3;
            a_language := "unknown" |} ]
       ++ getAnalysisHistory w
  /\ getFixHistory w'
     = [ {| f_timestamp := now 3%nat; f_featureId := "fetch"; f_fileName := "" |};
         {| f_timestamp := now 2%nat; f_featureId := "let-const"; f_fileName := "" |} ]
       ++ getFixHistory w.
Proof.
  intros w w'.
  pose proof (HistoryFacts.reachable_well_formed h start cs) as Hwf. fold w in Hwf.
  pose proof (SampleFacts.dashboard_calls_recording now) as Hrec.
  assert (Hw' : w' = run (dashboard_sample_calls now) w)
    by apply RecordingFacts.dashboard_loadSampleData_calls.
  clearbody w'. subst w'. clearbody w.
  destruct (RecordingFacts.run_counters (dashboard_sample_calls now) w Hrec)
    as (Ef & Ei & Ex).
  cbn [dashboard_sample_calls analysis_entries fix_entries flat_map app length sum_issues
       foldr a_issuesCount analysis_entry] in Ef, Ei, Ex.
  unfold getMetrics.
  split; [rewrite Ef; lia|]. split; [rewrite Ei; lia|]. split; [rewrite Ex; lia|].
  split; [|split].
  - intros featureId.
    rewrite (SessionStepFacts.run_usage_count _ _ featureId Hwf).
    cbn [dashboard_sample_calls fold_left note_count from_option id default].
    rewrite !(String.eqb_sym featureId).
    destruct (String.eqb "var" featureId) eqn:E1;
      [apply String.eqb_eq in E1; subst featureId; lazy [String.eqb Ascii.eqb Bool.eqb];
       cbn [orb]; lia|].
    destruct (String.eqb "float" featureId) eqn:E2;
      [apply String.eqb_eq in E2; subst featureId; lazy [String.eqb Ascii.eqb Bool.eqb];
       cbn [orb]; lia|].
    destruct (String.eqb "XMLHttpRequest" featureId) eqn:E3;
      [apply String.eqb_eq in E3; subst featureId; lazy [String.eqb Ascii.eqb Bool.eqb];
       cbn [orb]; lia|].
    destruct (String.eqb "function" featureId) eqn:E4;
      [apply String.eqb_eq in E4; subst featureId; lazy [String.eqb Ascii.eqb Bool.eqb];
       cbn [orb]; lia|].
    destruct (String.eqb "<div>" featureId) eqn:E5;
      [apply String.eqb_eq in E5; subst featureId; lazy [String.eqb Ascii.eqb Bool.eqb];
       cbn [orb]; lia|].
    destruct (String.eqb "<b><i><u>" featureId) eqn:E6; cbn [orb]; lia.
  - rewrite (RecordingFacts.getAnalysisHistory_run _ _ Hwf Hrec).
    apply (f_equal (fun l => l ++ _)). vm_compute. reflexivity.
  - rewrite (SampleFacts.getFixHistory_run _ _ Hwf Hrec).
    apply (f_equal (fun l => l ++ _)). vm_compute. reflexivity.
Qed.

(** X12: the dashboard having loaded its sample data [n >= 1] times into a
    new tracker (the panel opened, then [loadSampleData] messages): the
    counters are [2 n] files, [5 n] issues and [2 n] fixes, the progress is
    40 whatever [n] is, the most used features are ["var"] and ["float"]
    with [2 n] and then the four others with [n], and all five
    recommendations are shown: a fix rate of 40 percent, an average of 3
    issues per file, and ["var"] as the most common pattern. *)
Theorem dashboard_sample_loads (h : Heap) (start : Date)
    (clocks : list (nat -> Date)) :
  clocks <> [] ->
  let n := Z.of_nat (length clocks) in
  let w := load_dashboard_samples clocks (constructor h start) in
  filesAnalyzed (getMetrics w) = 2 * n
  /\ issuesFound (getMetrics w) = 5 * n
  /\ fixesApplied (getMetrics w) = 2 * n
  /\ modernizationProgress (getMetrics w) = 40
  /\ getMostUsedFeatures w = dashboard_most_used n
  /\ BaselineWebviewProvider.generateRecommendations w
     = [ BaselineWebviewProvider.low_fix_rate (5 * n) 40;
         BaselineWebviewProvider.high_density 3;
         BaselineWebviewProvider.common_pattern {| feature := "var"; count := 2 * n |};
         BaselineWebviewProvider.baseline_adoption;
         BaselineWebviewProvider.browser_compatibility ].
Proof.
  intros Hne n w.
  assert (Hn : 0 < n) by (subst n; destruct clocks; [congruence | cbn; lia]).
  pose proof (TrackerFacts.fresh_metrics_well_formed h start) as Hwf0.
  destruct (TrackerFacts.fresh_metrics_empty h start) as (Hu0 & _).
  destruct (SampleFacts.loads_counters clocks (constructor h start)) as (Ef & Ei & Ex).
  fold n w in Ef, Ei, Ex.
  change (filesAnalyzed (metrics (constructor h start))) with 0 in Ef.
  change (issuesFound (metrics (constructor h start))) with 0 in Ei.
  change (fixesApplied (metrics (constructor h start))) with 0 in Ex.
  assert (Hup : up_to_date w)
    by exact (SampleFacts.loads_up_to_date clocks _ (SessionFacts.fresh_metrics_up_to_date h start)).
  assert (Hu : usage w = dashboard_usage n)
    by exact (SampleFacts.loads_usage clocks _ Hwf0 Hu0 Hne).
  pose proof (SampleFacts.most_used_dashboard w n Hn Hu) as Hm.
  pose proof (SampleFacts.percent_sample n Hn) as Hp.
  pose proof (SampleFacts.average_sample n Hn) as Ha.
  clearbody w n. unfold getMetrics.
  rewrite Z.add_0_l in Ef, Ei, Ex.
  split; [exact Ef|]. split; [exact Ei|]. split; [exact Ex|].
  split; [|split; [exact Hm|]].
  - unfold up_to_date in Hup. rewrite Hup, CallFacts.recomputed_unfold, Ef, Ei, Ex.
    replace (5 * n =? 0) with false by (symmetry; apply Z.eqb_neq; lia).
    fold (percent (2 * n) (5 * n)). rewrite Hp. reflexivity.
  - rewrite SampleFacts.generateRecommendations_rules. unfold getMetrics, average.
    rewrite Hm, Ef, Ei, Ex, Hp, Ha.
    replace (5 * n >? 0) with true by (symmetry; apply Z.gtb_lt; lia).
    replace (2 * n >? 0) with true by (symmetry; apply Z.gtb_lt; lia).
    reflexivity.
Qed.

(** The panel opened and one [loadSampleData] message: 4 files, 10 issues,
    4 fixes, and a progress of 40. *)
Lemma dashboard_sample_loads_witness :
  let clocks := [ (fun _ : nat => 1); (fun _ : nat => 2) ] in
  let w := load_dashboard_samples clocks (constructor [] 0) in
  clocks <> []
  /\ issuesFound (getMetrics w) = 10
  /\ modernizationProgress (getMetrics w) = 40.
Proof.
  intros clocks w.
  assert (Hne : clocks <> []) by discriminate.
  split; [exact Hne|].
  pose proof (dashboard_sample_loads [] 0 clocks Hne) as H.
  split; [exact (proj1 (proj2 H)) | exact (proj1 (proj2 (proj2 (proj2 H))))].
Defined.

(** ** The timeline and the recommendations *)

Module TimelineFacts.
Import MetricsTracker BaselineWebviewProvider Spec.

Lemma phase_Implementation w :
  let rate := completionRate (getMetrics w) in
  exists p, phase w "Implementation" = Some p
            /\ p_progress p = rate
            /\ p_status p = (if rate >? 0
                             then (if rate >=? 100 then "completed" else "in-progress")
                             else "pending").
Proof. intros rate. eexists. split; [reflexivity|]. now split. Qed.

Lemma phase_Testing w :
  let rate := completionRate (getMetrics w) in
  exists p, phase w "Testing" = Some p
            /\ p_progress p = (if rate >=? 80 then 60 else 0)
            /\ p_status p = (if rate >=? 80 then "in-progress" else "pending").
Proof. intros rate. eexists. split; [reflexivity|]. now split. Qed.

Lemma phase_Deployment w :
  let rate := completionRate (getMetrics w) in
  exists p, phase w "Deployment" = Some p
            /\ p_progress p = (if rate >=? 100 then 100 else 0)
            /\ p_status p = (if rate >=? 100 then "ready" else "pending").
Proof. intros rate. eexists. split; [reflexivity|]. now split. Qed.

(** The stored progress of a session of valid calls, from the rate of the
    timeline. *)
Lemma progress_of_rate h start cs :
  Forall valid_call cs ->
  let m := getMetrics (run cs (constructor h start)) in
  0 <= completionRate m
  /\ (0 < issuesFound m -> modernizationProgress m = Z.min (completionRate m) 100)
  /\ (issuesFound m = 0 -> completionRate m = 0)
  /\ (issuesFound m = 0 -> 0 < filesAnalyzed m -> modernizationProgress m = 100)
  /\ 0 <= issuesFound m.
Proof.
  intros Hvalid m.
  destruct (SessionStepFacts.reachable_valid h start cs Hvalid) as [Hu (H1 & H2 & H3 & H4)].
  unfold up_to_date in Hu. rewrite CallFacts.recomputed_unfold in Hu.
  unfold getMetrics in m. fold m in Hu, H1, H2, H3, H4. clearbody m.
  unfold completionRate.
  pose proof (JSFacts.percent_nonneg (fixesApplied m) (issuesFound m) H3) as Hp.
  fold (percent (fixesApplied m) (issuesFound m)) in Hp.
  split; [destruct (Z.gtb_spec (issuesFound m) 0); [apply Hp|]; lia|].
  split; [|split; [|split]].
  - intros Hi. rewrite Hu.
    replace (issuesFound m =? 0) with false by (symmetry; apply Z.eqb_neq; lia).
    replace (issuesFound m >? 0) with true by (symmetry; apply Z.gtb_lt; lia).
    reflexivity.
  - intros ->. reflexivity.
  - intros Hi Hf. rewrite Hu, Hi.
    replace (filesAnalyzed m >? 0) with true by (symmetry; apply Z.gtb_lt; lia).
    reflexivity.
  - exact H2.
Qed.

(** A rate strictly between 0 and 100 is shown as in progress. *)
Lemma implementation_in_progress w :
  let m := getMetrics w in
  0 < issuesFound m -> 0 < percent (fixesApplied m) (issuesFound m) < 100 ->
  exists p, phase w "Implementation" = Some p
            /\ p_status p = "in-progress"
            /\ p_progress p = percent (fixesApplied m) (issuesFound m).
Proof.
  intros m Hi Hrate.
  destruct (phase_Implementation w) as (p & Ep & Pp & Sp).
  fold m in Pp, Sp. unfold completionRate in Pp, Sp. clearbody m.
  replace (issuesFound m >? 0) with true in Pp, Sp by (symmetry; apply Z.gtb_lt; lia).
  exists p. split; [exact Ep|]. split; [|exact Pp]. rewrite Sp.
  replace (percent (fixesApplied m) (issuesFound m) >? 0) with true
    by (symmetry; apply Z.gtb_lt; lia).
  replace (percent (fixesApplied m) (issuesFound m) >=? 100) with false; [reflexivity|].
  symmetry. rewrite Z.geb_leb. apply Z.leb_gt. lia.
Qed.

(** The priority recommendation is the one for a low fix rate. *)
Lemma shows_priority_rate w :
  let m := getMetrics w in
  shows_priority w
  <-> 0 < issuesFound m /\ percent (fixesApplied m) (issuesFound m) < 50.
Proof.
  intros m. unfold shows_priority.
  rewrite (SampleFacts.generateRecommendations_rules w). cbv zeta. fold m. split.
  - intros (r & Hin & Hr).
    apply in_app_or in Hin as [Hin|Hin].
    + destruct (Z.gtb_spec (issuesFound m) 0);
        destruct (Z.ltb_spec (percent (fixesApplied m) (issuesFound m)) 50);
        cbn [andb] in Hin; try contradiction. now split.
    + exfalso. apply in_app_or in Hin as [Hin|Hin];
        [|apply in_app_or in Hin as [Hin|Hin]].
      * destruct (_ && _); [|contradiction].
        destruct Hin as [<-|[]]. discriminate.
      * destruct (getMostUsedFeatures w); [contradiction|].
        destruct Hin as [<-|[]]. discriminate.
      * destruct Hin as [<-|[<-|[]]]; discriminate.
  - intros [Hi Hp].
    replace (issuesFound m >? 0) with true by (symmetry; apply Z.gtb_lt; lia).
    replace (percent (fixesApplied m) (issuesFound m) <? 50) with true
      by (symmetry; apply Z.ltb_lt; lia).
    eexists. split; [left; reflexivity | reflexivity].
Qed.

End TimelineFacts.

(** X13: the timeline and the progress of the tracker, in a session of
    calls with non-negative issue counts.  With issues found, the stored
    progress is the progress of the Implementation phase capped at 100: the
    phase itself is not capped.  Without issues the Implementation phase is
    pending at 0, although the stored progress is 100 as soon as a file was
    analysed.  Deployment is ready exactly when Implementation is completed,
    then Testing is in progress and the stored progress is 100. *)
Theorem timeline_agrees_with_progress (h : Heap) (start : Date) (cs : list Call) :
  Forall valid_call cs ->
  let w := run cs (constructor h start) in
  let m := getMetrics w in
  exists implementation testing deployment,
    phase w "Implementation" = Some implementation
    /\ phase w "Testing" = Some testing
    /\ phase w "Deployment" = Some deployment
    /\ 0 <= p_progress implementation
    /\ (0 < issuesFound m ->
        modernizationProgress m = Z.min (p_progress implementation) 100)
    /\ (issuesFound m = 0 ->
        p_progress implementation = 0 /\ p_status implementation = "pending"
        /\ (0 < filesAnalyzed m -> modernizationProgress m = 100))
    /\ (p_status deployment = "ready" <-> p_status implementation = "completed")
    /\ (p_status implementation = "completed" ->
        p_status testing = "in-progress" /\ modernizationProgress m = 100).
Proof.
  intros Hvalid w m.
  destruct (TimelineFacts.progress_of_rate h start cs Hvalid) as (R0 & R1 & R2 & R3 & R4).
  fold w m in R0, R1, R2, R3, R4.
  destruct (TimelineFacts.phase_Implementation w) as (pi & Ei & Pi & Si).
  destruct (TimelineFacts.phase_Testing w) as (pt & Et & Pt & St).
  destruct (TimelineFacts.phase_Deployment w) as (pd & Ed & Pd & Sd).
  fold m in Pi, Si, Pt, St, Pd, Sd.
  exists pi, pt, pd. rewrite Pi, Si, St, Sd. clearbody m. clear Pi Si Pt St Pd Sd.
  split; [exact Ei|]. split; [exact Et|]. split; [exact Ed|]. split; [exact R0|].
  split; [exact R1|]. split.
  - intros Hi. rewrite (R2 Hi). split; [reflexivity|]. split; [reflexivity|]. now apply R3.
  - assert (Hc : (if completionRate m >? 0
                  then if completionRate m >=? 100 then "completed" else "in-progress"
                  else "pending") = "completed" <-> 100 <= completionRate m).
    { destruct (Z.gtb_spec (completionRate m) 0), (Z.geb_spec (completionRate m) 100);
        split; intros; try discriminate; try lia; reflexivity. }
    rewrite Hc. split.
    + destruct (Z.geb_spec (completionRate m) 100); split; intros;
        try discriminate; try lia; reflexivity.
    + intros H100.
      replace (completionRate m >=? 80) with true by (symmetry; apply Z.geb_le; lia).
      split; [reflexivity|].
      assert (Hi : 0 < issuesFound m).
      { destruct (Z.eq_dec (issuesFound m) 0) as [E|E]; [|lia].
        specialize (R2 E). lia. }
      rewrite (R1 Hi). lia.
Qed.

(** One issue and three fixes: the Implementation phase is completed with a
    progress of 300, the stored progress is 100. *)
Lemma timeline_agrees_with_progress_witness :
  let cs := [RecordAnalysis 1 "a.js" 1 None; RecordFix 2 "fetch" None;
             RecordFix 3 "fetch" None; RecordFix 4 "fetch" None] in
  let w := run cs (constructor [] 0) in
  Forall valid_call cs
  /\ option_map p_progress (phase w "Implementation") = Some 300
  /\ modernizationProgress (getMetrics w) = 100
  /\ exists implementation testing deployment,
       phase w "Implementation" = Some implementation
       /\ phase w "Testing" = Some testing
       /\ phase w "Deployment" = Some deployment
       /\ 0 <= p_progress implementation
       /\ (0 < issuesFound (getMetrics w) ->
           modernizationProgress (getMetrics w) = Z.min (p_progress implementation) 100)
       /\ (issuesFound (getMetrics w) = 0 ->
           p_progress implementation = 0 /\ p_status implementation = "pending"
           /\ (0 < filesAnalyzed (getMetrics w) ->
               modernizationProgress (getMetrics w) = 100))
       /\ (p_status deployment = "ready" <-> p_status implementation = "completed")
       /\ (p_status implementation = "completed" ->
           p_status testing = "in-progress"
           /\ modernizationProgress (getMetrics w) = 100).
Proof.
  intros cs w.
  assert (Hvalid : Forall valid_call cs) by (repeat constructor; simpl; lia).
  split; [exact Hvalid|]. split; [vm_compute; reflexivity|].
  split; [vm_compute; reflexivity|].
  exact (timeline_agrees_with_progress [] 0 cs Hvalid).
Defined.

(** X14: the recommendations and the progress of the tracker, in a session
    of calls with non-negative issue counts.  A priority recommendation is
    shown exactly when issues were found and the stored progress is below
    50; it is then the first recommendation and shows that progress as the
    fix percentage.  In every case there are between two and five
    recommendations with distinct identifiers, the last two being
    [baseline_adoption] and [browser_compatibility]. *)
Theorem recommendations_follow_progress (h : Heap) (start : Date) (cs : list Call) :
  Forall valid_call cs ->
  let w := run cs (constructor h start) in
  let m := getMetrics w in
  let recommendations := generateRecommendations w in
  (shows_priority w <-> 0 < issuesFound m /\ modernizationProgress m < 50)
  /\ (shows_priority w ->
      exists rest,
        recommendations
        = low_fix_rate (issuesFound m) (modernizationProgress m) :: rest
        /\ Forall (fun r => r_type r <> "priority") rest)
  /\ (2 <= length recommendations <= 5)%nat
  /\ NoDup (map r_id recommendations)
  /\ exists front, recommendations = front ++ [baseline_adoption; browser_compatibility].
Proof.
  intros Hvalid w m recommendations.
  destruct (TimelineFacts.progress_of_rate h start cs Hvalid) as (R0 & R1 & R2 & _ & R4).
  fold w m in R0, R1, R2, R4.
  pose proof (SampleFacts.generateRecommendations_rules w) as Hrules.
  cbv zeta in Hrules. fold m recommendations in Hrules.
  unfold shows_priority. fold recommendations.
  unfold completionRate in R0, R1, R2.
  clearbody recommendations m. subst recommendations.
  set (top := match getMostUsedFeatures w with
              | topFeature :: _ => [common_pattern topFeature]
              | [] => []
              end).
  assert (Htop : top = [] \/ exists t, top = [common_pattern t]).
  { subst top. destruct (getMostUsedFeatures w) as [|t ?]; [now left | right; now exists t]. }
  clearbody top.
  set (density := if (filesAnalyzed m >? 0) && (average m >? 2)
                  then [high_density (average m)] else []).
  assert (Hdensity : density = [] \/ density = [high_density (average m)]).
  { subst density. destruct (_ && _); [now right | now left]. }
  clearbody density.
  assert (Hrest : Forall (fun r => r_type r <> "priority")
                    (density ++ top ++ [baseline_adoption; browser_compatibility])).
  { destruct Hdensity as [-> | ->], Htop as [-> | [t ->]];
      repeat constructor; discriminate. }
  assert (Hids : forall issues rate,
             NoDup (map r_id (density ++ top ++ [baseline_adoption; browser_compatibility]))
             /\ NoDup (map r_id (low_fix_rate issues rate :: density ++ top
                                   ++ [baseline_adoption; browser_compatibility]))).
  { intros issues rate.
    destruct Hdensity as [-> | ->], Htop as [-> | [t ->]]; cbn [app map r_id low_fix_rate
      high_density common_pattern baseline_adoption browser_compatibility];
      split; apply (bool_decide_unpack _); vm_compute; reflexivity. }
  destruct (Z.gtb_spec (issuesFound m) 0) as [Hi|Hi]; cbn [andb app];
    [destruct (Z.ltb_spec (percent (fixesApplied m) (issuesFound m)) 50) as [Hp|Hp]|];
    cbn [app].
  - (* issues, and a rate below 50 *)
    rewrite (R1 Hi). replace (Z.min (percent (fixesApplied m) (issuesFound m)) 100)
      with (percent (fixesApplied m) (issuesFound m)) by lia.
    split; [split; [intros _; split; lia|]|].
    + intros _. eexists. split; [now left | reflexivity].
    + split; [intros _; eexists; split; [reflexivity | exact Hrest]|].
      split; [|split; [apply Hids|]].
      * destruct Hdensity as [-> | ->], Htop as [-> | [t ->]]; cbn; lia.
      * exists (low_fix_rate (issuesFound m) (percent (fixesApplied m) (issuesFound m))
                  :: density ++ top).
        cbn [app]. now rewrite <- app_assoc.
  - assert (Hno : ~ exists r, In r (density ++ top ++ [baseline_adoption; browser_compatibility])
                              /\ r_type r = "priority").
    { intros (r & Hin & Hr). rewrite Forall_forall in Hrest.
      apply (Hrest r); [now apply list_elem_of_In | exact Hr]. }
    rewrite (R1 Hi).
    split; [split; [intros H; now destruct Hno | lia]|].
    split; [intros H; now destruct Hno|].
    split; [|split; [apply (Hids 0 0)|]].
    + destruct Hdensity as [-> | ->], Htop as [-> | [t ->]]; cbn; lia.
    + exists (density ++ top). now rewrite <- app_assoc.
  - assert (Hno : ~ exists r, In r (density ++ top ++ [baseline_adoption; browser_compatibility])
                              /\ r_type r = "priority").
    { intros (r & Hin & Hr). rewrite Forall_forall in Hrest.
      apply (Hrest r); [now apply list_elem_of_In | exact Hr]. }
    split; [split; [intros H; now destruct Hno | lia]|].
    split; [intros H; now destruct Hno|].
    split; [|split; [apply (Hids 0 0)|]].
    + destruct Hdensity as [-> | ->], Htop as [-> | [t ->]]; cbn; lia.
    + exists (density ++ top). now rewrite <- app_assoc.
Qed.

(** Ten issues and one fix: the first recommendation is the priority one,
    with 10 percent. *)
Lemma recommendations_follow_progress_witness :
  let cs := [RecordAnalysis 1 "a.js" 10 None; RecordFix 2 "fetch" None] in
  let w := run cs (constructor [] 0) in
  Forall valid_call cs
  /\ modernizationProgress (getMetrics w) = 10
  /\ (shows_priority w
      <-> 0 < issuesFound (getMetrics w) /\ modernizationProgress (getMetrics w) < 50).
Proof.
  intros cs w.
  assert (Hvalid : Forall valid_call cs) by (repeat constructor; simpl; lia).
  split; [exact Hvalid|]. split; [vm_compute; reflexivity|].
  exact (proj1 (recommendations_follow_progress [] 0 cs Hvalid)).
Defined.

(** X15: the first dashboard of a session.  [activate] creates the tracker
    and loads the tracker's sample data; opening the dashboard loads the
    dashboard's sample data on top of it, and the script of the dashboard
    asks for it once more when it starts.  Whatever [Math.random()]
    returns: after [show] the tracker has 7 files, 5 fixes, between 10 and
    30 issues and a progress between 17 and 50; after the message of the
    script it has 9 files, 7 fixes, between 15 and 35 issues and a progress
    between 20 and 47, which is the progress of the Implementation phase,
    in progress, and the priority recommendation is shown. *)
Theorem first_dashboard_after_activation (h : Heap) (start : Date)
    (now now' now'' : nat -> Date) (random : nat -> Q) :
  unit_interval random ->
  let opened := show now' false (Extension.activate h start now random) in
  let w := opened.2 in
  let w' := BaselineWebviewProvider.loadSampleData now'' w in
  let m := getMetrics w in
  let m' := getMetrics w' in
  opened.1 = true
  /\ (filesAnalyzed m = 7 /\ fixesApplied m = 5 /\ 10 <= issuesFound m <= 30
      /\ 17 <= modernizationProgress m <= 50)
  /\ (filesAnalyzed m' = 9 /\ fixesApplied m' = 7
      /\ issuesFound m' = issuesFound m + 5
      /\ 20 <= modernizationProgress m' <= 47)
  /\ (exists implementation,
        phase w' "Implementation" = Some implementation
        /\ p_status implementation = "in-progress"
        /\ p_progress implementation = modernizationProgress m')
  /\ shows_priority w'.
Proof.
  intros Hrandom opened w w' m m'.
  assert (Hopen : opened.1 = true) by reflexivity.
  assert (Hw : w = run (sample_calls now random ++ dashboard_sample_calls now')
                     (constructor h start)).
  { subst w opened. unfold show, Extension.activate. cbn [snd].
    rewrite RecordingFacts.dashboard_loadSampleData_calls,
      RecordingFacts.loadSampleData_calls.
    unfold run. now rewrite fold_left_app. }
  assert (Hw' : w' = run (dashboard_sample_calls now'') w)
    by apply RecordingFacts.dashboard_loadSampleData_calls.
  clearbody w' w opened. unfold getMetrics in m, m'.
  assert (Hrec : Forall (fun c => is_recording c = true)
                   (sample_calls now random ++ dashboard_sample_calls now'))
    by (repeat constructor).
  pose proof (RecordingFacts.sample_issues_bounds random 0%nat Hrandom) as I0.
  pose proof (RecordingFacts.sample_issues_bounds random 1%nat Hrandom) as I1.
  pose proof (RecordingFacts.sample_issues_bounds random 2%nat Hrandom) as I2.
  pose proof (RecordingFacts.sample_issues_bounds random 3%nat Hrandom) as I3.
  pose proof (RecordingFacts.sample_issues_bounds random 4%nat Hrandom) as I4.
  destruct (RecordingFacts.run_counters _ (constructor h start) Hrec) as (Ef & Ei & Ex).
  rewrite <- Hw in Ef, Ei, Ex. fold m in Ef, Ei, Ex.
  cbn [sample_calls dashboard_sample_calls analysis_entries fix_entries flat_map app length
       sum_issues foldr a_issuesCount analysis_entry] in Ef, Ei, Ex.
  change (filesAnalyzed (metrics (constructor h start))) with 0 in Ef.
  change (issuesFound (metrics (constructor h start))) with 0 in Ei.
  change (fixesApplied (metrics (constructor h start))) with 0 in Ex.
  destruct (RecordingFacts.run_counters _ w (SampleFacts.dashboard_calls_recording now''))
    as (Ef' & Ei' & Ex').
  rewrite <- Hw' in Ef', Ei', Ex'. fold m m' in Ef', Ei', Ex'.
  cbn [dashboard_sample_calls analysis_entries fix_entries flat_map app length
       sum_issues foldr a_issuesCount analysis_entry] in Ef', Ei', Ex'.
  assert (Hup : up_to_date w).
  { rewrite Hw. apply RecordingFacts.run_up_to_date.
    apply SessionFacts.fresh_metrics_up_to_date. }
  assert (Hup' : up_to_date w').
  { rewrite Hw'. now apply RecordingFacts.run_up_to_date. }
  unfold up_to_date in Hup, Hup'. rewrite CallFacts.recomputed_unfold in Hup, Hup'.
  fold m in Hup. fold m' in Hup'.
  assert (Hfiles : filesAnalyzed m = 7) by lia.
  assert (Hfixes : fixesApplied m = 5) by lia.
  assert (Hissues : 10 <= issuesFound m <= 30) by lia.
  assert (Hfiles' : filesAnalyzed m' = 9) by lia.
  assert (Hfixes' : fixesApplied m' = 7) by lia.
  assert (Hissues' : issuesFound m' = issuesFound m + 5) by lia.
  clear Ef Ei Ex Ef' Ei' Ex' I0 I1 I2 I3 I4.
  replace (issuesFound m =? 0) with false in Hup by (symmetry; apply Z.eqb_neq; lia).
  replace (issuesFound m' =? 0) with false in Hup' by (symmetry; apply Z.eqb_neq; lia).
  pose proof (RoundFacts.percent_mono_issues 5 10 (issuesFound m)) as Hhi.
  pose proof (RoundFacts.percent_mono_issues 5 (issuesFound m) 30) as Hlo.
  pose proof (RoundFacts.percent_mono_issues 7 15 (issuesFound m')) as Hhi'.
  pose proof (RoundFacts.percent_mono_issues 7 (issuesFound m') 35) as Hlo'.
  assert (E10 : percent 5 10 = 50) by (vm_compute; reflexivity).
  assert (E30 : percent 5 30 = 17) by (vm_compute; reflexivity).
  assert (E15 : percent 7 15 = 47) by (vm_compute; reflexivity).
  assert (E35 : percent 7 35 = 20) by (vm_compute; reflexivity).
  rewrite E10 in Hhi. rewrite E30 in Hlo. rewrite E15 in Hhi'. rewrite E35 in Hlo'.
  assert (Hrate : 17 <= percent (fixesApplied m) (issuesFound m) <= 50)
    by (rewrite Hfixes; lia).
  assert (Hrate' : 20 <= percent (fixesApplied m') (issuesFound m') <= 47)
    by (rewrite Hfixes'; lia).
  pose proof (TimelineFacts.implementation_in_progress w') as Himpl.
  pose proof (TimelineFacts.shows_priority_rate w') as Hprio.
  cbv zeta in Himpl, Hprio. unfold getMetrics in Himpl, Hprio. fold m' in Himpl, Hprio.
  clearbody m m'.
  split; [exact Hopen|]. split; [repeat split; lia|]. split; [repeat split; lia|]. split.
  - destruct Himpl as (p & Ep & Sp & Pp); [lia | lia |].
    exists p. split; [exact Ep|]. split; [exact Sp|]. rewrite Pp. lia.
  - apply Hprio. split; lia.
Qed.

(** Every [Math.random()] returning one half: 20 issues and a progress of
    25 after [show], 25 issues and a progress of 28 after the message. *)
Lemma first_dashboard_after_activation_witness :
  let random := fun _ : nat => (1 # 2)%Q in
  let now := fun _ : nat => 0 in
  let w := (show now false (Extension.activate [] 0 now random)).2 in
  let w' := BaselineWebviewProvider.loadSampleData now w in
  unit_interval random
  /\ issuesFound (getMetrics w) = 20
  /\ modernizationProgress (getMetrics w) = 25
  /\ modernizationProgress (getMetrics w') = 28
  /\ shows_priority w'.
Proof.
  intros random now w w'.
  assert (Hr : unit_interval random) by (intros k; split; [discriminate | reflexivity]).
  split; [exact Hr|]. split; [vm_compute; reflexivity|]. split; [vm_compute; reflexivity|].
  split; [vm_compute; reflexivity|].
  exact (proj2 (proj2 (proj2 (proj2
           (first_dashboard_after_activation [] 0 now now now random Hr))))).
Defined.

(** ** The catalog of the service *)

Module CatalogFacts.
Import BaselineService Spec.

(** [toLowerCase]. *)
Lemma lower_idemp (c : ascii) : JS.lower (JS.lower c) = JS.lower c.
Proof. destruct c as [[] [] [] [] [] [] [] []]; reflexivity. Qed.

Lemma toLowerCase_idemp (s : string) :
  JS.toLowerCase (JS.toLowerCase s) = JS.toLowerCase s.
Proof. induction s as [|c s IH]; simpl; [reflexivity|]. now rewrite lower_idemp, IH. Qed.

Lemma toLowerCase_app (s t : string) :
  JS.toLowerCase (s +:+ t) = JS.toLowerCase s +:+ JS.toLowerCase t.
Proof.
  induction s as [|c s IH]; [reflexivity|].
  rewrite StringFacts.app_cons. cbn [JS.toLowerCase].
  now rewrite StringFacts.app_cons, IH.
Qed.

(** Substrings. *)
Lemma occurs_in_refl (s : string) : occurs_in s s.
Proof.
  exists EmptyString, EmptyString. rewrite StringFacts.app_nil_l.
  induction s as [|c s IH]; [reflexivity|]. rewrite StringFacts.app_cons. congruence.
Qed.

Lemma occurs_in_empty (s : string) : occurs_in EmptyString s.
Proof. exists EmptyString, s. reflexivity. Qed.

Lemma occurs_in_trans (a b c : string) : occurs_in a b -> occurs_in b c -> occurs_in a c.
Proof.
  intros (p & q & ->) (p' & q' & ->).
  exists (p' +:+ p), (q +:+ q'). now rewrite !StringFacts.app_assoc.
Qed.

Lemma occurs_in_toLowerCase (a b : string) :
  occurs_in a b -> occurs_in (JS.toLowerCase a) (JS.toLowerCase b).
Proof.
  intros (p & q & ->). exists (JS.toLowerCase p), (JS.toLowerCase q).
  now rewrite !toLowerCase_app.
Qed.

(** [find] on lists. *)
Lemma find_snoc {A} (f : A -> bool) (l : list A) (x : A) :
  List.find f (l ++ [x])
  = match List.find f l with
    | Some y => Some y
    | None => if f x then Some x else None
    end.
Proof.
  induction l as [|y l IH]; simpl; [reflexivity|]. now destruct (f y).
Qed.

(** The map that the constructor fills: the last feature with an identifier
    is the one that is kept. *)
Lemma Map_get_populate (featuresMap : Map BaselineFeatureInfo)
    (features : list BaselineFeatureInfo) (k : string) :
  Map_get (populate featuresMap features) k
  = match List.find (fun f => String.eqb (fi_id f) k) (rev features) with
    | Some f => Some f
    | None => Map_get featuresMap k
    end.
Proof.
  revert featuresMap. induction features as [|f features IH]; intros featuresMap.
  - reflexivity.
  - cbn [populate fold_left rev]. fold (populate (Map_set featuresMap (fi_id f) f) features).
    rewrite IH, find_snoc.
    destruct (List.find _ (rev features)); [reflexivity|].
    unfold Map_get, Map_set. rewrite JSFacts.get_set.
    now destruct (String.eqb (fi_id f) k).
Qed.

Lemma find_rev_NoDup (features : list BaselineFeatureInfo) (f : BaselineFeatureInfo) :
  NoDup (map fi_id features) -> In f features ->
  List.find (fun g => String.eqb (fi_id g) (fi_id f)) (rev features) = Some f.
Proof.
  induction features as [|g features IH]; intros Hnd Hin; [destruct Hin|].
  cbn [map] in Hnd. apply NoDup_cons in Hnd as [Hg Hnd].
  cbn [rev]. rewrite find_snoc. destruct Hin as [->|Hin].
  - destruct (List.find _ (rev features)) as [g'|] eqn:E.
    + exfalso. apply find_some in E as [Hin' Heq]. apply String.eqb_eq in Heq.
      apply Hg. rewrite <- Heq. apply list_elem_of_In, in_map. now apply in_rev.
    + now rewrite String.eqb_refl.
  - now rewrite (IH Hnd Hin).
Qed.

(** The test of [searchFeatures]. *)
Lemma search_test_matches (query : string) (f : BaselineFeatureInfo) :
  JS.includes (JS.toLowerCase (fi_name f)) (JS.toLowerCase query)
  || JS.includes (JS.toLowerCase (fi_description f)) (JS.toLowerCase query)
  || JS.includes (JS.toLowerCase (fi_id f)) (JS.toLowerCase query)
  || JS.includes (JS.toLowerCase (fi_category f)) (JS.toLowerCase query) = true
  <-> matches query f.
Proof.
  unfold matches. rewrite !orb_true_iff, !StringFacts.includes_occurs. tauto.
Qed.

Lemma matches_narrow (query query' : string) (f : BaselineFeatureInfo) :
  occurs_in query query' -> matches query' f -> matches query f.
Proof.
  intros Hq. apply occurs_in_toLowerCase in Hq. unfold matches.
  intros [H|[H|[H|H]]]; [left|right; left|right; right; left|right; right; right];
    exact (occurs_in_trans _ _ _ Hq H).
Qed.

(** Filtering with a weaker test gives a longer list. *)
Lemma filter_sublist_weaker {A} (p q : A -> bool) (l : list A) :
  (forall x, p x = true -> q x = true) ->
  sublist (List.filter p l) (List.filter q l).
Proof.
  intros Hpq. induction l as [|x l IH]; simpl; [constructor|].
  destruct (p x) eqn:Ep.
  - rewrite (Hpq x Ep). now constructor.
  - destruct (q x); [now constructor | exact IH].
Qed.

Lemma filter_sublist_self {A} (p : A -> bool) (l : list A) : sublist (List.filter p l) l.
Proof.
  induction l as [|x l IH]; simpl; [constructor|].
  destruct (p x); now constructor.
Qed.

Lemma filter_all {A} (p : A -> bool) (l : list A) :
  (forall x, p x = true) -> List.filter p l = l.
Proof.
  intros Hp. induction l as [|x l IH]; simpl; [reflexivity|]. now rewrite Hp, IH.
Qed.

(** The features by status. *)
Lemma status_lengths (features : list BaselineFeatureInfo) :
  (length (getBaselineFeatures features high)
   + length (getBaselineFeatures features low)
   + length (getBaselineFeatures features unavailable)
   + length (without_status features) = length features)%nat.
Proof.
  unfold getBaselineFeatures, without_status, has_status.
  induction features as [|f features IH]; simpl; [reflexivity|].
  destruct (st_baseline (fi_status f)) as [[]|]; simpl; lia.
Qed.

Lemma status_partition (features : list BaselineFeatureInfo) :
  Permutation
    (getBaselineFeatures features high ++ getBaselineFeatures features low
     ++ getBaselineFeatures features unavailable ++ without_status features)
    features.
Proof.
  unfold getBaselineFeatures, without_status, has_status.
  induction features as [|f features IH]; simpl; [constructor|].
  destruct (st_baseline (fi_status f)) as [[]|]; simpl.
  - now constructor.
  - rewrite <- Permutation_middle. now constructor.
  - rewrite (List.app_assoc (List.filter _ features) (List.filter _ features)).
    rewrite <- Permutation_middle, <- List.app_assoc. now constructor.
  - rewrite (List.app_assoc (List.filter _ features) (List.filter _ features)).
    rewrite (List.app_assoc (List.filter _ features ++ List.filter _ features)).
    rewrite <- Permutation_middle, <- !List.app_assoc. now constructor.
Qed.

(** The sum computed by [reduce]. *)
Lemma fold_left_sum (patterns : list PatternCount) (acc : Z) :
  fold_left (fun sum pattern => sum + pc_count pattern) patterns acc
  = acc + foldr (fun pattern sum => pc_count pattern + sum) 0 patterns.
Proof.
  revert acc. induction patterns as [|p patterns IH]; intros acc; simpl; [lia|].
  rewrite IH. lia.
Qed.

End CatalogFacts.

(** X16: [getFeatureInfo] on the catalog that the constructor builds from
    any list of features.  A feature that is found belongs to the catalog,
    and either its identifier is the query or its name contains the query,
    letter case apart.  An identifier match has priority.  Without an
    identifier match the result is the first feature of the catalog whose
    name matches, so that an empty query returns the first feature.
    Nothing is found exactly when no identifier and no name matches. *)
Theorem feature_lookup (features : list BaselineFeatureInfo) (featureId : string) :
  let found := getFeatureInfo (populate [] features) features featureId in
  (forall f, found = Some f ->
     In f features /\ (fi_id f = featureId \/ name_matches featureId f))
  /\ (has_id features featureId ->
      exists f, found = Some f /\ fi_id f = featureId)
  /\ (no_id features featureId ->
      forall f, found = Some f ->
        exists before_f after_f,
          features = before_f ++ f :: after_f
          /\ name_matches featureId f
          /\ Forall (fun g => ~ name_matches featureId g) before_f)
  /\ (no_id features "" -> featureId = "" -> found = head features)
  /\ (found = None <->
      forall f, In f features -> fi_id f <> featureId /\ ~ name_matches featureId f).
Proof.
  intros found. subst found. unfold getFeatureInfo.
  rewrite CatalogFacts.Map_get_populate. cbn [Map_get JS.get].
  set (by_id := List.find (fun f => String.eqb (fi_id f) featureId) (rev features)).
  set (test := fun f => JS.includes (JS.toLowerCase (fi_name f)) (JS.toLowerCase featureId)).
  assert (Htest : forall f, test f = true <-> name_matches featureId f).
  { intros f. unfold test, name_matches. apply StringFacts.includes_occurs. }
  assert (Hid : forall f, by_id = Some f -> In f features /\ fi_id f = featureId).
  { intros f E. apply find_some in E as [Hin Heq].
    apply String.eqb_eq in Heq. split; [now apply in_rev | exact Heq]. }
  assert (Hnone : by_id = None -> forall f, In f features -> fi_id f <> featureId).
  { intros E f Hin Heq. apply in_rev in Hin.
    pose proof (find_none _ _ E f Hin) as Hf. cbv beta in Hf.
    rewrite Heq, String.eqb_refl in Hf. discriminate. }
  assert (Hfirst : forall f, JS.find test features = Some f ->
            exists before_f after_f,
              features = before_f ++ f :: after_f
              /\ name_matches featureId f
              /\ Forall (fun g => ~ name_matches featureId g) before_f).
  { unfold JS.find. clear. intros f. subst test. cbv beta.
    induction features as [|g features IH]; cbn [List.find]; [discriminate|].
    destruct (JS.includes (JS.toLowerCase (fi_name g)) (JS.toLowerCase featureId)) eqn:Eg.
    - intros [= ->]. exists [], features. split; [reflexivity|]. split; [|constructor].
      now apply StringFacts.includes_occurs.
    - intros E. destruct (IH E) as (l1 & l2 & -> & Hm & Hl1).
      exists (g :: l1), l2. split; [reflexivity|]. split; [exact Hm|].
      constructor; [|exact Hl1]. unfold name_matches.
      rewrite <- StringFacts.includes_occurs, Eg. discriminate. }
  split; [|split; [|split; [|split]]].
  - intros f. destruct by_id as [g|] eqn:E.
    + intros [= <-]. destruct (Hid g eq_refl) as [Hin Heq]. split; [exact Hin | now left].
    + intros Hf. destruct (Hfirst f Hf) as (l1 & l2 & -> & Hm & _).
      split; [apply in_elt | now right].
  - intros (f & Hin & Heq). destruct by_id as [g|] eqn:E.
    + exists g. split; [reflexivity|]. now apply Hid.
    + now destruct (Hnone eq_refl f Hin).
  - intros Hno f. destruct by_id as [g|] eqn:E.
    + destruct (Hid g eq_refl) as [Hin Heq]. now destruct (Hno g Hin).
    + apply Hfirst.
  - intros Hno ->. destruct by_id as [g|] eqn:E.
    + destruct (Hid g eq_refl) as [Hin Heq]. now destruct (Hno g Hin).
    + destruct features as [|f features]; [reflexivity|].
      unfold JS.find. cbn [List.find head].
      replace (test f) with true; [reflexivity|].
      symmetry. apply Htest. apply CatalogFacts.occurs_in_empty.
  - destruct by_id as [g|] eqn:E.
    + split; [discriminate|]. intros H. destruct (Hid g eq_refl) as [Hin Heq].
      now destruct (H g Hin).
    + unfold JS.find. split.
      * intros Hf f Hin. split; [now apply (Hnone eq_refl)|].
        rewrite <- Htest. rewrite (find_none _ _ Hf f Hin). discriminate.
      * intros H. destruct (List.find test features) as [f|] eqn:Ef; [|reflexivity].
        apply find_some in Ef as [Hin Ht]. apply Htest in Ht. now destruct (H f Hin).
Qed.

(** The catalog of the service has no feature with an empty identifier: the
    empty query returns its first feature, the flexbox. *)
Lemma feature_lookup_witness :
  no_id BaselineService.sampleFeatures ""
  /\ fi_id <$> getFeatureInfo featuresMap BaselineService.sampleFeatures "" = Some "flexbox"
  /\ getFeatureInfo (populate [] BaselineService.sampleFeatures)
       BaselineService.sampleFeatures ""
     = head BaselineService.sampleFeatures.
Proof.
  assert (Hno : no_id BaselineService.sampleFeatures "").
  { intros f Hin. unfold BaselineService.sampleFeatures in Hin. cbn [In] in Hin.
    repeat (destruct Hin as [<-|Hin]; [discriminate|]). destruct Hin. }
  split; [exact Hno|]. split; [vm_compute; reflexivity|].
  exact (proj1 (proj2 (proj2 (proj2 (feature_lookup BaselineService.sampleFeatures ""))))
           Hno eq_refl).
Defined.

(** X17: in a catalog whose identifiers are distinct, every feature is found
    by its identifier: [getFeatureInfo] returns the feature itself,
    [getBrowserSupport] its support table, and the message of
    [sendFeatureDetails] to an existing panel carries that feature, its
    support table and the alternatives of the identifier. *)
Theorem feature_lookup_by_id (features : list BaselineFeatureInfo) :
  NoDup (map fi_id features) ->
  Forall
    (fun f =>
       getFeatureInfo (populate [] features) features (fi_id f) = Some f
       /\ getBrowserSupport (populate [] features) features (fi_id f)
          = st_support (fi_status f)
       /\ forall alternatives,
            Dashboard.sendFeatureDetails true (populate [] features) features
              alternatives (fi_id f)
            = Some {| Dashboard.fd_feature := f;
                      Dashboard.fd_browserSupport := st_support (fi_status f);
                      Dashboard.fd_alternatives :=
                        getModernAlternatives alternatives (fi_id f) |})
    features.
Proof.
  intros Hnd. apply List.Forall_forall. intros f Hin.
  assert (Hf : getFeatureInfo (populate [] features) features (fi_id f) = Some f).
  { unfold getFeatureInfo.
    now rewrite CatalogFacts.Map_get_populate, (CatalogFacts.find_rev_NoDup _ _ Hnd Hin). }
  split; [exact Hf|]. split.
  - unfold getBrowserSupport. now rewrite Hf.
  - intros alternatives. unfold Dashboard.sendFeatureDetails, getBrowserSupport.
    cbn [negb]. now rewrite Hf.
Qed.

(** The catalog of the service: its ten identifiers are distinct. *)
Lemma feature_lookup_by_id_witness :
  NoDup (map fi_id BaselineService.sampleFeatures)
  /\ Forall (fun f => getFeatureInfo featuresMap BaselineService.sampleFeatures (fi_id f) = Some f)
       BaselineService.sampleFeatures.
Proof.
  assert (Hnd : NoDup (map fi_id BaselineService.sampleFeatures))
    by (apply (bool_decide_unpack _); vm_compute; reflexivity).
  split; [exact Hnd|].
  apply (List.Forall_impl _ (P := fun f =>
           getFeatureInfo (populate [] BaselineService.sampleFeatures) BaselineService.sampleFeatures (fi_id f) = Some f
           /\ getBrowserSupport (populate [] BaselineService.sampleFeatures) BaselineService.sampleFeatures (fi_id f)
              = st_support (fi_status f)
           /\ forall alternatives,
                Dashboard.sendFeatureDetails true (populate [] BaselineService.sampleFeatures)
                  BaselineService.sampleFeatures alternatives (fi_id f)
                = Some {| Dashboard.fd_feature := f;
                          Dashboard.fd_browserSupport := st_support (fi_status f);
                          Dashboard.fd_alternatives :=
                            getModernAlternatives alternatives (fi_id f) |}));
    [intros f H; exact (proj1 H) | exact (feature_lookup_by_id BaselineService.sampleFeatures Hnd)].
Defined.

(** X18: [searchFeatures] returns, in catalog order, exactly the features
    whose name, description, identifier or category contains the query,
    letter case apart.  The empty query returns the whole catalog, and the
    letter case of the query does not matter. *)
Theorem search_features_matches (features : list BaselineFeatureInfo) (query : string) :
  (forall f, In f (searchFeatures features query) <-> In f features /\ matches query f)
  /\ sublist (searchFeatures features query) features
  /\ searchFeatures features "" = features
  /\ searchFeatures features (JS.toLowerCase query) = searchFeatures features query.
Proof.
  split; [|split; [|split]].
  - intros f. unfold searchFeatures. rewrite filter_In.
    now rewrite CatalogFacts.search_test_matches.
  - apply CatalogFacts.filter_sublist_self.
  - unfold searchFeatures. apply CatalogFacts.filter_all. intros f.
    apply CatalogFacts.search_test_matches. left. apply CatalogFacts.occurs_in_empty.
  - unfold searchFeatures. now rewrite CatalogFacts.toLowerCase_idemp.
Qed.

(** X19: a longer query never finds more.  When a query occurs in another
    one, the results of the longer query are among the results of the
    shorter one, in the same order. *)
Theorem search_narrows (features : list BaselineFeatureInfo) (query query' : string) :
  occurs_in query query' ->
  sublist (searchFeatures features query') (searchFeatures features query).
Proof.
  intros Hq. unfold searchFeatures. apply CatalogFacts.filter_sublist_weaker.
  intros f Hf. apply CatalogFacts.search_test_matches.
  apply (CatalogFacts.matches_narrow query query' f Hq).
  now apply CatalogFacts.search_test_matches.
Qed.

(** In the catalog of the service, ["Layout"] finds the flexbox and the
    grid layout, and ["Grid Layout"] the grid layout only. *)
Lemma search_narrows_witness :
  occurs_in "Layout" "Grid Layout"
  /\ map fi_id (searchFeatures BaselineService.sampleFeatures "Layout")
     = ["flexbox"; "grid"]
  /\ map fi_id (searchFeatures BaselineService.sampleFeatures "Grid Layout") = ["grid"]
  /\ sublist (searchFeatures BaselineService.sampleFeatures "Grid Layout")
       (searchFeatures BaselineService.sampleFeatures "Layout").
Proof.
  assert (Hq : occurs_in "Layout" "Grid Layout") by (now exists "Grid ", "").
  split; [exact Hq|]. split; [vm_compute; reflexivity|]. split; [vm_compute; reflexivity|].
  exact (search_narrows BaselineService.sampleFeatures "Layout" "Grid Layout" Hq).
Defined.

(** X20: [getBaselineFeatures] returns, in catalog order, exactly the
    features with the given status.  The lists for ['high'], ['low'] and
    [false] and the features whose status is undefined divide the catalog,
    which [getAllFeatures] returns: together they hold every feature once. *)
Theorem baseline_features_by_status (features : list BaselineFeatureInfo) :
  (forall status f,
     In f (getBaselineFeatures features status)
     <-> In f features /\ st_baseline (fi_status f) = Some status)
  /\ (forall status, sublist (getBaselineFeatures features status) features)
  /\ Permutation
       (getBaselineFeatures features high ++ getBaselineFeatures features low
        ++ getBaselineFeatures features unavailable ++ without_status features)
       (getAllFeatures features).
Proof.
  split; [|split].
  - intros status f. unfold getBaselineFeatures, has_status. rewrite filter_In.
    destruct (st_baseline (fi_status f)) as [b|].
    + destruct b, status; cbn [BaselineStatus_eqb]; split; intros [H1 H2];
        (split; [exact H1|]); congruence.
    + split; intros [H1 H2]; discriminate.
  - intros status. apply CatalogFacts.filter_sublist_self.
  - apply CatalogFacts.status_partition.
Qed.

(** X21: the statistics of the dashboard are floors.  Each count is the
    larger of the count of the catalog and a constant, so that for a catalog
    of at most 100 features, as the one of the service, the dashboard shows
    1200 features, 850 widely available, 250 newly available and 100 of
    limited availability whatever the catalog contains; the adoption
    percentage is always 71. *)
Theorem feature_stats_floors (features : list BaselineFeatureInfo) :
  (length features <= 100)%nat ->
  Dashboard.getBaselineFeatureStats features
  = {| Dashboard.total := 1200;
       Dashboard.widely_available := 850;
       Dashboard.newly_available := 250;
       Dashboard.limited_availability := 100;
       Dashboard.adoption_percentage := 71 |}.
Proof.
  intros Hlen. pose proof (CatalogFacts.status_lengths features) as Hsum.
  unfold Dashboard.getBaselineFeatureStats, getAllFeatures, JS.Math_max.
  f_equal; lia.
Qed.

(** The catalog of the service has ten features, eight of them widely
    available and two newly available. *)
Lemma feature_stats_floors_witness :
  (length BaselineService.sampleFeatures <= 100)%nat
  /\ length (getBaselineFeatures BaselineService.sampleFeatures high) = 8%nat
  /\ length (getBaselineFeatures BaselineService.sampleFeatures low) = 2%nat
  /\ Dashboard.widely_available
       (Dashboard.getBaselineFeatureStats BaselineService.sampleFeatures) = 850.
Proof.
  assert (Hlen : (length BaselineService.sampleFeatures <= 100)%nat)
    by (vm_compute; lia).
  split; [exact Hlen|]. split; [vm_compute; reflexivity|]. split; [vm_compute; reflexivity|].
  exact (f_equal Dashboard.widely_available
           (feature_stats_floors BaselineService.sampleFeatures Hlen)).
Defined.

(** X22: [calculateBaselineScore].  Without pattern occurrences the score is
    100.  Otherwise it is 100 minus 10 for each occurrence beyond the number
    of widely available recommendations, and at least 0.  It is never
    negative, but it exceeds 100 exactly when there are more widely
    available recommendations than pattern occurrences. *)
Theorem baseline_score (analysisResult : AnalysisResult) :
  let score := calculateBaselineScore analysisResult in
  let totalPatterns := total_patterns analysisResult in
  let modernCount := modern_count analysisResult in
  (totalPatterns = 0 -> score = 100)
  /\ (totalPatterns <> 0 ->
      score = Z.max 0 (100 - (totalPatterns - modernCount) * 10))
  /\ 0 <= score
  /\ (100 < score <-> totalPatterns <> 0 /\ totalPatterns < modernCount)
  /\ (score = 0 <-> 10 <= totalPatterns - modernCount).
Proof.
  intros score totalPatterns modernCount.
  assert (Hscore : score = if totalPatterns =? 0 then 100
                           else Z.max 0 (100 - (totalPatterns - modernCount) * 10)).
  { subst score totalPatterns modernCount.
    unfold calculateBaselineScore, total_patterns, modern_count, JS.Math_max.
    rewrite CatalogFacts.fold_left_sum, Z.add_0_l.
    destruct (_ =? 0); [reflexivity|]. apply RoundFacts.Math_round_Z. }
  assert (Hmodern : 0 <= modernCount) by (subst modernCount; unfold modern_count; lia).
  clearbody score totalPatterns modernCount.
  destruct (Z.eqb_spec totalPatterns 0) as [E|E]; subst score; repeat split; lia.
Qed.

(** Three occurrences of one pattern and no recommendation: a score of
    70. *)
Lemma baseline_score_witness :
  let analysisResult :=
    {| ar_fileName := "app.js";
       ar_language := "javascript";
       ar_issuesFound := 3;
       ar_patterns := [ {| pc_pattern := "var"; pc_count := 3; pc_locations := [] |} ];
       ar_recommendations := [];
       ar_baselineScore := 0 |} in
  total_patterns analysisResult <> 0
  /\ calculateBaselineScore analysisResult = 70
  /\ calculateBaselineScore analysisResult
     = Z.max 0 (100 - (total_patterns analysisResult - modern_count analysisResult) * 10).
Proof.
  intros analysisResult.
  assert (Hne : total_patterns analysisResult <> 0) by discriminate.
  split; [exact Hne|]. split; [vm_compute; reflexivity|].
  exact (proj1 (proj2 (baseline_score analysisResult)) Hne).
Defined.

(** ** The commands of the extension *)

Module CommandFacts.
Import MetricsTracker Spec TrackerFacts CallFacts.

Lemma analyzeProjectFile_calls now random file w :
  Extension.analyzeProjectFile now random file w
  = run (project_file_calls now random file) w.
Proof.
  unfold Extension.analyzeProjectFile, project_file_calls, sample_issues.
  cbn [length seq combine fold_left].
  destruct (JS.gt (random 1%nat) (1 # 2)), (JS.gt (random 2%nat) (1 # 2)),
    (JS.gt (random 3%nat) (1 # 2)), (JS.gt (random 4%nat) (1 # 2)),
    (JS.gt (random 5%nat) (1 # 2)), (JS.gt (random 6%nat) (1 # 2));
    cbn [usage_if app run fold_left call]; reflexivity.
Qed.

Lemma project_file_calls_recording now random file :
  Forall (fun c => is_recording c = true) (project_file_calls now random file).
Proof.
  unfold project_file_calls, usage_if.
  destruct (JS.gt (random 1%nat) (1 # 2)), (JS.gt (random 2%nat) (1 # 2)),
    (JS.gt (random 3%nat) (1 # 2)), (JS.gt (random 4%nat) (1 # 2)),
    (JS.gt (random 5%nat) (1 # 2)), (JS.gt (random 6%nat) (1 # 2));
    repeat constructor.
Qed.

Lemma entries_usage_if b feature cs :
  analysis_entries (usage_if b feature ++ cs) = analysis_entries cs
  /\ fix_entries (usage_if b feature ++ cs) = fix_entries cs.
Proof. destruct b; now split. Qed.

Lemma project_file_entries now random file :
  analysis_entries (project_file_calls now random file)
  = [analysis_entry now file (sample_issues random 0) (Some (sample_language file))]
  /\ fix_entries (project_file_calls now random file) = [].
Proof.
  unfold project_file_calls.
  change (analysis_entries (?c :: ?cs)) with (analysis_entries [c] ++ analysis_entries cs).
  change (fix_entries (?c :: ?cs)) with (fix_entries [c] ++ fix_entries cs).
  repeat (rewrite (proj1 (entries_usage_if _ _ _)), (proj2 (entries_usage_if _ _ _))).
  unfold usage_if. destruct (JS.gt (random 6%nat) (1 # 2)); now split.
Qed.

Lemma note_count_usage_if featureId b feature cs total :
  fold_left (note_count featureId) (usage_if b feature ++ cs) total
  = fold_left (note_count featureId) cs
      (total + if b && String.eqb feature featureId then 1 else 0).
Proof.
  destruct b; cbn [usage_if app fold_left note_count andb default from_option id].
  - now destruct (String.eqb feature featureId); rewrite ?Z.add_0_r.
  - now rewrite Z.add_0_r.
Qed.

(** One turn of the loop. *)
Lemma project_file_step now random file w :
  well_formed w -> unit_interval random ->
  let w' := Extension.analyzeProjectFile now random file w in
  well_formed w'
  /\ (up_to_date w -> up_to_date w')
  /\ getAnalysisHistory w'
     = analysis_entry now file (sample_issues random 0) (Some (sample_language file))
       :: getAnalysisHistory w
  /\ getFixHistory w' = getFixHistory w
  /\ filesAnalyzed (metrics w') = filesAnalyzed (metrics w) + 1
  /\ issuesFound (metrics w) + 1 <= issuesFound (metrics w') <= issuesFound (metrics w) + 5
  /\ fixesApplied (metrics w') = fixesApplied (metrics w)
  /\ (forall featureId,
        usage_count w featureId <= usage_count w' featureId <= usage_count w featureId + 1)
  /\ (forall featureId,
        ~ In featureId project_features -> usage_count w' featureId = usage_count w featureId).
Proof.
  intros Hwf Hrandom w'. subst w'. rewrite analyzeProjectFile_calls.
  pose proof (project_file_calls_recording now random file) as Hrec.
  destruct (project_file_entries now random file) as [Ea Ex].
  destruct (RecordingFacts.run_counters _ w Hrec) as (Cf & Ci & Cx).
  rewrite Ea in Cf, Ci. rewrite Ex in Cx.
  cbn [length sum_issues foldr a_issuesCount analysis_entry] in Cf, Ci, Cx.
  pose proof (RecordingFacts.sample_issues_bounds random 0%nat Hrandom) as Hi.
  assert (Hcount : forall featureId,
            usage_count (run (project_file_calls now random file) w) featureId
            = usage_count w featureId
              + (if JS.gt (random 1%nat) (1 # 2) && String.eqb "var" featureId
                 then 1 else 0)
              + (if JS.gt (random 2%nat) (1 # 2) && String.eqb "XMLHttpRequest" featureId
                 then 1 else 0)
              + (if JS.gt (random 3%nat) (1 # 2) && String.eqb "float" featureId
                 then 1 else 0)
              + (if JS.gt (random 4%nat) (1 # 2) && String.eqb "function" featureId
                 then 1 else 0)
              + (if JS.gt (random 5%nat) (1 # 2) && String.eqb "<div>" featureId
                 then 1 else 0)
              + (if JS.gt (random 6%nat) (1 # 2) && String.eqb "<b><i><u>" featureId
                 then 1 else 0)).
  { intros featureId. rewrite (SessionStepFacts.run_usage_count _ _ featureId Hwf).
    unfold project_file_calls. cbn [fold_left note_count].
    rewrite !note_count_usage_if.
    rewrite <- (app_nil_r (usage_if (JS.gt (random 6%nat) (1 # 2)) "<b><i><u>")).
    rewrite note_count_usage_if. reflexivity. }
  split; [now apply run_well_formed|].
  split; [now apply RecordingFacts.run_up_to_date|].
  split; [now rewrite (RecordingFacts.getAnalysisHistory_run _ _ Hwf Hrec), Ea|].
  split; [now rewrite (SampleFacts.getFixHistory_run _ _ Hwf Hrec), Ex|].
  split; [lia|]. split; [lia|]. split; [lia|]. split.
  - intros featureId. rewrite Hcount.
    destruct (String.eqb "var" featureId) eqn:E1;
      [apply String.eqb_eq in E1; subst featureId; lazy [String.eqb Ascii.eqb Bool.eqb];
       rewrite ?andb_false_r, ?andb_true_r; cbv iota;
       try (match goal with |- context [if ?b then _ else _] => destruct b end); lia|].
    destruct (String.eqb "XMLHttpRequest" featureId) eqn:E2;
      [apply String.eqb_eq in E2; subst featureId; lazy [String.eqb Ascii.eqb Bool.eqb];
       rewrite ?andb_false_r, ?andb_true_r; cbv iota;
       try (match goal with |- context [if ?b then _ else _] => destruct b end); lia|].
    destruct (String.eqb "float" featureId) eqn:E3;
      [apply String.eqb_eq in E3; subst featureId; lazy [String.eqb Ascii.eqb Bool.eqb];
       rewrite ?andb_false_r, ?andb_true_r; cbv iota;
       try (match goal with |- context [if ?b then _ else _] => destruct b end); lia|].
    destruct (String.eqb "function" featureId) eqn:E4;
      [apply String.eqb_eq in E4; subst featureId; lazy [String.eqb Ascii.eqb Bool.eqb];
       rewrite ?andb_false_r, ?andb_true_r; cbv iota;
       try (match goal with |- context [if ?b then _ else _] => destruct b end); lia|].
    destruct (String.eqb "<div>" featureId) eqn:E5;
      [apply String.eqb_eq in E5; subst featureId; lazy [String.eqb Ascii.eqb Bool.eqb];
       rewrite ?andb_false_r, ?andb_true_r; cbv iota;
       try (match goal with |- context [if ?b then _ else _] => destruct b end); lia|].
    rewrite ?andb_false_r, ?andb_true_r.
    destruct (String.eqb "<b><i><u>" featureId);
      rewrite ?andb_false_r, ?andb_true_r; cbv iota; try (match goal with |- context [if ?b then _ else _] => destruct b end); lia.
  - intros featureId Hout. rewrite Hcount.
    cbn [project_features In] in Hout.
    repeat match goal with
           | |- context [String.eqb ?k featureId] =>
               let E := fresh "E" in
               destruct (String.eqb k featureId) eqn:E;
               [apply String.eqb_eq in E; tauto|]
           end.
    rewrite !andb_false_r. cbv iota. lia.
Qed.

(** The feature that [analyzeFile] draws. *)
Lemma analyzeFile_feature (random : nat -> Q) :
  unit_interval random ->
  exists feature,
    In feature file_features
    /\ JS.at_index ["var"; "XMLHttpRequest"; "float"; "function"]
         (JS.Math_floor (random 1%nat * inject_Z (Z.of_nat 4))%Q) = Some feature.
Proof.
  intros Hrandom. destruct (Hrandom 1%nat) as [H0 H1].
  pose proof (RecordingFacts.floor_random (random 1%nat) 4 H0 H1 eq_refl) as Hi.
  unfold JS.Math_floor in *. change (inject_Z (Z.of_nat 4)) with (inject_Z 4).
  set (i := Qfloor (random 1%nat * inject_Z 4)) in *. clearbody i.
  assert (Hcases : i = 0 \/ i = 1 \/ i = 2 \/ i = 3) by lia.
  unfold file_features.
  destruct Hcases as [-> | [-> | [-> | ->]]]; eexists; (split; [|reflexivity]); cbn; auto.
Qed.

Lemma analyzeFile_calls now random fileName languageId w :
  unit_interval random ->
  exists feature,
    In feature file_features
    /\ Extension.analyzeFile now random (Some (fileName, languageId)) w
       = run [RecordAnalysis now fileName (sample_count random 0) (Some languageId);
              RecordFeatureUsage feature None] w.
Proof.
  intros Hrandom. destruct (analyzeFile_feature random Hrandom) as (feature & Hin & E).
  exists feature. split; [exact Hin|].
  unfold Extension.analyzeFile. cbn [length]. rewrite E. reflexivity.
Qed.

End CommandFacts.

(** X23: the command [analyzeFile] on an open document, for any results of
    [Math.random()], in a state reached from construction: it records one
    analysis with between 1 and 8 issues, with the language of the document
    and under the part of the document's file name that follows its last
    [/]; it adds 1 to the count of exactly one of ["var"],
    ["XMLHttpRequest"], ["float"] and ["function"] and leaves the other
    counts, and it records no fix.  The recorded name is [name] for a file
    name [dir/name] whose [name] is not empty and has no [/].  A file name
    without [/] is recorded whole, so a Windows file name, which separates
    by backslashes, keeps its directories; a file name that ends in [/] is
    recorded whole as well.  Without an open document nothing is
    recorded. *)
Theorem analyze_file_command (h : Heap) (start : Date) (cs : list Call)
    (now : Date) (random : nat -> Q) (fileName languageId : string) :
  unit_interval random ->
  let w := run cs (constructor h start) in
  let w' := Extension.analyzeFile now random (Some (fileName, languageId)) w in
  filesAnalyzed (getMetrics w') = filesAnalyzed (getMetrics w) + 1
  /\ fixesApplied (getMetrics w') = fixesApplied (getMetrics w)
  /\ issuesFound (getMetrics w) + 1 <= issuesFound (getMetrics w')
     <= issuesFound (getMetrics w) + 8
  /\ getAnalysisHistory w'
     = {| a_timestamp := now;
          a_fileName := history_file_name fileName;
          a_issuesCount := issuesFound (getMetrics w') - issuesFound (getMetrics w);
          a_language := languageId |} :: getAnalysisHistory w
  /\ (forall dir name,
        fileName = dir +:+ "/" +:+ name -> no_slash name -> name <> EmptyString ->
        history_file_name fileName = name)
  /\ (no_slash fileName -> history_file_name fileName = fileName)
  /\ (forall dir, fileName = dir +:+ "/" -> history_file_name fileName = fileName)
  /\ getFixHistory w' = getFixHistory w
  /\ (exists feature,
        In feature file_features
        /\ forall featureId,
             usage_count w' featureId
             = usage_count w featureId + if String.eqb feature featureId then 1 else 0)
  /\ Extension.analyzeFile now random None w = w.
Proof.
  intros Hrandom w w'.
  pose proof (HistoryFacts.reachable_well_formed h start cs) as Hwf. fold w in Hwf.
  destruct (CommandFacts.analyzeFile_calls now random fileName languageId w Hrandom)
    as (feature & Hin & Hw').
  fold w' in Hw'.
  assert (Hnone : Extension.analyzeFile now random None w = w) by reflexivity.
  clearbody w' w. subst w'.
  set (calls := [RecordAnalysis now fileName (sample_count random 0) (Some languageId);
                 RecordFeatureUsage feature None]) in *.
  assert (Hrec : Forall (fun c => is_recording c = true) calls) by (repeat constructor).
  destruct (RecordingFacts.run_counters calls w Hrec) as (Ef & Ei & Ex).
  cbn [calls analysis_entries fix_entries flat_map app length sum_issues foldr
       a_issuesCount analysis_entry] in Ef, Ei, Ex.
  pose proof (RecordingFacts.sample_count_bounds random 0%nat Hrandom) as Hissues.
  unfold getMetrics.
  split; [lia|]. split; [lia|]. split; [lia|].
  split; [|split; [|split; [|split; [|split; [|split]]]]].
  - rewrite (RecordingFacts.getAnalysisHistory_run _ _ Hwf Hrec).
    cbn [calls analysis_entries flat_map app rev]. unfold analysis_entry.
    cbn [default from_option id]. repeat f_equal. lia.
  - intros dir name -> Hn Hne. now apply HistoryFacts.history_file_name_app.
  - apply HistoryFacts.history_file_name_plain.
  - intros dir ->. apply HistoryFacts.history_file_name_dir.
  - now rewrite (SampleFacts.getFixHistory_run _ _ Hwf Hrec).
  - exists feature. split; [exact Hin|]. intros featureId.
    rewrite (SessionStepFacts.run_usage_count _ _ featureId Hwf).
    cbn [calls fold_left note_count default from_option id].
    destruct (String.eqb feature featureId); lia.
  - exact Hnone.
Qed.

(** A document of a Windows workspace, every [Math.random()] returning one
    half: five issues, ["float"], and the analysis is recorded under the
    whole file name, which has no [/]. *)
Lemma analyze_file_command_witness :
  let random := fun _ : nat => (1 # 2)%Q in
  let w := run [] (constructor [] 0) in
  let w' := Extension.analyzeFile 1 random (Some ("c:\site\src\app.js", "javascript")) w in
  unit_interval random
  /\ no_slash "c:\site\src\app.js"
  /\ issuesFound (getMetrics w') = 5
  /\ usage_count w' "float" = 1
  /\ getAnalysisHistory w'
     = [ {| a_timestamp := 1;
            a_fileName := "c:\site\src\app.js";
            a_issuesCount := 5;
            a_language := "javascript" |} ].
Proof.
  intros random w w'.
  assert (Hr : unit_interval random) by (intros k; split; [discriminate | reflexivity]).
  assert (Hn : no_slash "c:\site\src\app.js").
  { intros H. apply StringFacts.includes_occurs in H. discriminate. }
  assert (Hi : issuesFound (getMetrics w') = 5) by (vm_compute; reflexivity).
  split; [exact Hr|]. split; [exact Hn|]. split; [exact Hi|].
  split; [vm_compute; reflexivity|].
  destruct (analyze_file_command [] 0 [] 1 random "c:\site\src\app.js" "javascript" Hr)
    as (_ & _ & _ & Hh & _ & Hname & _).
  fold w w' in Hh. rewrite Hh, (Hname Hn), Hi. reflexivity.
Defined.

(** X24: the command [analyzeProject] in an open workspace, run without
    another command in between, for any results of [Math.random()], in a
    state reached from construction: it records five analyses with between
    5 and 25 issues in all, under the file names without directory and with
    the languages javascript, css and html; it adds at most 5 to the count
    of each of its six features and leaves the other counts; it records no
    fix, so that in a session of valid calls in which issues were found it
    does not raise the progress.  Without a workspace nothing is
    recorded. *)
Theorem analyze_project_command (h : Heap) (start : Date) (cs : list Call)
    (now : nat -> Date) (random : nat -> nat -> Q) :
  unit_intervals random ->
  let w := run cs (constructor h start) in
  let w' := Extension.analyzeProject true now random w in
  filesAnalyzed (getMetrics w') = filesAnalyzed (getMetrics w) + 5
  /\ fixesApplied (getMetrics w') = fixesApplied (getMetrics w)
  /\ issuesFound (getMetrics w) + 5 <= issuesFound (getMetrics w')
     <= issuesFound (getMetrics w) + 25
  /\ (forall featureId,
        usage_count w featureId <= usage_count w' featureId
        <= usage_count w featureId + 5)
  /\ (forall featureId,
        ~ In featureId project_features ->
        usage_count w' featureId = usage_count w featureId)
  /\ map (fun e => (a_fileName e, a_language e)) (getAnalysisHistory w')
     = [ ("index.html", "html"); ("api.js", "javascript"); ("main.css", "css");
         ("Header.js", "javascript"); ("app.js", "javascript") ]
       ++ map (fun e => (a_fileName e, a_language e)) (getAnalysisHistory w)
  /\ getFixHistory w' = getFixHistory w
  /\ (Forall valid_call cs -> 0 < issuesFound (getMetrics w) ->
      modernizationProgress (getMetrics w') <= modernizationProgress (getMetrics w))
  /\ Extension.analyzeProject false now random w = w.
Proof.
  intros Hrandom w w'.
  pose proof (HistoryFacts.reachable_well_formed h start cs) as Hwf. fold w in Hwf.
  assert (Hvalid : Forall valid_call cs -> up_to_date w /\ counts w)
    by exact (SessionStepFacts.reachable_valid h start cs).
  assert (Hnone : Extension.analyzeProject false now random w = w) by reflexivity.
  clearbody w.
  set (w1 := Extension.analyzeProjectFile (now 0%nat) (random 0%nat) "app.js" w).
  set (w2 := Extension.analyzeProjectFile (now 1%nat) (random 1%nat)
               "components/Header.js" w1).
  set (w3 := Extension.analyzeProjectFile (now 2%nat) (random 2%nat) "styles/main.css" w2).
  set (w4 := Extension.analyzeProjectFile (now 3%nat) (random 3%nat) "utils/api.js" w3).
  assert (Hw' : w' = Extension.analyzeProjectFile (now 4%nat) (random 4%nat)
                       "index.html" w4) by reflexivity.
  destruct (CommandFacts.project_file_step (now 0%nat) (random 0%nat) "app.js" w
              Hwf (Hrandom 0%nat)) as (Hwf1 & U1 & A1 & X1 & F1 & I1 & Fx1 & C1 & O1).
  fold w1 in Hwf1, U1, A1, X1, F1, I1, Fx1, C1, O1.
  destruct (CommandFacts.project_file_step (now 1%nat) (random 1%nat)
              "components/Header.js" w1 Hwf1 (Hrandom 1%nat))
    as (Hwf2 & U2 & A2 & X2 & F2 & I2 & Fx2 & C2 & O2).
  fold w2 in Hwf2, U2, A2, X2, F2, I2, Fx2, C2, O2.
  destruct (CommandFacts.project_file_step (now 2%nat) (random 2%nat)
              "styles/main.css" w2 Hwf2 (Hrandom 2%nat))
    as (Hwf3 & U3 & A3 & X3 & F3 & I3 & Fx3 & C3 & O3).
  fold w3 in Hwf3, U3, A3, X3, F3, I3, Fx3, C3, O3.
  destruct (CommandFacts.project_file_step (now 3%nat) (random 3%nat)
              "utils/api.js" w3 Hwf3 (Hrandom 3%nat))
    as (Hwf4 & U4 & A4 & X4 & F4 & I4 & Fx4 & C4 & O4).
  fold w4 in Hwf4, U4, A4, X4, F4, I4, Fx4, C4, O4.
  destruct (CommandFacts.project_file_step (now 4%nat) (random 4%nat)
              "index.html" w4 Hwf4 (Hrandom 4%nat))
    as (Hwf5 & U5 & A5 & X5 & F5 & I5 & Fx5 & C5 & O5).
  rewrite <- Hw' in Hwf5, U5, A5, X5, F5, I5, Fx5, C5, O5.
  clearbody w' w4 w3 w2 w1. unfold getMetrics.
  split; [lia|]. split; [lia|]. split; [lia|]. split; [|split; [|split; [|split; [|split]]]].
  - intros featureId.
    pose proof (C1 featureId). pose proof (C2 featureId). pose proof (C3 featureId).
    pose proof (C4 featureId). pose proof (C5 featureId). lia.
  - intros featureId Hout.
    now rewrite (O5 featureId Hout), (O4 featureId Hout), (O3 featureId Hout),
      (O2 featureId Hout), (O1 featureId Hout).
  - rewrite A5, A4, A3, A2, A1. cbn [map app a_fileName a_language analysis_entry].
    repeat f_equal; vm_compute; reflexivity.
  - now rewrite X5, X4, X3, X2, X1.
  - intros Hv Hi. destruct (Hvalid Hv) as [Hup (H1 & H2 & H3 & H4)].
    pose proof (U5 (U4 (U3 (U2 (U1 Hup))))) as Hup'.
    unfold up_to_date in Hup, Hup'. rewrite Hup, Hup', !CallFacts.recomputed_unfold.
    unfold getMetrics in Hi.
    replace (issuesFound (metrics w) =? 0) with false by (symmetry; apply Z.eqb_neq; lia).
    replace (issuesFound (metrics w') =? 0) with false by (symmetry; apply Z.eqb_neq; lia).
    replace (fixesApplied (metrics w')) with (fixesApplied (metrics w)) by lia.
    pose proof (RoundFacts.percent_mono_issues (fixesApplied (metrics w))
                  (issuesFound (metrics w)) (issuesFound (metrics w'))). lia.
  - exact Hnone.
Qed.

(** A new tracker and every [Math.random()] returning three quarters: four
    issues per file, twenty in all, and every feature recorded five
    times. *)
Lemma analyze_project_command_witness :
  let random := fun _ _ : nat => (3 # 4)%Q in
  let w' := Extension.analyzeProject true (fun _ => 1) random (run [] (constructor [] 0)) in
  unit_intervals random
  /\ issuesFound (getMetrics w') = 20
  /\ usage_count w' "<div>" = 5
  /\ filesAnalyzed (getMetrics w') = filesAnalyzed (getMetrics (run [] (constructor [] 0))) + 5.
Proof.
  intros random w'.
  assert (Hr : unit_intervals random)
    by (intros i k; split; [discriminate | reflexivity]).
  split; [exact Hr|]. split; [vm_compute; reflexivity|]. split; [vm_compute; reflexivity|].
  exact (proj1 (analyze_project_command [] 0 [] (fun _ => 1) random Hr)).
Defined.
